(** * Workflow orchestration engine: agent dispatch and workflow runs

    A shallow embedding of the agent manager ([getAgent], [executeTask]) and
    of the workflow manager ([registerWorkflow], [getWorkflow],
    [createWorkflow], [runWorkflow]) of the CodeForge sources.

    Conventions of the embedding:
    - a JS object used as a dictionary ([agents], [workflows],
      [context.results], task inputs) is a [gmap string _]; the property
      names that a JS object inherits from [Object.prototype] are not
      modelled, and a property that depends on the lookup of an id which has
      no entry says so ([inheritedName id = false]);
    - a function that can [throw] returns an [Outcome]: [Ret v] or
      [Throw msg], [msg] being the message of the [Error];
    - everything the code does to the outside world (console output, agent
      calls, the approval prompt, git, the file system) is appended to a
      [Trace], oldest event first;
    - the collaborators the engine only calls (the registered agents, the
      answer of the user to the approval prompt, git, the code base
      analyzer, the configuration, the file system and the [path] module)
      are the fields of an environment record [Env];
    - the [while] loop of [runWorkflow] is a fuel-indexed function: [None]
      means that the fuel ran out while the loop condition still held. *)

From stdpp Require Import gmap strings list.

(** ** Values and outcomes *)

(** The payloads typed [any] in the source. *)
#[local] Unset Elimination Schemes.
Inductive JValue : Type :=
| JNull
| JBool (b : bool)
| JNum (n : Z)
| JStr (s : string)
| JArr (l : list JValue)
| JObj (m : gmap string JValue).
#[local] Set Elimination Schemes.

Inductive Outcome (A : Type) : Type :=
| Ret (a : A)
| Throw (message : string).
Arguments Ret {A} a.
Arguments Throw {A} message.

Definition is_throw {A} (o : Outcome A) : bool :=
  match o with Ret _ => false | Throw _ => true end.

(** ** src/agents/types.ts *)

(** [type] is a union of six string literals in the declaration; workflows
    parsed from JSON files are cast to it unchecked, so that any string can
    reach the [default] branch of [executeTask]. *)
Record AgentTask : Type := {
  task_id : string;
  task_type : string;
  task_description : string;
  task_input : gmap string JValue;
  task_options : option (gmap string JValue)
}.

Record AgentResult : Type := {
  success : bool;
  output : JValue;
  error : option string;
  metadata : option (gmap string JValue)
}.

Record Codebase : Type := {
  rootDir : string;
  files : gmap string string;
  ast : option JValue
}.

Record AgentContext : Type := {
  codebase : Codebase;
  currentFile : option string;
  results : gmap string AgentResult;
  options : option (gmap string JValue)
}.

Record Agent : Type := {
  agent_name : string;
  agent_description : string;
  capabilities : list string;
  agent_executeTask : AgentTask → AgentContext → Outcome AgentResult
}.

(** ** Observable events *)

Inductive Event : Type :=
| ConsoleLog (msg : string)
| ConsoleError (msg err : string)
| AgentCall (agentKey : string) (task : AgentTask)
| ApprovalAsked (msg : string)
| GitCommit (msg : string)
| GitPush
| FsMkdir (dir : string)
| FsWriteFile (file : string).

Abbreviation Trace := (list Event).

Definition is_AgentCall (e : Event) : bool :=
  match e with AgentCall _ _ => true | _ => false end.
Definition is_ApprovalAsked (e : Event) : bool :=
  match e with ApprovalAsked _ => true | _ => false end.
Definition is_GitCommit (e : Event) : bool :=
  match e with GitCommit _ => true | _ => false end.
Definition is_GitPush (e : Event) : bool :=
  match e with GitPush => true | _ => false end.

Definition count_events (p : Event → bool) (tr : Trace) : nat :=
  length (List.filter p tr).

(** The tasks handed to agents, in call order. *)
Definition dispatched (tr : Trace) : list AgentTask :=
  omap (λ e, match e with AgentCall _ t => Some t | _ => None end) tr.

(** ** The environment of the engine *)

Record WorkflowConfig : Type := {
  cfg_autoCommit : bool;
  cfg_requireApproval : bool
}.

Record Env : Type := {
  (** the module-level [agents] record, as [setupAgents] left it *)
  agents : gmap string Agent;
  (** what the approval prompt answers, given what happened so far *)
  userApproves : Trace → string → bool;
  (** src/utils/git-utils.ts, as seen by its caller *)
  gitCommit : string → Outcome ();
  gitPush : Outcome ();
  (** src/codebase/analyzer.ts, as seen by its caller *)
  analyzeCodebase : string → Outcome Codebase;
  (** [getConfig().workflow] *)
  getConfig : WorkflowConfig;
  (** [process.cwd()] *)
  cwd : string;
  fs_mkdir : string → Outcome ();
  fs_writeFile : string → string → Outcome ();
  (** [path.join(...segments)] and [path.dirname(p)] *)
  path_join : list string → string;
  path_dirname : string → string
}.

(** ** Agent manager (agents/agent-manager.ts) *)

Module AgentManager.

Definition getAgent (E : Env) (agentName : string) : Outcome Agent :=
  match agents E !! agentName with
  | Some agent => Ret agent
  | None => Throw ("Agent " +:+ agentName +:+ " not found")
  end.

(** The [switch] of [executeTask]: the registry key of each task type. *)
Definition agentKey (type : string) : option string :=
  if String.eqb type "code-generation" then Some "codeGeneration"
  else if String.eqb type "code-review" then Some "codeReview"
  else if String.eqb type "error-fixing" then Some "errorFixing"
  else if String.eqb type "refactoring" then Some "refactoring"
  else if String.eqb type "testing" then Some "testing"
  else if String.eqb type "langgraph" then Some "langgraph"
  else None.

Definition executeTask (E : Env) (task : AgentTask) (context : AgentContext)
    (tr : Trace) : Outcome AgentResult * Trace :=
  match agentKey (task_type task) with
  | None => (Throw ("Unknown task type: " +:+ task_type task), tr)
  | Some key =>
      match getAgent E key with
      | Throw e => (Throw e, tr)
      | Ret agent =>
          (agent_executeTask agent task context, tr ++ [AgentCall key task])
      end
  end.

End AgentManager.

(** ** Workflow manager (workflow/workflow-manager.ts) *)

Module WorkflowManager.

(** [next?: string | ((context) => string)] *)
Inductive NextSelector : Type :=
| Static (stepId : string)
| Computed (f : AgentContext → string).

Record WorkflowStep : Type := {
  step_id : string;
  step_name : string;
  step_description : string;
  step_task : AgentTask;
  condition : option (AgentContext → bool);
  next : option NextSelector
}.

Record Workflow : Type := {
  wf_id : string;
  wf_name : string;
  wf_description : string;
  steps : list WorkflowStep
}.

(** The module-level [workflows] record. *)
Abbreviation Store := (gmap string Workflow).

(** *** The definition store *)

Definition registerWorkflow (workflow : Workflow) (workflows : Store) : Store :=
  <[wf_id workflow := workflow]> workflows.

Definition getWorkflow (workflows : Store) (id : string) : Outcome Workflow :=
  match workflows !! id with
  | Some workflow => Ret workflow
  | None => Throw ("Workflow " +:+ id +:+ " not found")
  end.


(** A step as [loadBuiltInWorkflows] writes them: the task carries the id of
    the step and an empty input, there is no condition, and [next] is a
    static id or absent. *)
Definition builtInStep (id name description type taskDescription : string)
    (nxt : option string) : WorkflowStep := {|
  step_id := id;
  step_name := name;
  step_description := description;
  step_task := {| task_id := id; task_type := type;
                  task_description := taskDescription;
                  task_input := ∅; task_options := None |};
  condition := None;
  next := Static <$> nxt
|}.

Definition codeGenerationWorkflow : Workflow := {|
  wf_id := "code-generation";
  wf_name := "Code Generation";
  wf_description := "Generate code based on a description";
  steps :=
    [builtInStep "generate-code" "Generate Code"
       "Generate code based on the description" "code-generation"
       "Generate code based on the description" (Some "review-code");
     builtInStep "review-code" "Review Code"
       "Review the generated code" "code-review"
       "Review the generated code" (Some "save-code");
     builtInStep "save-code" "Save Code"
       "Save the generated code to a file" "code-generation"
       "Save the generated code to a file" None]
|}.

Definition bugFixingWorkflow : Workflow := {|
  wf_id := "bug-fixing";
  wf_name := "Bug Fixing";
  wf_description := "Fix a bug in the code";
  steps :=
    [builtInStep "analyze-bug" "Analyze Bug"
       "Analyze the bug to understand its cause" "code-review"
       "Analyze the bug to understand its cause" (Some "fix-bug");
     builtInStep "fix-bug" "Fix Bug"
       "Fix the bug in the code" "error-fixing"
       "Fix the bug in the code" (Some "test-fix");
     builtInStep "test-fix" "Test Fix"
       "Test the bug fix" "testing"
       "Test the bug fix" None]
|}.

Definition codeRefactoringWorkflow : Workflow := {|
  wf_id := "code-refactoring";
  wf_name := "Code Refactoring";
  wf_description := "Refactor code to improve its quality";
  steps :=
    [builtInStep "analyze-code" "Analyze Code"
       "Analyze the code to identify areas for improvement" "code-review"
       "Analyze the code to identify areas for improvement" (Some "refactor-code");
     builtInStep "refactor-code" "Refactor Code"
       "Refactor the code to improve its quality" "refactoring"
       "Refactor the code to improve its quality" (Some "test-refactoring");
     builtInStep "test-refactoring" "Test Refactoring"
       "Test the refactored code" "testing"
       "Test the refactored code" None]
|}.

Definition langgraphWorkflow : Workflow := {|
  wf_id := "langgraph-code-generation";
  wf_name := "LangGraph Code Generation";
  wf_description := "Generate and validate Python code using LangGraph";
  steps :=
    [builtInStep "generate-code" "Generate Code"
       "Generate Python code using LangGraph" "langgraph"
       "Generate Python code based on the description" (Some "review-code");
     builtInStep "review-code" "Review Code"
       "Review the generated code" "code-review"
       "Review the generated code" (Some "save-code");
     builtInStep "save-code" "Save Code"
       "Save the generated code to a file" "code-generation"
       "Save the generated code to a file" None]
|}.

Definition loadBuiltInWorkflows (workflows : Store) : Store :=
  registerWorkflow langgraphWorkflow
    (registerWorkflow codeRefactoringWorkflow
       (registerWorkflow bugFixingWorkflow
          (registerWorkflow codeGenerationWorkflow workflows))).

(** [!s] on a string *)
Definition emptyStr (s : string) : bool := String.eqb s "".

(** The test of [createWorkflow]; [steps] is an array by its type, so that
    [!workflow.steps] is never true. *)
Definition invalidDefinition (workflow : Workflow) : bool :=
  emptyStr (wf_id workflow) || emptyStr (wf_name workflow)
  || emptyStr (wf_description workflow) || (length (steps workflow) =? 0)%nat.

(** [configDir] and [workflowsDir], as [createWorkflow] and
    [initializeWorkflows] compute them. *)
Definition configDir (E : Env) : string :=
  path_dirname E (path_join E [cwd E; ".codeforge"; "config.json"]).

Definition workflowsDir (E : Env) : string :=
  path_join E [configDir E; "workflows"].

(** [path.join(workflowsDir, `${workflow.id}.json`)] *)
Definition workflowFile (E : Env) (workflow : Workflow) : string :=
  path_join E [workflowsDir E; wf_id workflow +:+ ".json"].

(** [createWorkflow], with [stringify] standing for
    [JSON.stringify(workflow, null, 2)]. The [catch] logs and rethrows
    whatever the body threw; the store keeps what was registered before. *)
Definition createWorkflow (E : Env) (stringify : Workflow → string)
    (workflow : Workflow) (workflows : Store) (tr : Trace)
  : Outcome Workflow * Store * Trace :=
  let caught e ws tr := (Throw e, ws, tr ++ [ConsoleError "Error creating workflow:" e]) in
  if invalidDefinition workflow then
    caught "Invalid workflow definition" workflows tr
  else
    let workflows' := registerWorkflow workflow workflows in
    let tr1 := tr ++ [FsMkdir (workflowsDir E)] in
    match fs_mkdir E (workflowsDir E) with
    | Throw e => caught e workflows' tr1
    | Ret _ =>
        let tr2 := tr1 ++ [FsWriteFile (workflowFile E workflow)] in
        match fs_writeFile E (workflowFile E workflow) (stringify workflow) with
        | Throw e => caught e workflows' tr2
        | Ret _ =>
            (Ret workflow, workflows',
             tr2 ++ [ConsoleLog ("Workflow " +:+ wf_name workflow +:+ " created.")])
        end
    end.

(** *** Running a workflow *)

(** The [options] argument of [runWorkflow]; every field is optional. *)
Record RunOptions : Type := {
  opt_codebaseDir : option string;
  opt_autoCommit : option bool;
  opt_commitMessage : option string;
  opt_requireApproval : option bool
}.

Record WorkflowOptions : Type := {
  codebaseDir : string;
  autoCommit : bool;
  commitMessage : string;
  requireApproval : bool
}.

(** [o || d] on an optional string: the empty string is falsy. *)
Definition orElse (o : option string) (d : string) : string :=
  match o with
  | Some s => if emptyStr s then d else s
  | None => d
  end.

Definition setDefaultOptions (E : Env) (workflow : Workflow)
    (options : option RunOptions) : WorkflowOptions := {|
  codebaseDir := orElse (options ≫= opt_codebaseDir) (cwd E);
  autoCommit :=
    default (cfg_autoCommit (getConfig E)) (options ≫= opt_autoCommit);
  commitMessage :=
    orElse (options ≫= opt_commitMessage)
      ("CodeForge: Run workflow " +:+ wf_name workflow);
  requireApproval :=
    default (cfg_requireApproval (getConfig E)) (options ≫= opt_requireApproval)
|}.

(** One element of the returned array: [{ step: step.name, result }]. *)
Record StepResult : Type := {
  step : string;
  result : AgentResult
}.

(** What the loop of [runWorkflow] reads and writes. *)
Record LoopState : Type := {
  currentStepId : option string;
  context : AgentContext;
  collected : list StepResult;
  trace : Trace
}.

(** [while (currentStepId)]: [undefined] and the empty string are falsy. *)
Definition loopGuard (cur : option string) : bool :=
  match cur with
  | Some s => negb (emptyStr s)
  | None => false
  end.

(** [workflow.steps.find((s) => s.id === currentStepId)] *)
Definition findStep (workflow : Workflow) (cur : string) : option WorkflowStep :=
  List.find (λ s, String.eqb (step_id s) cur) (steps workflow).

(** The two copies of "Determine the next step". *)
Definition nextStep (s : WorkflowStep) (context : AgentContext) : option string :=
  match next s with
  | Some (Computed f) => Some (f context)
  | Some (Static stepId) => Some stepId
  | None => None
  end.

(** [step.condition && !step.condition(context)] *)
Definition skipped (s : WorkflowStep) (context : AgentContext) : bool :=
  match condition s with
  | Some c => negb (c context)
  | None => false
  end.

(** [{ ...step.task.input, ...input }]: the fields of the run input win. *)
Definition taskInput (s : WorkflowStep) (input : option (gmap string JValue))
  : gmap string JValue :=
  default ∅ input ∪ task_input (step_task s).

(** [{ ...step.task, input: taskInput }] *)
Definition stepTask (s : WorkflowStep) (input : option (gmap string JValue))
  : AgentTask := {|
  task_id := task_id (step_task s);
  task_type := task_type (step_task s);
  task_description := task_description (step_task s);
  task_input := taskInput s input;
  task_options := task_options (step_task s)
|}.

(** [context.results[stepId] = result] *)
Definition recordResult (context : AgentContext) (stepId : string)
    (r : AgentResult) : AgentContext := {|
  codebase := codebase context;
  currentFile := currentFile context;
  results := <[stepId := r]> (results context);
  options := options context
|}.

(** The local [askForApproval]: it logs the message; what it returns is the
    answer of the environment (the placeholder of the source answers
    [true] every time, see [placeholderApproval]). *)
Definition askForApproval (E : Env) (message : string) (tr : Trace) : bool * Trace :=
  (userApproves E tr message, tr ++ [ApprovalAsked message; ConsoleLog message]).

Definition placeholderApproval : Trace → string → bool := λ _ _, true.

Inductive Iteration : Type :=
| Continue (st : LoopState)
| Break (st : LoopState)
| Raise (e : string) (tr : Trace).

(** One pass through the body of the [while] loop, entered with the truthy
    step id [cur]. *)
Definition loopBody (E : Env) (workflow : Workflow)
    (input : option (gmap string JValue)) (o : WorkflowOptions)
    (cur : string) (st : LoopState) : Iteration :=
  match findStep workflow cur with
  | None => Break st
  | Some s =>
      let tr1 := trace st ++ [ConsoleLog ("Executing step: " +:+ step_name s)] in
      if skipped s (context st) then
        Continue {|
          currentStepId := nextStep s (context st);
          context := context st;
          collected := collected st;
          trace := tr1 ++ [ConsoleLog ("Skipping step " +:+ step_name s
                                        +:+ " (condition not met)")]
        |}
      else
        match AgentManager.executeTask E (stepTask s input) (context st) tr1 with
        | (Throw e, tr2) => Raise e tr2
        | (Ret r, tr2) =>
            let context' := recordResult (context st) (step_id s) r in
            let collected' := collected st ++ [{| step := step_name s; result := r |}] in
            let proceed tr := Continue {|
              currentStepId := nextStep s context';
              context := context';
              collected := collected';
              trace := tr
            |} in
            if negb (success r) && requireApproval o then
              let (shouldContinue, tr3) :=
                askForApproval E ("Step " +:+ step_name s
                  +:+ " failed. Do you want to continue the workflow?") tr2 in
              if shouldContinue then proceed tr3
              else Break {|
                currentStepId := currentStepId st;
                context := context';
                collected := collected';
                trace := tr3 ++ [ConsoleLog "Workflow execution stopped by user."]
              |}
            else proceed tr2
        end
  end.

(** The [while] loop. [fuel] bounds the number of passes through the body;
    [None] is returned when it is used up with the guard still true. *)
Fixpoint whileLoop (E : Env) (workflow : Workflow)
    (input : option (gmap string JValue)) (o : WorkflowOptions)
    (fuel : nat) (st : LoopState) : option (Outcome LoopState * Trace) :=
  match currentStepId st with
  | Some cur =>
      if emptyStr cur then Some (Ret st, trace st)
      else
        match fuel with
        | O => None
        | S fuel' =>
            match loopBody E workflow input o cur st with
            | Continue st' => whileLoop E workflow input o fuel' st'
            | Break st' => Some (Ret st', trace st')
            | Raise e tr => Some (Throw e, tr)
            end
        end
  | None => Some (Ret st, trace st)
  end.

(** "Commit changes if auto-commit is enabled" *)
Definition commitChanges (E : Env) (o : WorkflowOptions) (tr : Trace) : Trace :=
  if autoCommit o then
    let tr1 := tr ++ [GitCommit (commitMessage o)] in
    match gitCommit E (commitMessage o) with
    | Throw e => tr1 ++ [ConsoleError "Failed to commit changes:" e]
    | Ret _ =>
        let tr2 := tr1 ++ [GitPush] in
        match gitPush E with
        | Throw e => tr2 ++ [ConsoleError "Failed to commit changes:" e]
        | Ret _ => tr2 ++ [ConsoleLog "Changes committed and pushed."]
        end
    end
  else tr.

Definition initialContext (cb : Codebase) (dir : string)
    (input : option (gmap string JValue)) : AgentContext := {|
  codebase := {| rootDir := dir; files := files cb; ast := ast cb |};
  currentFile := None;
  results := ∅;
  options := (λ i, {["input" := JObj i]}) <$> input
|}.

(** The state in which the loop is entered:
    [currentStepId = workflow.steps[0].id], [results = []]. *)
Definition initialState (first : WorkflowStep) (cb : Codebase)
    (o : WorkflowOptions) (input : option (gmap string JValue)) (tr : Trace)
  : LoopState := {|
  currentStepId := Some (step_id first);
  context := initialContext cb (codebaseDir o) input;
  collected := [];
  trace := tr
|}.

(** [runWorkflow]. The outer [catch] logs and rethrows. Reading [.id] of
    [workflow.steps[0]] on an empty step list is a [TypeError]. *)
Definition runWorkflow (E : Env) (workflows : Store) (workflowId : string)
    (input : option (gmap string JValue)) (options : option RunOptions)
    (fuel : nat) (tr : Trace) : option (Outcome (list StepResult) * Trace) :=
  let caught e tr :=
    Some (Throw e, tr ++ [ConsoleError ("Error running workflow " +:+ workflowId +:+ ":") e]) in
  match getWorkflow workflows workflowId with
  | Throw e => caught e tr
  | Ret workflow =>
      let o := setDefaultOptions E workflow options in
      let tr1 := tr ++ [ConsoleLog ("Running workflow: " +:+ wf_name workflow)] in
      match analyzeCodebase E (codebaseDir o) with
      | Throw e => caught e tr1
      | Ret cb =>
          match steps workflow with
          | [] => caught "Cannot read properties of undefined (reading 'id')" tr1
          | first :: _ =>
              match whileLoop E workflow input o fuel (initialState first cb o input tr1) with
              | None => None
              | Some (Throw e, tr2) => caught e tr2
              | Some (Ret st, tr2) =>
                  let tr3 := tr2 ++ [ConsoleLog ("Workflow " +:+ wf_name workflow +:+ " completed.")] in
                  Some (Ret (collected st), commitChanges E o tr3)
              end
          end
      end
  end.

End WorkflowManager.

Import WorkflowManager.

(** ** Git helpers (utils/git-utils.ts) *)

Module GitUtils.

(** What the helpers do to the outside: the shell commands they run through
    [execAsync], and their console output. *)
Inductive GitEvent : Type :=
| Exec (command : string)
| Log (msg : string).

(** The shell: [execAsync sh history command] is the standard output of the
    command, or the message of the error [exec] rejects with; it may depend
    on what was run before. [trim] is [String.prototype.trim]. *)
Record Shell : Type := {
  execAsync : list GitEvent → string → Outcome string;
  trim : string → string
}.

Definition run (sh : Shell) (command : string) (tr : list GitEvent)
  : Outcome string * list GitEvent :=
  (execAsync sh tr command, tr ++ [Exec command]).

Definition isGitRepository (sh : Shell) (tr : list GitEvent) : bool * list GitEvent :=
  match run sh "git rev-parse --is-inside-work-tree" tr with
  | (Ret _, tr') => (true, tr')
  | (Throw _, tr') => (false, tr')
  end.

Definition getCurrentBranch (sh : Shell) (tr : list GitEvent)
  : Outcome string * list GitEvent :=
  match run sh "git rev-parse --abbrev-ref HEAD" tr with
  | (Ret stdout, tr') => (Ret (trim sh stdout), tr')
  | (Throw e, tr') => (Throw ("Failed to get current branch: " +:+ e), tr')
  end.

Definition getStatus (sh : Shell) (tr : list GitEvent)
  : Outcome string * list GitEvent :=
  match run sh "git status --porcelain" tr with
  | (Ret stdout, tr') => (Ret (trim sh stdout), tr')
  | (Throw e, tr') => (Throw ("Failed to get Git status: " +:+ e), tr')
  end.

Definition stageAll (sh : Shell) (tr : list GitEvent) : Outcome () * list GitEvent :=
  match run sh "git add ." tr with
  | (Ret _, tr') => (Ret (), tr')
  | (Throw e, tr') => (Throw ("Failed to stage changes: " +:+ e), tr')
  end.

(** The double quote character. *)
Definition dquote : string := String (Ascii.ascii_of_nat 34) EmptyString.

(** [`git commit -m "${message}"`] *)
Definition commitCommand (message : string) : string :=
  "git commit -m " +:+ dquote +:+ message +:+ dquote.

Definition gitCommit (sh : Shell) (message : string) (tr : list GitEvent)
  : Outcome () * list GitEvent :=
  let failed e tr := (Throw ("Failed to commit changes: " +:+ e), tr) in
  match getStatus sh tr with
  | (Throw e, tr1) => failed e tr1
  | (Ret status, tr1) =>
      if String.eqb status "" then (Ret (), tr1 ++ [Log "No changes to commit"])
      else
        match stageAll sh tr1 with
        | (Throw e, tr2) => failed e tr2
        | (Ret _, tr2) =>
            match run sh (commitCommand message) tr2 with
            | (Throw e, tr3) => failed e tr3
            | (Ret _, tr3) => (Ret (), tr3)
            end
        end
  end.

Definition gitPush (sh : Shell) (tr : list GitEvent) : Outcome () * list GitEvent :=
  let failed e tr := (Throw ("Failed to push changes: " +:+ e), tr) in
  match getCurrentBranch sh tr with
  | (Throw e, tr1) => failed e tr1
  | (Ret branch, tr1) =>
      match run sh ("git push origin " +:+ branch) tr1 with
      | (Throw e, tr2) => failed e tr2
      | (Ret _, tr2) => (Ret (), tr2)
      end
  end.

Definition createBranch (sh : Shell) (branchName : string) (tr : list GitEvent)
  : Outcome () * list GitEvent :=
  match run sh ("git checkout -b " +:+ branchName) tr with
  | (Ret _, tr') => (Ret (), tr')
  | (Throw e, tr') => (Throw ("Failed to create branch: " +:+ e), tr')
  end.

Definition switchBranch (sh : Shell) (branchName : string) (tr : list GitEvent)
  : Outcome () * list GitEvent :=
  match run sh ("git checkout " +:+ branchName) tr with
  | (Ret _, tr') => (Ret (), tr')
  | (Throw e, tr') => (Throw ("Failed to switch branch: " +:+ e), tr')
  end.

(** The commands in a trace, in the order they were run. *)
Definition commands (tr : list GitEvent) : list string :=
  omap (λ e, match e with Exec c => Some c | Log _ => None end) tr.

End GitUtils.

(** ** Agent manager, continued: [setupAgents], [getAllAgents],
    [orchestrateAgents] *)

Module AgentSetup.

(** [getConfig().agents]; [setupAgents] does not read the [langgraph] flag. *)
Record AgentsConfig : Type := {
  codeGeneration_enabled : bool;
  codeReview_enabled : bool;
  errorFixing_enabled : bool;
  refactoring_enabled : bool;
  testing_enabled : bool;
  langgraph_enabled : bool
}.

(** The objects that [new CodeGenerationAgent()], ... construct. *)
Record AgentClasses : Type := {
  CodeGenerationAgent : Agent;
  CodeReviewAgent : Agent;
  ErrorFixingAgent : Agent;
  RefactoringAgent : Agent;
  TestingAgent : Agent;
  LangGraphAgent : Agent
}.

(** [if (enabled) { agents[key] = agent }] *)
Definition setIf (enabled : bool) (key : string) (agent : Agent)
    (ags : gmap string Agent) : gmap string Agent :=
  if enabled then <[key := agent]> ags else ags.

(** [setupAgents], as a function of the module-level [agents] record. *)
Definition setupAgents (config : AgentsConfig) (new : AgentClasses)
    (ags : gmap string Agent) : gmap string Agent :=
  let ags := setIf (codeGeneration_enabled config) "codeGeneration" (CodeGenerationAgent new) ags in
  let ags := setIf (codeReview_enabled config) "codeReview" (CodeReviewAgent new) ags in
  let ags := setIf (errorFixing_enabled config) "errorFixing" (ErrorFixingAgent new) ags in
  let ags := setIf (refactoring_enabled config) "refactoring" (RefactoringAgent new) ags in
  let ags := setIf (testing_enabled config) "testing" (TestingAgent new) ags in
  <["langgraph" := LangGraphAgent new]> ags.

(** [getAllAgents]: a copy of the record. *)
Definition getAllAgents (E : Env) : gmap string Agent := agents E.

(** The environment with another [agents] record. *)
Definition withAgents (E : Env) (ags : gmap string Agent) : Env := {|
  agents := ags;
  userApproves := userApproves E;
  gitCommit := gitCommit E;
  gitPush := gitPush E;
  analyzeCodebase := analyzeCodebase E;
  getConfig := getConfig E;
  cwd := cwd E;
  fs_mkdir := fs_mkdir E;
  fs_writeFile := fs_writeFile E;
  path_join := path_join E;
  path_dirname := path_dirname E
|}.

(** The [for] loop of [orchestrateAgents]. The context object of the caller
    is updated in place, so that the caller sees the results recorded
    before an exception: the context is returned in both cases.
    [context.results = context.results || {}] changes nothing here, an
    absent [results] being the empty map. *)
Fixpoint orchestrateLoop (E : Env) (tasks : list AgentTask)
    (context : AgentContext) (results : list AgentResult) (tr : Trace)
  : Outcome (list AgentResult) * AgentContext * Trace :=
  match tasks with
  | [] => (Ret results, context, tr)
  | task :: tasks' =>
      match AgentManager.executeTask E task context tr with
      | (Throw e, tr') => (Throw e, context, tr')
      | (Ret r, tr') =>
          orchestrateLoop E tasks'
            (WorkflowManager.recordResult context (task_id task) r)
            (results ++ [r]) tr'
      end
  end.

Definition orchestrateAgents (E : Env) (tasks : list AgentTask)
    (context : AgentContext) (tr : Trace)
  : Outcome (list AgentResult) * AgentContext * Trace :=
  orchestrateLoop E tasks context [] tr.

End AgentSetup.

(** ** Workflow manager, continued: [initializeWorkflows] *)

Module WorkflowLoading.
Import WorkflowManager.

(** What [initializeWorkflows] reads: the directory listing, the files, and
    [JSON.parse], whose value the code casts to [Workflow]. *)
Record Disk : Type := {
  fs_readdir : string → Outcome (list string);
  fs_readFile : string → Outcome string;
  JSON_parse : string → Outcome Workflow
}.

(** [file.endsWith(suffix)] *)
Definition endsWith (file suffix : string) : bool :=
  bool_decide (String.list_ascii_of_string suffix
               `suffix_of` String.list_ascii_of_string file).

(** The [for] loop over the directory entries. An exception leaves the loop;
    what was registered before stays registered. *)
Fixpoint loadFiles (E : Env) (D : Disk) (files : list string) (workflows : Store)
  : Outcome () * Store :=
  match files with
  | [] => (Ret (), workflows)
  | file :: files' =>
      if endsWith file ".json" then
        match fs_readFile D (path_join E [workflowsDir E; file]) with
        | Throw e => (Throw e, workflows)
        | Ret content =>
            match JSON_parse D content with
            | Throw e => (Throw e, workflows)
            | Ret workflow => loadFiles E D files' (registerWorkflow workflow workflows)
            end
        end
      else loadFiles E D files' workflows
  end.

(** The inner [catch]: "Workflows directory might not exist yet". An
    exception of [mkdir] reaches the outer [catch], which logs it. *)
Definition makeWorkflowsDir (E : Env) (tr : Trace) : Trace :=
  match fs_mkdir E (workflowsDir E) with
  | Ret _ => tr ++ [FsMkdir (workflowsDir E)]
  | Throw e =>
      tr ++ [FsMkdir (workflowsDir E); ConsoleError "Error initializing workflows:" e]
  end.

Definition initializeWorkflows (E : Env) (D : Disk) (workflows : Store) (tr : Trace)
  : Store * Trace :=
  let workflows := loadBuiltInWorkflows workflows in
  match fs_readdir D (workflowsDir E) with
  | Throw _ => (workflows, makeWorkflowsDir E tr)
  | Ret files =>
      match loadFiles E D files workflows with
      | (Ret _, workflows') => (workflows', tr)
      | (Throw _, workflows') => (workflows', makeWorkflowsDir E tr)
      end
  end.

End WorkflowLoading.

(** ** Callers: the [workflow] command (index.ts) and the [/workflow] chat
    command (ui/chat.ts) *)

Module Callers.
Import WorkflowManager.

(** The colour functions of [chalk]. *)
Record Chalk : Type := {
  blue : string → string;
  green : string → string;
  yellow : string → string;
  red : string → string
}.

(** [program.command("workflow <name>").action(...)]. [initializeConfig] and
    [setupModelProviders] are given by their outcomes. The workflow manager
    is imported here for the first time and nothing in this action calls
    [initializeWorkflows] or [registerWorkflow]: [runWorkflow] runs on the
    empty [workflows] record. *)
Definition workflowAction (E : Env) (ch : Chalk)
    (initializeConfig setupModelProviders : Outcome ())
    (config : AgentSetup.AgentsConfig) (new : AgentSetup.AgentClasses)
    (name : string) (fuel : nat) (tr : Trace) : option Trace :=
  let caught e tr := Some (tr ++ [ConsoleError (red ch "Error running workflow:") e]) in
  match initializeConfig with
  | Throw e => caught e tr
  | Ret _ =>
      match setupModelProviders with
      | Throw e => caught e tr
      | Ret _ =>
          let E' := AgentSetup.withAgents E (AgentSetup.setupAgents config new (agents E)) in
          match runWorkflow E' ∅ name None None fuel tr with
          | None => None
          | Some (Throw e, tr') => caught e tr'
          | Some (Ret _, tr') => Some tr'
          end
      end
  end.




End Callers.

(** * Vocabulary of the properties *)

(** [passes n st st']: [n] passes through the body lead from [st] to [st']
    without leaving the loop. *)
Inductive passes (E : Env) (workflow : Workflow)
    (input : option (gmap string JValue)) (o : WorkflowOptions)
  : nat → LoopState → LoopState → Prop :=
| passes_O st : passes E workflow input o 0 st st
| passes_S n st cur st' st'' :
    currentStepId st = Some cur → emptyStr cur = false →
    loopBody E workflow input o cur st = Continue st' →
    passes E workflow input o n st' st'' →
    passes E workflow input o (S n) st st''.

Definition iterationTrace (i : Iteration) : Trace :=
  match i with
  | Continue st | Break st => trace st
  | Raise _ tr => tr
  end.

(** The task type is unknown to the [switch], or the agent it names was not
    registered. *)
Definition noWorker (E : Env) (type : string) : Prop :=
  match AgentManager.agentKey type with
  | None => True
  | Some key => agents E !! key = None
  end.

(** The message of the [Error] thrown for such a type. *)
Definition dispatchError (type : string) : string :=
  match AgentManager.agentKey type with
  | None => "Unknown task type: " +:+ type
  | Some key => "Agent " +:+ key +:+ " not found"
  end.

(** The question put to the user after a failed step. *)
Definition approvalMessage (s : WorkflowStep) : string :=
  "Step " +:+ step_name s +:+ " failed. Do you want to continue the workflow?".

(** What "Commit changes if auto-commit is enabled" adds to the trace when
    auto-commit is enabled: the call of [gitCommit], the call of [gitPush]
    if [gitCommit] returned, and the final log line. *)
Definition hookEvents (E : Env) (o : WorkflowOptions) : list Event :=
  GitCommit (commitMessage o) ::
  match gitCommit E (commitMessage o) with
  | Throw e => [ConsoleError "Failed to commit changes:" e]
  | Ret _ =>
      GitPush ::
      match gitPush E with
      | Throw e => [ConsoleError "Failed to commit changes:" e]
      | Ret _ => [ConsoleLog "Changes committed and pushed."]
      end
  end.

(** The console line of the branch taken when the approval is denied. *)
Definition stoppedByUser (e : Event) : bool :=
  match e with
  | ConsoleLog msg => String.eqb msg "Workflow execution stopped by user."
  | _ => false
  end.

(** The loop was left because there is no step to go on with: the current id
    is falsy, or it is the id of no step of the workflow. *)
Definition noNextStep (workflow : Workflow) (st : LoopState) : Prop :=
  loopGuard (currentStepId st) = false ∨
  ∃ cur, currentStepId st = Some cur ∧ findStep workflow cur = None.

(** No conditions, and each step names the step declared after it; the last
    step has no [next]. *)
Fixpoint chained (l : list WorkflowStep) : Prop :=
  match l with
  | [] => True
  | s :: tl =>
      condition s = None ∧
      next s = match tl with
               | [] => None
               | s' :: _ => Some (Static (step_id s'))
               end ∧
      chained tl
  end.

(** The agent registered for the task type of [s] returns, whatever the task
    and the context, a result with [success = true]. *)
Definition alwaysSucceeds (E : Env) (s : WorkflowStep) : Prop :=
  ∃ key agent,
    AgentManager.agentKey (task_type (step_task s)) = Some key ∧
    agents E !! key = Some agent ∧
    ∀ task context, ∃ r,
      agent_executeTask agent task context = Ret r ∧ success r = true.

(** [nextRef workflow a b]: the step found under the id [a] can name [b] as
    its next step, statically or as a value of its [next] function. *)
Definition nextRef (workflow : Workflow) (a b : string) : Prop :=
  ∃ s context, findStep workflow a = Some s ∧ nextStep s context = Some b.

(** No step id reaches itself along next references. *)
Definition acyclic (workflow : Workflow) : Prop :=
  ∀ a, ¬ tc (nextRef workflow) a a.

(** * Test fixtures *)

Module Fixtures.

Definition okResult : AgentResult :=
  {| success := true; output := JNull; error := None; metadata := None |}.

Definition failedResult : AgentResult :=
  {| success := false; output := JNull; error := Some "No files to review";
     metadata := None |}.

Definition stubAgent (r : AgentResult) : Agent := {|
  agent_name := "StubAgent";
  agent_description := "Answers every task with the same result";
  capabilities := [];
  agent_executeTask := λ _ _, Ret r
|}.

Definition emptyCodebase : Codebase :=
  {| rootDir := ""; files := ∅; ast := None |}.

(** [path.join] on segments that need no normalization: the segments
    separated by slashes. *)
Definition joinSegments (segments : list string) : string :=
  String.concat "/" segments.

Fixpoint hasSlash (p : string) : bool :=
  match p with
  | EmptyString => false
  | String c rest => String.eqb (String c EmptyString) "/" || hasSlash rest
  end.

(** [path.dirname] on such a path: the path without its last segment and the
    slash in front of it. *)
Fixpoint parentDir (p : string) : string :=
  match p with
  | EmptyString => EmptyString
  | String c rest => if hasSlash rest then String c (parentDir rest) else EmptyString
  end.

(** An environment with the given agents and approval answers, the default
    configuration of the tool, and git, analyzer and file system that work. *)
Definition env (ags : gmap string Agent) (approve : Trace → string → bool) : Env := {|
  agents := ags;
  userApproves := approve;
  gitCommit := λ _, Ret ();
  gitPush := Ret ();
  analyzeCodebase := λ _, Ret emptyCodebase;
  getConfig := {| cfg_autoCommit := false; cfg_requireApproval := true |};
  cwd := "/work";
  fs_mkdir := λ _, Ret ();
  fs_writeFile := λ _ _, Ret ();
  path_join := joinSegments;
  path_dirname := parentDir
|}.

Definition task (id type : string) : AgentTask := {|
  task_id := id; task_type := type; task_description := "";
  task_input := ∅; task_options := None
|}.

Definition mkStep (id type : string) (nxt : option NextSelector) : WorkflowStep := {|
  step_id := id; step_name := id; step_description := "";
  step_task := task id type; condition := None; next := nxt
|}.

Definition mkWorkflow (id : string) (ss : list WorkflowStep) : Workflow :=
  {| wf_id := id; wf_name := id; wf_description := "fixture"; steps := ss |}.

Definition runOptions (commit approval : bool) : option RunOptions :=
  Some {| opt_codebaseDir := None; opt_autoCommit := Some commit;
          opt_commitMessage := None; opt_requireApproval := Some approval |}.

Definition reviewOnly : Workflow :=
  mkWorkflow "review" [mkStep "analyze" "code-review" None].

Definition noAgents : Env := env ∅ placeholderApproval.

Definition denying : Env :=
  env {["codeReview" := stubAgent failedResult]}
    (λ _ _, false).

Definition allOk : Env :=
  env
    {["codeGeneration" := stubAgent okResult;
      "codeReview" := stubAgent okResult]}
    placeholderApproval.

(** A definition without name, description and steps. *)
Definition blank : Workflow :=
  {| wf_id := "blank"; wf_name := ""; wf_description := ""; steps := [] |}.

Definition gatedStep : WorkflowStep := {|
  step_id := "lint"; step_name := "Lint"; step_description := "";
  step_task := task "lint" "code-review";
  condition := Some (λ context, bool_decide (is_Some (results context !! "generate")));
  next := Some (Static "save")
|}.

Definition gatedWorkflow : Workflow :=
  mkWorkflow "gated" [gatedStep; mkStep "save" "code-generation" None].


Definition dangling : Workflow :=
  mkWorkflow "dangling"
    [mkStep "analyze" "code-review" (Some (Static "publish"))].

Definition danglingState : LoopState := {|
  currentStepId := Some "publish";
  context :=
    recordResult (initialContext emptyCodebase "/work" None)
      "analyze" okResult;
  collected := [{| step := "analyze"; result := okResult |}];
  trace := [ConsoleLog "Running workflow: dangling";
            ConsoleLog "Executing step: analyze";
            AgentCall "codeReview" (task "analyze" "code-review")]
|}.

(** One step, without condition and without [next], whose id is the empty
    string. *)
Definition unnamed : Workflow :=
  mkWorkflow "unnamed" [mkStep "" "code-generation" None].

(** Two steps that name each other; both conditions hold. *)
Definition cyclic : Workflow :=
  mkWorkflow "cycle"
    [mkStep "generate" "code-generation" (Some (Static "review"));
     {| step_id := "review"; step_name := "review"; step_description := "";
        step_task := task "review" "code-review";
        condition := Some (λ _, true);
        next := Some (Static "generate") |}].

End Fixtures.

(** * Further test fixtures *)

Module Samples.

(** A shell on a clean work tree: every command succeeds and prints
    nothing. *)
Definition cleanShell : GitUtils.Shell := {|
  GitUtils.execAsync := λ _ _, Ret "";
  GitUtils.trim := λ s, s
|}.

(** A shell on a work tree with one changed file, on the branch [main]. *)
Definition dirtyShell : GitUtils.Shell := {|
  GitUtils.execAsync := λ _ command,
    if String.eqb command "git status --porcelain" then Ret "M src/index.ts"
    else if String.eqb command "git rev-parse --abbrev-ref HEAD" then Ret "main"
    else Ret "";
  GitUtils.trim := λ s, s
|}.

Definition allEnabled : AgentSetup.AgentsConfig := {|
  AgentSetup.codeGeneration_enabled := true;
  AgentSetup.codeReview_enabled := true;
  AgentSetup.errorFixing_enabled := true;
  AgentSetup.refactoring_enabled := true;
  AgentSetup.testing_enabled := true;
  AgentSetup.langgraph_enabled := true
|}.

(** Tests are switched off, and so is LangGraph. *)
Definition noTesting : AgentSetup.AgentsConfig := {|
  AgentSetup.codeGeneration_enabled := true;
  AgentSetup.codeReview_enabled := true;
  AgentSetup.errorFixing_enabled := true;
  AgentSetup.refactoring_enabled := true;
  AgentSetup.testing_enabled := false;
  AgentSetup.langgraph_enabled := false
|}.

Definition stubs : AgentSetup.AgentClasses := {|
  AgentSetup.CodeGenerationAgent := Fixtures.stubAgent Fixtures.okResult;
  AgentSetup.CodeReviewAgent := Fixtures.stubAgent Fixtures.failedResult;
  AgentSetup.ErrorFixingAgent := Fixtures.stubAgent Fixtures.okResult;
  AgentSetup.RefactoringAgent := Fixtures.stubAgent Fixtures.okResult;
  AgentSetup.TestingAgent := Fixtures.stubAgent Fixtures.okResult;
  AgentSetup.LangGraphAgent := Fixtures.stubAgent Fixtures.okResult
|}.

(** An agent whose [executeTask] throws. *)
Definition throwingAgent : Agent := {|
  agent_name := "ThrowingAgent";
  agent_description := "Rejects every task";
  capabilities := [];
  agent_executeTask := λ _ _, Throw "connect ECONNREFUSED"
|}.

Definition unreachable : Env :=
  Fixtures.env {["codeReview" := throwingAgent]} WorkflowManager.placeholderApproval.

(** An environment whose disk is full: directories can be made, files cannot
    be written. *)
Definition fullDisk : Env := {|
  agents := ∅;
  userApproves := WorkflowManager.placeholderApproval;
  gitCommit := λ _, Ret ();
  gitPush := Ret ();
  analyzeCodebase := λ _, Ret Fixtures.emptyCodebase;
  getConfig := {| cfg_autoCommit := false; cfg_requireApproval := true |};
  cwd := "/work";
  fs_mkdir := λ _, Ret ();
  fs_writeFile := λ _ _, Throw "ENOSPC: no space left on device";
  path_join := Fixtures.joinSegments;
  path_dirname := Fixtures.parentDir
|}.

(** The review agent reports a failure, the approval prompt is the
    placeholder of the source, and the remote refuses the push. *)
Definition pushRejected : Env := {|
  agents := {["codeReview" := Fixtures.stubAgent Fixtures.failedResult]};
  userApproves := WorkflowManager.placeholderApproval;
  gitCommit := λ _, Ret ();
  gitPush := Throw "remote rejected";
  analyzeCodebase := λ _, Ret Fixtures.emptyCodebase;
  getConfig := {| cfg_autoCommit := false; cfg_requireApproval := true |};
  cwd := "/work";
  fs_mkdir := λ _, Ret ();
  fs_writeFile := λ _ _, Ret ();
  path_join := Fixtures.joinSegments;
  path_dirname := Fixtures.parentDir
|}.

(** Every agent is set up; the review agent reports a failure, the others
    succeed. *)
Definition reviewFails : Env :=
  AgentSetup.withAgents Fixtures.denying
    (AgentSetup.setupAgents allEnabled stubs ∅).

(** The generation agent succeeds, the review agent cannot be reached. *)
Definition flaky : Env :=
  Fixtures.env
    {["codeGeneration" := Fixtures.stubAgent Fixtures.okResult;
      "codeReview" := throwingAgent]}
    WorkflowManager.placeholderApproval.

(** A user definition under the id of a built-in workflow, without steps. *)
Definition override : WorkflowManager.Workflow := {|
  WorkflowManager.wf_id := "bug-fixing";
  WorkflowManager.wf_name := "";
  WorkflowManager.wf_description := "";
  WorkflowManager.steps := []
|}.

(** A disk whose workflows directory holds the one file [bug-fixing.json],
    which parses to [override]. *)
Definition oneFile : WorkflowLoading.Disk := {|
  WorkflowLoading.fs_readdir := λ _, Ret ["bug-fixing.json"];
  WorkflowLoading.fs_readFile := λ path, Ret path;
  WorkflowLoading.JSON_parse := λ _, Ret override
|}.

(** A workflows directory with a text file and three definition files, the
    second of which is not valid JSON. *)
Definition brokenFile : WorkflowLoading.Disk := {|
  WorkflowLoading.fs_readdir :=
    λ _, Ret ["notes.txt"; "bug-fixing.json"; "broken.json"; "review.json"];
  WorkflowLoading.fs_readFile := λ path, Ret path;
  WorkflowLoading.JSON_parse := λ content,
    if WorkflowLoading.endsWith content "broken.json"
    then Throw "Unexpected end of JSON input"
    else if WorkflowLoading.endsWith content "review.json" then Ret Fixtures.reviewOnly
    else Ret override
|}.

(** The workflows directory does not exist. *)
Definition noDirectory : WorkflowLoading.Disk := {|
  WorkflowLoading.fs_readdir := λ _, Throw "ENOENT: no such file or directory";
  WorkflowLoading.fs_readFile := λ _, Throw "ENOENT: no such file or directory";
  WorkflowLoading.JSON_parse := λ _, Throw "Unexpected end of JSON input"
|}.

(** No colours. *)
Definition plain : Callers.Chalk := {|
  Callers.blue := λ s, s;
  Callers.green := λ s, s;
  Callers.yellow := λ s, s;
  Callers.red := λ s, s
|}.

End Samples.

(** * Vocabulary of the further properties *)

(** The commands of the git helpers. *)
Definition statusCommand : string := "git status --porcelain".
Definition addCommand : string := "git add .".
Definition branchCommand : string := "git rev-parse --abbrev-ref HEAD".

(** The flag that [setupAgents] reads before it registers under [key];
    the LangGraph agent is registered without a test. *)
Definition enabledKey (config : AgentSetup.AgentsConfig) (key : string) : bool :=
  if String.eqb key "codeGeneration" then AgentSetup.codeGeneration_enabled config
  else if String.eqb key "codeReview" then AgentSetup.codeReview_enabled config
  else if String.eqb key "errorFixing" then AgentSetup.errorFixing_enabled config
  else if String.eqb key "refactoring" then AgentSetup.refactoring_enabled config
  else if String.eqb key "testing" then AgentSetup.testing_enabled config
  else String.eqb key "langgraph".

(** The agent that [setupAgents] constructs for [key]. *)
Definition classOf (new : AgentSetup.AgentClasses) (key : string) : option Agent :=
  if String.eqb key "codeGeneration" then Some (AgentSetup.CodeGenerationAgent new)
  else if String.eqb key "codeReview" then Some (AgentSetup.CodeReviewAgent new)
  else if String.eqb key "errorFixing" then Some (AgentSetup.ErrorFixingAgent new)
  else if String.eqb key "refactoring" then Some (AgentSetup.RefactoringAgent new)
  else if String.eqb key "testing" then Some (AgentSetup.TestingAgent new)
  else if String.eqb key "langgraph" then Some (AgentSetup.LangGraphAgent new)
  else None.

(** The events that the loop of [runWorkflow] can add to the trace. *)
Definition engineEvent (e : Event) : bool :=
  match e with
  | ConsoleLog _ | AgentCall _ _ | ApprovalAsked _ => true
  | _ => false
  end.

(** The state after the task of [s] returned [r] and the loop goes on. *)
Definition afterStep (s : WorkflowStep) (r : AgentResult) (st : LoopState)
    (tr : Trace) : LoopState := {|
  currentStepId := nextStep s (recordResult (context st) (step_id s) r);
  context := recordResult (context st) (step_id s) r;
  collected := collected st ++ [{| step := step_name s; result := r |}];
  trace := tr
|}.

(** The state in which the loop is left when the approval is denied. *)
Definition afterDenial (s : WorkflowStep) (r : AgentResult) (st : LoopState)
    (tr : Trace) : LoopState := {|
  currentStepId := currentStepId st;
  context := recordResult (context st) (step_id s) r;
  collected := collected st ++ [{| step := step_name s; result := r |}];
  trace := tr ++ [ConsoleLog "Workflow execution stopped by user."]
|}.

(** [x] is the entry of the result list for a step of the workflow whose
    task, with the run input merged in, is [t]. *)
Definition resultOfStep (workflow : Workflow) (input : option (gmap string JValue))
    (x : StepResult) (t : AgentTask) : Prop :=
  ∃ s, s ∈ steps workflow ∧ step x = step_name s ∧ t = stepTask s input.

(** The number of failed results in a result list. *)
Definition failures (res : list StepResult) : nat :=
  length (List.filter (λ x, negb (success (result x))) res).

(** Every entry of [context.results] is the result of a step of the workflow
    that carries the id of the entry and is in the result list. *)
Definition resultsFromSteps (workflow : Workflow) (st : LoopState) : Prop :=
  ∀ id r, results (context st) !! id = Some r →
    ∃ s, s ∈ steps workflow ∧ step_id s = id ∧
         {| step := step_name s; result := r |} ∈ collected st.

(** Two loop states with the same data; their traces may differ. *)
Definition sameData (st1 st2 : LoopState) : Prop :=
  currentStepId st1 = currentStepId st2 ∧ context st1 = context st2 ∧
  collected st1 = collected st2.

(** The same way out of the loop body, with the same data. *)
Definition sameIteration (i1 i2 : Iteration) : Prop :=
  match i1, i2 with
  | Continue a, Continue b | Break a, Break b => sameData a b
  | Raise e1 _, Raise e2 _ => e1 = e2
  | _, _ => False
  end.

(** The same way out of the loop. *)
Definition sameLoopResult (r1 r2 : option (Outcome LoopState * Trace)) : Prop :=
  match r1, r2 with
  | Some (Ret a, _), Some (Ret b, _) => sameData a b
  | Some (Throw e1, _), Some (Throw e2, _) => e1 = e2
  | None, None => True
  | _, _ => False
  end.

(** The entries of the result list for the steps [l] and the results [rs]. *)
Definition stepResults (l : list WorkflowStep) (rs : list AgentResult)
  : list StepResult :=
  zip_with (λ s r, {| step := step_name s; result := r |}) l rs.

(** The built-in definitions, in the order [loadBuiltInWorkflows] registers
    them. *)
Definition builtIns : list Workflow :=
  [codeGenerationWorkflow; bugFixingWorkflow; codeRefactoringWorkflow;
   langgraphWorkflow].

(** What reading and parsing one definition file gives. *)
Definition parsedFile (E : Env) (D : WorkflowLoading.Disk) (file : string)
  : Outcome Workflow :=
  match WorkflowLoading.fs_readFile D (path_join E [workflowsDir E; file]) with
  | Throw e => Throw e
  | Ret content => WorkflowLoading.JSON_parse D content
  end.

(** The file is skipped, or it is read and parsed without an exception. *)
Definition loadable (E : Env) (D : WorkflowLoading.Disk) (file : string) : Prop :=
  WorkflowLoading.endsWith file ".json" = true → is_throw (parsedFile E D file) = false.

(** The workflows of the [.json] files of a listing, in its order. *)
Definition definitions (E : Env) (D : WorkflowLoading.Disk) (files : list string)
  : list Workflow :=
  omap (λ file,
          if WorkflowLoading.endsWith file ".json" then
            match parsedFile E D file with Ret w => Some w | Throw _ => None end
          else None) files.

(** Registering a list of workflows, the first one first. *)
Definition registerAll (ws : list Workflow) (workflows : Store) : Store :=
  foldl (λ store w, registerWorkflow w store) workflows ws.


(** The property names that every object inherits from [Object.prototype]:
    [workflows[id]] finds a value under them in a record that has no such
    entry of its own. The lookups of the embedding are exact for all other
    ids. *)
Definition objectPrototypeNames : list string :=
  ["constructor"; "__defineGetter__"; "__defineSetter__"; "hasOwnProperty";
   "__lookupGetter__"; "__lookupSetter__"; "isPrototypeOf";
   "propertyIsEnumerable"; "toString"; "valueOf"; "__proto__"; "toLocaleString"].

Definition inheritedName (id : string) : bool :=
  bool_decide (id ∈ objectPrototypeNames).

(** The console line that opens the pass over a step. *)
Definition startLine (s : WorkflowStep) : Event :=
  ConsoleLog ("Executing step: " +:+ step_name s).

(** [s] begins with [p]. *)
Fixpoint startsWith (p s : string) : bool :=
  match p, s with
  | EmptyString, _ => true
  | String a p', String b s' => Ascii.eqb a b && startsWith p' s'
  | String _ _, EmptyString => false
  end.

Definition isStartLine (e : Event) : bool :=
  match e with
  | ConsoleLog msg => startsWith "Executing step: " msg
  | _ => false
  end.


(** * Facts about the loop *)

Section Loop.
Context (E : Env) (workflow : Workflow) (input : option (gmap string JValue))
  (o : WorkflowOptions).

Lemma whileLoop_done fuel st :
  loopGuard (currentStepId st) = false →
  whileLoop E workflow input o fuel st = Some (Ret st, trace st).
Proof.
  unfold loopGuard. destruct fuel; simpl; destruct (currentStepId st) as [cur|];
    try done; by destruct (emptyStr cur).
Qed.

Lemma whileLoop_pass fuel st cur :
  currentStepId st = Some cur → emptyStr cur = false →
  whileLoop E workflow input o (S fuel) st =
    match loopBody E workflow input o cur st with
    | Continue st' => whileLoop E workflow input o fuel st'
    | Break st' => Some (Ret st', trace st')
    | Raise e tr => Some (Throw e, tr)
    end.
Proof. intros Hcur Hne. simpl. by rewrite Hcur, Hne. Qed.

(** More fuel does not change a result. *)
Lemma whileLoop_mono fuel k st r :
  whileLoop E workflow input o fuel st = Some r →
  whileLoop E workflow input o (fuel + k) st = Some r.
Proof.
  revert st. induction fuel as [|fuel IH]; intros st.
  - simpl. destruct (currentStepId st) as [cur|] eqn:Hcur.
    + destruct (emptyStr cur) eqn:Hne; [|done].
      intros <-. rewrite whileLoop_done; [done|]. by rewrite Hcur; simpl; rewrite Hne.
    + intros <-. rewrite whileLoop_done; [done|]. by rewrite Hcur.
  - simpl. destruct (currentStepId st) as [cur|]; [|done].
    destruct (emptyStr cur); [done|].
    destruct (loopBody E workflow input o cur st); try done. apply IH.
Qed.

Lemma whileLoop_passes n fuel st st' :
  passes E workflow input o n st st' →
  whileLoop E workflow input o (n + fuel) st = whileLoop E workflow input o fuel st'.
Proof.
  induction 1 as [|n st cur st' st'' Hcur Hne Hbody _ IH]; [done|].
  change (S n + fuel) with (S (n + fuel)).
  by rewrite (whileLoop_pass _ _ _ Hcur Hne), Hbody.
Qed.

(** What a pass that stays in the loop did: it found a step, and either
    skipped it or recorded its result. *)
Lemma loopBody_Continue cur st st' :
  loopBody E workflow input o cur st = Continue st' →
  ∃ s, findStep workflow cur = Some s ∧
    ((skipped s (context st) = true ∧ context st' = context st ∧
      collected st' = collected st ∧
      currentStepId st' = nextStep s (context st)) ∨
     (skipped s (context st) = false ∧ ∃ r,
      context st' = recordResult (context st) (step_id s) r ∧
      collected st' = collected st ++ [{| step := step_name s; result := r |}] ∧
      currentStepId st' = nextStep s (context st'))).
Proof.
  unfold loopBody. destruct (findStep workflow cur) as [s|]; [|done].
  intros H. exists s. split; [done|].
  destruct (skipped s (context st)).
  - left. by inversion H.
  - right. split; [done|].
    destruct (AgentManager.executeTask _ _ _ _) as [[r|e] tr2]; [|done].
    exists r. destruct (negb (success r) && requireApproval o).
    + unfold askForApproval in H. destruct (userApproves E tr2 _); [|done].
      by inversion H.
    + by inversion H.
Qed.

(** Results already collected are never dropped or reordered. *)
Lemma passes_collected n st st' :
  passes E workflow input o n st st' → collected st `prefix_of` collected st'.
Proof.
  induction 1 as [|n st cur st' st'' _ _ Hbody _ IH]; [done|].
  etrans; [|exact IH].
  apply loopBody_Continue in Hbody as (s & _ & [(_ & _ & -> & _)|(_ & r & _ & -> & _)]).
  - done.
  - by apply prefix_app_r.
Qed.

End Loop.

(** [findStep] returns a step of the workflow that carries the id. *)
Lemma findStep_Some workflow cur s :
  findStep workflow cur = Some s → s ∈ steps workflow ∧ step_id s = cur.
Proof.
  unfold findStep. intros H. apply find_some in H as [Hin Heq].
  split; [by apply list_elem_of_In|]. by apply String.eqb_eq.
Qed.

(** [runWorkflow] once the workflow is found, the code base analyzed and the
    first step read. *)
Lemma runWorkflow_started E workflows workflowId input options fuel tr
    workflow cb first rest :
  workflows !! workflowId = Some workflow →
  analyzeCodebase E (codebaseDir (setDefaultOptions E workflow options)) = Ret cb →
  steps workflow = first :: rest →
  let o := setDefaultOptions E workflow options in
  let tr1 := tr ++ [ConsoleLog ("Running workflow: " +:+ wf_name workflow)] in
  runWorkflow E workflows workflowId input options fuel tr =
    match whileLoop E workflow input o fuel (initialState first cb o input tr1) with
    | None => None
    | Some (Throw e, tr2) =>
        Some (Throw e,
              tr2 ++ [ConsoleError ("Error running workflow " +:+ workflowId +:+ ":") e])
    | Some (Ret st, tr2) =>
        Some (Ret (collected st),
              commitChanges E o
                (tr2 ++ [ConsoleLog ("Workflow " +:+ wf_name workflow +:+ " completed.")]))
    end.
Proof.
  intros Hw Hcb Hsteps. unfold runWorkflow, getWorkflow.
  rewrite Hw. cbv beta iota zeta. rewrite Hcb, Hsteps. done.
Qed.

(** * Dispatch to a task type without a worker *)

Lemma executeTask_noWorker E task context tr :
  noWorker E (task_type task) →
  AgentManager.executeTask E task context tr
  = (Throw (dispatchError (task_type task)), tr).
Proof.
  unfold noWorker, dispatchError, AgentManager.executeTask, AgentManager.getAgent.
  destruct (AgentManager.agentKey (task_type task)) as [key|]; [|done].
  by intros ->.
Qed.

(** C1, as the code has it: dispatching a task whose type is unknown or whose
    agent is not registered throws ("Unknown task type: ..." or
    "Agent ... not found") without calling any agent; a run that reaches
    such a step (not skipped by its condition) rethrows that error after
    logging it, and returns no result list. *)
Theorem C1_dispatch_without_worker_throws (E : Env) (task : AgentTask) :
  noWorker E (task_type task) →
  (∀ context tr,
     AgentManager.executeTask E task context tr
     = (Throw (dispatchError (task_type task)), tr)) ∧
  (∀ workflows workflowId input options tr workflow cb first rest n st cur s fuel,
     let o := setDefaultOptions E workflow options in
     workflows !! workflowId = Some workflow →
     analyzeCodebase E (codebaseDir o) = Ret cb →
     steps workflow = first :: rest →
     passes E workflow input o n
       (initialState first cb o input
          (tr ++ [ConsoleLog ("Running workflow: " +:+ wf_name workflow)])) st →
     currentStepId st = Some cur → emptyStr cur = false →
     findStep workflow cur = Some s →
     skipped s (context st) = false →
     stepTask s input = task →
     runWorkflow E workflows workflowId input options (n + S fuel) tr
     = Some (Throw (dispatchError (task_type task)),
             trace st ++
               [ConsoleLog ("Executing step: " +:+ step_name s);
                ConsoleError ("Error running workflow " +:+ workflowId +:+ ":")
                  (dispatchError (task_type task))])).
Proof.
  intros Hno. split; [intros; by apply executeTask_noWorker|].
  intros workflows workflowId input options tr workflow cb first rest n st cur s
    fuel o Hw Hcb Hsteps Hpasses Hcur Hne Hfind Hskip Htask.
  rewrite (runWorkflow_started _ _ _ _ _ _ _ _ _ _ _ Hw Hcb Hsteps).
  cbv zeta. fold o. rewrite (whileLoop_passes _ _ _ _ _ _ _ _ Hpasses).
  rewrite (whileLoop_pass _ _ _ _ _ _ _ Hcur Hne).
  unfold loopBody. rewrite Hfind, Hskip, Htask.
  rewrite executeTask_noWorker by done.
  by rewrite <- app_assoc.
Qed.

(** C1 at a concrete input: no agent is registered and a code-review task is
    dispatched. *)
Lemma C1_dispatch_without_worker_throws_witness :
  noWorker Fixtures.noAgents "code-review" ∧
  AgentManager.executeTask Fixtures.noAgents (Fixtures.task "analyze" "code-review")
    (initialContext Fixtures.emptyCodebase "/work" None) []
  = (Throw "Agent codeReview not found", []).
Proof.
  split; [reflexivity|].
  exact (proj1 (C1_dispatch_without_worker_throws Fixtures.noAgents
                  (Fixtures.task "analyze" "code-review") eq_refl) _ _).
Defined.

(** C1 as stated fails: with no agent registered, dispatching a code-review
    task (or a task of an unknown type) throws instead of returning a failed
    result, and the run of a workflow with that step ends with the error
    rethrown, not with a failed step in a result list. *)
Lemma C1_counterexample :
  (AgentManager.executeTask Fixtures.noAgents (Fixtures.task "analyze" "code-review")
     (initialContext Fixtures.emptyCodebase "/work" None) []).1
  = Throw "Agent codeReview not found" ∧
  (AgentManager.executeTask Fixtures.noAgents (Fixtures.task "ship" "deploy")
     (initialContext Fixtures.emptyCodebase "/work" None) []).1
  = Throw "Unknown task type: deploy" ∧
  ¬ (∃ r tr', AgentManager.executeTask Fixtures.noAgents (Fixtures.task "analyze" "code-review")
                (initialContext Fixtures.emptyCodebase "/work" None) [] = (Ret r, tr') ∧
              success r = false ∧ is_Some (error r)) ∧
  runWorkflow Fixtures.noAgents {["review" := Fixtures.reviewOnly]} "review" None None 5 []
  = Some (Throw "Agent codeReview not found",
          [ConsoleLog "Running workflow: review";
           ConsoleLog "Executing step: analyze";
           ConsoleError "Error running workflow review:" "Agent codeReview not found"]).
Proof.
  split; [reflexivity|]. split; [reflexivity|]. split; [|reflexivity].
  intros (r & tr' & H & _). vm_compute in H. discriminate H.
Qed.

(** * The definition store *)

Lemma emptyStr_true s : emptyStr s = true ↔ s = "".
Proof. unfold emptyStr. apply String.eqb_eq. Qed.

Lemma invalidDefinition_spec workflow :
  invalidDefinition workflow = true ↔
  wf_id workflow = "" ∨ wf_name workflow = "" ∨ wf_description workflow = "" ∨
  steps workflow = [].
Proof.
  unfold invalidDefinition.
  rewrite !orb_true_iff, !emptyStr_true, Nat.eqb_eq, length_zero_iff_nil.
  tauto.
Qed.

Lemma registerWorkflow_lookup workflow workflows id :
  registerWorkflow workflow workflows !! id
  = if decide (wf_id workflow = id) then Some workflow else workflows !! id.
Proof. unfold registerWorkflow. apply lookup_insert. Qed.

(** The store after [createWorkflow], whatever the file system did. *)
Lemma createWorkflow_store E stringify workflow workflows tr :
  (createWorkflow E stringify workflow workflows tr).1.2
  = if invalidDefinition workflow then workflows
    else registerWorkflow workflow workflows.
Proof.
  unfold createWorkflow. destruct (invalidDefinition workflow); [done|].
  destruct (fs_mkdir E _); [|done]. by destruct (fs_writeFile E _ _).
Qed.

(** C4, as the code has it: the validation is the one of [createWorkflow],
    which throws "Invalid workflow definition" and leaves the store
    untouched when the id, the name or the description is empty or there is
    no step, and otherwise inserts the workflow under its id, replacing an
    earlier one; [registerWorkflow] itself checks nothing and always
    inserts under the id, replacing an earlier entry. *)
Theorem C4_validation_is_in_createWorkflow (E : Env) (stringify : Workflow → string)
    (workflow : Workflow) (workflows : Store) (tr : Trace) :
  (invalidDefinition workflow = true ↔
     wf_id workflow = "" ∨ wf_name workflow = "" ∨ wf_description workflow = "" ∨
     steps workflow = []) ∧
  (invalidDefinition workflow = true →
     createWorkflow E stringify workflow workflows tr
     = (Throw "Invalid workflow definition", workflows,
        tr ++ [ConsoleError "Error creating workflow:" "Invalid workflow definition"])) ∧
  (invalidDefinition workflow = false →
     (createWorkflow E stringify workflow workflows tr).1.2
     = <[wf_id workflow := workflow]> workflows) ∧
  registerWorkflow workflow workflows = <[wf_id workflow := workflow]> workflows ∧
  registerWorkflow workflow workflows !! wf_id workflow = Some workflow ∧
  (∀ id, id ≠ wf_id workflow →
     registerWorkflow workflow workflows !! id = workflows !! id).
Proof.
  split; [apply invalidDefinition_spec|].
  split; [intros Hbad; unfold createWorkflow; by rewrite Hbad|].
  split; [intros Hok; by rewrite createWorkflow_store, Hok|].
  split; [done|].
  split; [rewrite registerWorkflow_lookup; by rewrite decide_True|].
  intros id Hne. rewrite registerWorkflow_lookup. by rewrite decide_False.
Qed.

(** C4 at a concrete input: [createWorkflow] on a definition without name,
    description and steps, on an empty store. *)
Lemma C4_validation_is_in_createWorkflow_witness :
  invalidDefinition Fixtures.blank = true ∧
  createWorkflow Fixtures.noAgents (λ _, "{}") Fixtures.blank ∅ []
  = (Throw "Invalid workflow definition", ∅,
     [ConsoleError "Error creating workflow:" "Invalid workflow definition"]).
Proof.
  split; [reflexivity|].
  exact (proj1 (proj2
    (C4_validation_is_in_createWorkflow Fixtures.noAgents (λ _, "{}") Fixtures.blank ∅ [])) eq_refl).
Defined.

(** C4 as stated fails: [registerWorkflow] accepts a definition with an empty
    name, an empty description and no steps; it is registered and
    [getWorkflow] returns it. *)
Lemma C4_counterexample :
  invalidDefinition Fixtures.blank = true ∧
  registerWorkflow Fixtures.blank ∅ !! "blank" = Some Fixtures.blank ∧
  getWorkflow (registerWorkflow Fixtures.blank ∅) "blank" = Ret Fixtures.blank.
Proof. repeat split; reflexivity. Qed.

(** C9: after [createWorkflow] on a valid definition, [getWorkflow] on its id
    returns a workflow with the same id, name, description and number of
    steps (the very workflow that was passed in); this holds whether or not
    writing the definition file succeeded, and [createWorkflow] itself
    returns that workflow when the file system calls succeed. *)
Theorem C9_createWorkflow_getWorkflow (E : Env) (stringify : Workflow → string)
    (workflow : Workflow) (workflows : Store) (tr : Trace) :
  invalidDefinition workflow = false →
  let created := createWorkflow E stringify workflow workflows tr in
  (∃ got, getWorkflow created.1.2 (wf_id workflow) = Ret got ∧
     got = workflow ∧
     wf_id got = wf_id workflow ∧ wf_name got = wf_name workflow ∧
     wf_description got = wf_description workflow ∧
     length (steps got) = length (steps workflow)) ∧
  (fs_mkdir E (workflowsDir E) = Ret () →
   fs_writeFile E (workflowFile E workflow) (stringify workflow) = Ret () →
   created.1.1 = Ret workflow).
Proof.
  intros Hok created. split.
  - exists workflow. subst created. rewrite createWorkflow_store, Hok.
    unfold getWorkflow. rewrite registerWorkflow_lookup, decide_True by done.
    done.
  - intros Hmk Hwr. subst created. unfold createWorkflow.
    by rewrite Hok, Hmk, Hwr.
Qed.

(** C9 at a concrete input: a one-step workflow created on an empty store. *)
Lemma C9_createWorkflow_getWorkflow_witness :
  invalidDefinition Fixtures.reviewOnly = false ∧
  ∃ got,
    getWorkflow (createWorkflow Fixtures.noAgents (λ _, "{}") Fixtures.reviewOnly ∅ []).1.2 "review"
    = Ret got ∧ got = Fixtures.reviewOnly.
Proof.
  split; [reflexivity|].
  destruct (proj1 (C9_createWorkflow_getWorkflow Fixtures.noAgents (λ _, "{}")
                     Fixtures.reviewOnly ∅ [] eq_refl)) as (got & Hget & Heq & _).
  exists got. split; [exact Hget | exact Heq].
Defined.

(** * Counting events *)

Lemma count_events_app p tr1 tr2 :
  count_events p (tr1 ++ tr2) = count_events p tr1 + count_events p tr2.
Proof. unfold count_events. by rewrite List.filter_app, length_app. Qed.

(** Counts over traces built by appending explicit events. *)
Ltac count_trace :=
  rewrite ?count_events_app; unfold count_events; simpl; lia.

Lemma dispatched_app tr1 tr2 :
  dispatched (tr1 ++ tr2) = dispatched tr1 ++ dispatched tr2.
Proof. unfold dispatched. apply omap_app. Qed.

Lemma count_AgentCall_dispatched tr :
  count_events is_AgentCall tr = length (dispatched tr).
Proof.
  unfold count_events, dispatched.
  induction tr as [|e tr IH]; [done|].
  destruct e; simpl; solve [exact IH | exact (f_equal S IH)].
Qed.

(** Dispatching adds at most the call of the agent to the trace. *)
Lemma executeTask_trace E task context tr :
  (AgentManager.executeTask E task context tr).2 = tr ∨
  ∃ key, (AgentManager.executeTask E task context tr).2 = tr ++ [AgentCall key task].
Proof.
  unfold AgentManager.executeTask.
  destruct (AgentManager.agentKey _) as [key|]; [|by left].
  destruct (AgentManager.getAgent E key); [right; by exists key | by left].
Qed.

(** Without [requireApproval], a pass through the body asks nothing. *)
Lemma loopBody_no_approval E workflow input o cur st :
  requireApproval o = false →
  count_events is_ApprovalAsked (iterationTrace (loopBody E workflow input o cur st))
  = count_events is_ApprovalAsked (trace st).
Proof.
  intros Hno. unfold loopBody.
  destruct (findStep workflow cur) as [s|]; [|done].
  destruct (skipped s (context st)).
  { simpl. count_trace. }
  pose proof (executeTask_trace E (stepTask s input) (context st)
    (trace st ++ [ConsoleLog ("Executing step: " +:+ step_name s)])) as Htr.
  destruct (AgentManager.executeTask _ _ _ _) as [out tr2]. simpl in Htr.
  assert (count_events is_ApprovalAsked tr2 = count_events is_ApprovalAsked (trace st))
    as Hcount.
  { destruct Htr as [->|[key ->]]; count_trace. }
  destruct out as [r|e]; simpl; [|done].
  by rewrite Hno, andb_false_r.
Qed.

Lemma whileLoop_no_approval E workflow input o fuel st out tr' :
  requireApproval o = false →
  whileLoop E workflow input o fuel st = Some (out, tr') →
  count_events is_ApprovalAsked tr' = count_events is_ApprovalAsked (trace st).
Proof.
  intros Hno. revert st. induction fuel as [|fuel IH]; intros st; simpl.
  - destruct (currentStepId st) as [cur|]; [destruct (emptyStr cur)|]; naive_solver.
  - destruct (currentStepId st) as [cur|]; [|naive_solver].
    destruct (emptyStr cur); [naive_solver|].
    pose proof (loopBody_no_approval E workflow input o cur st Hno) as Hbody.
    destruct (loopBody E workflow input o cur st) as [st'|st'|e tr1]; simpl in Hbody.
    + intros H. apply IH in H. congruence.
    + intros [= <- <-]. done.
    + intros [= <- <-]. done.
Qed.

Lemma commitChanges_no_approval E o tr :
  count_events is_ApprovalAsked (commitChanges E o tr)
  = count_events is_ApprovalAsked tr.
Proof.
  unfold commitChanges. destruct (autoCommit o); [|done].
  destruct (gitCommit E _); [destruct (gitPush E)|]; count_trace.
Qed.

(** * Skipped steps *)



(** * Failed steps without the approval gate *)

(** A pass that finds its step opens with the line "Executing step: ...". *)
Lemma loopBody_starts_step E workflow input o cur st s :
  findStep workflow cur = Some s →
  ∃ ext,
    iterationTrace (loopBody E workflow input o cur st)
    = trace st ++ ConsoleLog ("Executing step: " +:+ step_name s) :: ext.
Proof.
  intros Hfind. unfold loopBody. rewrite Hfind.
  destruct (skipped s (context st)).
  { eexists. simpl. by rewrite <- app_assoc. }
  pose proof (executeTask_trace E (stepTask s input) (context st)
    (trace st ++ [ConsoleLog ("Executing step: " +:+ step_name s)])) as Htr.
  destruct (AgentManager.executeTask _ _ _ _) as [[r|e] tr2]; simpl in Htr.
  - destruct (negb (success r) && requireApproval o); unfold askForApproval;
      [destruct (userApproves E tr2 _)|]; simpl;
      destruct Htr as [->|[key ->]]; eexists; by rewrite <- ?app_assoc.
  - simpl. destruct Htr as [->|[key ->]]; eexists; by rewrite <- ?app_assoc.
Qed.

(** C6: with [requireApproval] false, a pass in which the agent returns a
    result with [success = false] records the result and goes on, without
    asking for approval, with the id that [next] gives: the static id, or
    the value of the function on the context that holds the failed result.
    When that id is the id of a step, the next pass is the pass over that
    step. Over a whole run the approval prompt is never called. *)
Theorem C6_failure_without_requireApproval (E : Env) :
  (∀ workflow input o st cur s r tr2 fuel,
     requireApproval o = false →
     currentStepId st = Some cur → emptyStr cur = false →
     findStep workflow cur = Some s →
     skipped s (context st) = false →
     AgentManager.executeTask E (stepTask s input) (context st)
       (trace st ++ [ConsoleLog ("Executing step: " +:+ step_name s)]) = (Ret r, tr2) →
     success r = false →
     let context' := recordResult (context st) (step_id s) r in
     let resolved :=
       match next s with
       | Some (Computed f) => Some (f context')
       | Some (Static stepId) => Some stepId
       | None => None
       end in
     let st' := {|
       currentStepId := resolved;
       context := context';
       collected := collected st ++ [{| step := step_name s; result := r |}];
       trace := tr2
     |} in
     loopBody E workflow input o cur st = Continue st' ∧
     count_events is_ApprovalAsked tr2 = count_events is_ApprovalAsked (trace st) ∧
     whileLoop E workflow input o (S fuel) st = whileLoop E workflow input o fuel st' ∧
     (∀ nextId s',
        resolved = Some nextId → emptyStr nextId = false →
        findStep workflow nextId = Some s' →
        whileLoop E workflow input o (S (S fuel)) st
        = match loopBody E workflow input o nextId st' with
          | Continue st'' => whileLoop E workflow input o fuel st''
          | Break st'' => Some (Ret st'', trace st'')
          | Raise e tr => Some (Throw e, tr)
          end ∧
        ∃ ext,
          iterationTrace (loopBody E workflow input o nextId st')
          = tr2 ++ ConsoleLog ("Executing step: " +:+ step_name s') :: ext)) ∧
  (∀ workflows workflowId input options fuel tr out tr',
     (∀ w, workflows !! workflowId = Some w →
           requireApproval (setDefaultOptions E w options) = false) →
     runWorkflow E workflows workflowId input options fuel tr = Some (out, tr') →
     count_events is_ApprovalAsked tr' = count_events is_ApprovalAsked tr).
Proof.
  split.
  - intros workflow input o st cur s r tr2 fuel Hno Hcur Hne Hfind Hskip Hexec Hfail
      context' resolved st'.
    assert (loopBody E workflow input o cur st = Continue st') as Hbody.
    { unfold loopBody. rewrite Hfind, Hskip, Hexec, Hno, andb_false_r.
      subst st' resolved. unfold nextStep. by destruct (next s) as [[]|]. }
    assert (whileLoop E workflow input o (S fuel) st
            = whileLoop E workflow input o fuel st') as Hloop
      by (intros; by rewrite (whileLoop_pass _ _ _ _ _ _ _ Hcur Hne), Hbody).
    split; [done|]. split; [|split; [done|]].
    + pose proof (loopBody_no_approval E workflow input o cur st Hno) as H.
      by rewrite Hbody in H.
    + intros nextId s' Hnext Hne' Hfind'. split.
      * rewrite (whileLoop_pass _ _ _ _ _ _ _ Hcur Hne), Hbody.
        by apply whileLoop_pass.
      * apply (loopBody_starts_step E workflow input o nextId st' s' Hfind').
  - intros workflows workflowId input options fuel tr out tr' Hno.
    unfold runWorkflow, getWorkflow.
    destruct (workflows !! workflowId) as [w|] eqn:Hw.
    2:{ intros [= <- <-]. count_trace. }
    specialize (Hno w eq_refl). cbv zeta.
    destruct (analyzeCodebase E _) as [cb|e].
    2:{ intros [= <- <-]. count_trace. }
    destruct (steps w) as [|first rest].
    { intros [= <- <-]. count_trace. }
    destruct (whileLoop E w input _ fuel _) as [[[st|e] tr2]|] eqn:Hloop; [| |done].
    + intros [= <- <-]. apply whileLoop_no_approval in Hloop; [|done].
      rewrite commitChanges_no_approval, count_events_app, Hloop. simpl.
      count_trace.
    + intros [= <- <-]. apply whileLoop_no_approval in Hloop; [|done].
      rewrite count_events_app, Hloop. simpl. count_trace.
Qed.

(** C6 at a concrete input: the built-in bug fixing workflow run without
    [requireApproval]; its first step fails, the pass resolves [next] to
    "fix-bug", the next pass is the one over the step "Fix Bug", and the
    run ends with three results without a single approval prompt (which
    would have been answered with no). *)
Lemma C6_failure_without_requireApproval_witness :
  let o := setDefaultOptions Samples.reviewFails bugFixingWorkflow
             (Fixtures.runOptions false false) in
  let analyze := builtInStep "analyze-bug" "Analyze Bug"
                   "Analyze the bug to understand its cause" "code-review"
                   "Analyze the bug to understand its cause" (Some "fix-bug") in
  let st0 := initialState analyze Fixtures.emptyCodebase o None
               [ConsoleLog "Running workflow: Bug Fixing"] in
  let called := [ConsoleLog "Running workflow: Bug Fixing";
                 ConsoleLog "Executing step: Analyze Bug";
                 AgentCall "codeReview" (step_task analyze)] in
  let st1 := {|
    currentStepId := Some "fix-bug";
    context := recordResult (context st0) "analyze-bug" Fixtures.failedResult;
    collected := [{| step := "Analyze Bug"; result := Fixtures.failedResult |}];
    trace := called
  |} in
  loopBody Samples.reviewFails bugFixingWorkflow None o "analyze-bug" st0
  = Continue st1 ∧
  (∃ ext,
     iterationTrace (loopBody Samples.reviewFails bugFixingWorkflow None o "fix-bug" st1)
     = called ++ ConsoleLog "Executing step: Fix Bug" :: ext) ∧
  ∃ tr',
    runWorkflow Samples.reviewFails (loadBuiltInWorkflows ∅) "bug-fixing" None
      (Fixtures.runOptions false false) 5 []
    = Some (Ret [{| step := "Analyze Bug"; result := Fixtures.failedResult |};
                 {| step := "Fix Bug"; result := Fixtures.okResult |};
                 {| step := "Test Fix"; result := Fixtures.okResult |}], tr') ∧
    count_events is_ApprovalAsked tr' = 0.
Proof.
  intros o analyze st0 called st1.
  destruct (C6_failure_without_requireApproval Samples.reviewFails) as [Hpass Hrun].
  assert (AgentManager.executeTask Samples.reviewFails (stepTask analyze None)
            (context st0)
            (trace st0 ++ [ConsoleLog ("Executing step: " +:+ step_name analyze)])
          = (Ret Fixtures.failedResult, called)) as Hexec by (vm_compute; reflexivity).
  destruct (Hpass bugFixingWorkflow None o st0 "analyze-bug" analyze
              Fixtures.failedResult called 0
              eq_refl eq_refl eq_refl eq_refl eq_refl Hexec eq_refl)
    as (Hbody & _ & _ & Hnext).
  split; [exact Hbody|]. split.
  - exact (proj2 (Hnext "fix-bug"
             (builtInStep "fix-bug" "Fix Bug" "Fix the bug in the code" "error-fixing"
                "Fix the bug in the code" (Some "test-fix"))
             eq_refl eq_refl eq_refl)).
  - eexists.
    assert (runWorkflow Samples.reviewFails (loadBuiltInWorkflows ∅) "bug-fixing" None
              (Fixtures.runOptions false false) 5 [] = Some (Ret _, _)) as Hreturned
      by (vm_compute; reflexivity).
    split; [exact Hreturned|].
    refine (Hrun _ _ _ _ _ _ _ _ _ Hreturned).
    intros w Hw. vm_compute in Hw. injection Hw as <-. reflexivity.
Defined.

(** * A next id that names no step *)

(** C7: when the id resolved from [next] matches no step of the workflow, the
    loop is left at once; the run logs its completion, performs the commit
    step if enabled, and returns (does not throw) the results collected so
    far, in order, every result recorded in an earlier pass included. *)
Theorem C7_unknown_next_id_stops_run (E : Env) (workflows : Store)
    (workflowId : string) (input : option (gmap string JValue))
    (options : option RunOptions) (tr : Trace) (workflow : Workflow)
    (cb : Codebase) (first : WorkflowStep) (rest : list WorkflowStep)
    (n : nat) (st : LoopState) (cur : string) (fuel : nat) :
  let o := setDefaultOptions E workflow options in
  let st0 := initialState first cb o input
               (tr ++ [ConsoleLog ("Running workflow: " +:+ wf_name workflow)]) in
  workflows !! workflowId = Some workflow →
  analyzeCodebase E (codebaseDir o) = Ret cb →
  steps workflow = first :: rest →
  passes E workflow input o n st0 st →
  currentStepId st = Some cur →
  findStep workflow cur = None →
  runWorkflow E workflows workflowId input options (n + S fuel) tr
  = Some (Ret (collected st),
          commitChanges E o
            (trace st ++ [ConsoleLog ("Workflow " +:+ wf_name workflow +:+ " completed.")])) ∧
  (∀ m mid, passes E workflow input o m mid st →
            collected mid `prefix_of` collected st).
Proof.
  intros o st0 Hw Hcb Hsteps Hpasses Hcur Hfind. split.
  - rewrite (runWorkflow_started _ _ _ _ _ _ _ _ _ _ _ Hw Hcb Hsteps).
    cbv zeta. fold o. fold st0. rewrite (whileLoop_passes _ _ _ _ _ _ _ _ Hpasses).
    destruct (emptyStr cur) eqn:Hne.
    + rewrite whileLoop_done; [done|]. by rewrite Hcur; simpl; rewrite Hne.
    + rewrite (whileLoop_pass _ _ _ _ _ _ _ Hcur Hne).
      unfold loopBody. by rewrite Hfind.
  - intros m mid Hmid. by eapply passes_collected.
Qed.

(** C7 at a concrete input: the only step names a step "publish" that the
    workflow does not have. *)
Lemma C7_unknown_next_id_stops_run_witness :
  runWorkflow Fixtures.allOk {["dangling" := Fixtures.dangling]} "dangling" None None 2 []
  = Some (Ret [{| step := "analyze"; result := Fixtures.okResult |}],
          trace Fixtures.danglingState ++ [ConsoleLog "Workflow dangling completed."]).
Proof.
  refine (proj1 (C7_unknown_next_id_stops_run Fixtures.allOk {["dangling" := Fixtures.dangling]}
    "dangling" None None [] Fixtures.dangling Fixtures.emptyCodebase
    (Fixtures.mkStep "analyze" "code-review" (Some (Static "publish"))) []
    1 Fixtures.danglingState "publish" 0 eq_refl eq_refl eq_refl _ eq_refl eq_refl)).
  eapply passes_S with (cur := "analyze"); [reflexivity|reflexivity| |apply passes_O].
  vm_compute; reflexivity.
Defined.

(** * The approval gate *)

(** C2: in a run with [requireApproval] true, when the agent of the current
    step returns a result with [success = false], the approval prompt is
    called exactly once in that pass, after the agent call and before any
    other agent call. If the answer is false the loop is left and the run
    returns the results collected before followed by the failed one; if it
    is true the loop goes on with the id resolved from [next]. *)
Theorem C2_approval_gate_on_failed_step (E : Env) (workflows : Store)
    (workflowId : string) (input : option (gmap string JValue))
    (options : option RunOptions) (tr : Trace) (workflow : Workflow)
    (cb : Codebase) (first : WorkflowStep) (rest : list WorkflowStep)
    (n : nat) (st : LoopState) (cur : string) (s : WorkflowStep)
    (key : string) (agent : Agent) (r : AgentResult) (fuel : nat) :
  let o := setDefaultOptions E workflow options in
  let st0 := initialState first cb o input
               (tr ++ [ConsoleLog ("Running workflow: " +:+ wf_name workflow)]) in
  let called := trace st ++ [ConsoleLog ("Executing step: " +:+ step_name s);
                             AgentCall key (stepTask s input)] in
  let context' := recordResult (context st) (step_id s) r in
  let collected' := collected st ++ [{| step := step_name s; result := r |}] in
  requireApproval o = true →
  workflows !! workflowId = Some workflow →
  analyzeCodebase E (codebaseDir o) = Ret cb →
  steps workflow = first :: rest →
  passes E workflow input o n st0 st →
  currentStepId st = Some cur → emptyStr cur = false →
  findStep workflow cur = Some s →
  skipped s (context st) = false →
  AgentManager.agentKey (task_type (step_task s)) = Some key →
  agents E !! key = Some agent →
  agent_executeTask agent (stepTask s input) (context st) = Ret r →
  success r = false →
  (∃ ext,
     iterationTrace (loopBody E workflow input o cur st) = called ++ ext ∧
     count_events is_ApprovalAsked ext = 1 ∧
     count_events is_AgentCall ext = 0) ∧
  (userApproves E called (approvalMessage s) = false →
     loopBody E workflow input o cur st
     = Break {|
         currentStepId := Some cur;
         context := context';
         collected := collected';
         trace := called ++ [ApprovalAsked (approvalMessage s);
                             ConsoleLog (approvalMessage s);
                             ConsoleLog "Workflow execution stopped by user."]
       |} ∧
     runWorkflow E workflows workflowId input options (n + S fuel) tr
     = Some (Ret collected',
             commitChanges E o
               (called ++ [ApprovalAsked (approvalMessage s);
                           ConsoleLog (approvalMessage s);
                           ConsoleLog "Workflow execution stopped by user.";
                           ConsoleLog ("Workflow " +:+ wf_name workflow +:+ " completed.")]))) ∧
  (userApproves E called (approvalMessage s) = true →
     let st' := {|
       currentStepId := nextStep s context';
       context := context';
       collected := collected';
       trace := called ++ [ApprovalAsked (approvalMessage s);
                           ConsoleLog (approvalMessage s)]
     |} in
     loopBody E workflow input o cur st = Continue st' ∧
     whileLoop E workflow input o (S fuel) st = whileLoop E workflow input o fuel st').
Proof.
  intros o st0 called context' collected' Hreq Hw Hcb Hsteps Hpasses Hcur Hne Hfind
    Hskip Hkey Hagent Hexec Hfail.
  assert (loopBody E workflow input o cur st =
          if userApproves E called (approvalMessage s)
          then Continue {|
                 currentStepId := nextStep s context';
                 context := context';
                 collected := collected';
                 trace := called ++ [ApprovalAsked (approvalMessage s);
                                     ConsoleLog (approvalMessage s)] |}
          else Break {|
                 currentStepId := Some cur;
                 context := context';
                 collected := collected';
                 trace := called ++ [ApprovalAsked (approvalMessage s);
                                     ConsoleLog (approvalMessage s);
                                     ConsoleLog "Workflow execution stopped by user."] |})
    as Hbody.
  { unfold loopBody, AgentManager.executeTask, AgentManager.getAgent, askForApproval.
    rewrite Hfind, Hskip.
    change (task_type (stepTask s input)) with (task_type (step_task s)).
    rewrite Hkey, Hagent, Hexec, Hfail, Hreq, Hcur. simpl.
    subst called. rewrite <- !app_assoc. simpl.
    unfold approvalMessage.
    by destruct (userApproves E _ _). }
  split; [|split].
  - rewrite Hbody. destruct (userApproves E called (approvalMessage s)); simpl.
    + eexists. split; [done|]. split; reflexivity.
    + eexists. split; [done|]. split; reflexivity.
  - intros Hdeny. rewrite Hdeny in Hbody. split; [done|].
    rewrite (runWorkflow_started _ _ _ _ _ _ _ _ _ _ _ Hw Hcb Hsteps).
    cbv zeta. fold o. fold st0. rewrite (whileLoop_passes _ _ _ _ _ _ _ _ Hpasses).
    rewrite (whileLoop_pass _ _ _ _ _ _ _ Hcur Hne), Hbody. simpl.
    by rewrite <- !app_assoc.
  - intros Hallow st'. rewrite Hallow in Hbody. split; [done|].
    by rewrite (whileLoop_pass _ _ _ _ _ _ _ Hcur Hne), Hbody.
Qed.

(** C2 at a concrete input: the only step fails, [requireApproval] is true,
    and the user answers no. *)
Lemma C2_approval_gate_on_failed_step_witness :
  runWorkflow Fixtures.denying {["review" := Fixtures.reviewOnly]} "review" None
    (Fixtures.runOptions false true) 1 []
  = Some (Ret [{| step := "analyze"; result := Fixtures.failedResult |}],
          [ConsoleLog "Running workflow: review";
           ConsoleLog "Executing step: analyze";
           AgentCall "codeReview" (Fixtures.task "analyze" "code-review");
           ApprovalAsked "Step analyze failed. Do you want to continue the workflow?";
           ConsoleLog "Step analyze failed. Do you want to continue the workflow?";
           ConsoleLog "Workflow execution stopped by user.";
           ConsoleLog "Workflow review completed."]).
Proof.
  refine (proj2 (proj1 (proj2 (C2_approval_gate_on_failed_step Fixtures.denying
    {["review" := Fixtures.reviewOnly]} "review" None (Fixtures.runOptions false true)
    [] Fixtures.reviewOnly Fixtures.emptyCodebase
    (Fixtures.mkStep "analyze" "code-review" None) [] 0 _ "analyze"
    (Fixtures.mkStep "analyze" "code-review" None) "codeReview"
    (Fixtures.stubAgent Fixtures.failedResult) Fixtures.failedResult 0
    eq_refl eq_refl eq_refl eq_refl (passes_O _ _ _ _ _)
    eq_refl eq_refl eq_refl eq_refl eq_refl eq_refl eq_refl eq_refl)) eq_refl)).
Defined.

(** * Linear workflows *)

(** With distinct ids, [find] returns the step itself. *)
Lemma findStep_unique workflow pre s tl :
  steps workflow = pre ++ s :: tl →
  NoDup (map step_id (steps workflow)) →
  findStep workflow (step_id s) = Some s.
Proof.
  unfold findStep. intros -> Hnd. induction pre as [|p pre IH]; simpl.
  - by rewrite String.eqb_refl.
  - simpl in Hnd. apply NoDup_cons in Hnd as [Hp Hnd].
    destruct (String.eqb (step_id p) (step_id s)) eqn:Heq; [|by apply IH].
    apply String.eqb_eq in Heq. exfalso. apply Hp. rewrite Heq.
    rewrite map_app, elem_of_app. right. apply elem_of_cons. by left.
Qed.

(** A pass over a step without condition whose agent succeeds. *)
Lemma loopBody_success E workflow input o cur st s :
  findStep workflow cur = Some s →
  condition s = None →
  alwaysSucceeds E s →
  ∃ key r,
    success r = true ∧
    loopBody E workflow input o cur st
    = Continue {|
        currentStepId := nextStep s (recordResult (context st) (step_id s) r);
        context := recordResult (context st) (step_id s) r;
        collected := collected st ++ [{| step := step_name s; result := r |}];
        trace := trace st ++ [ConsoleLog ("Executing step: " +:+ step_name s);
                              AgentCall key (stepTask s input)]
      |}.
Proof.
  intros Hfind Hcond (key & agent & Hkey & Hagent & Hok).
  destruct (Hok (stepTask s input) (context st)) as (r & Hexec & Hsucc).
  exists key, r. split; [done|].
  unfold loopBody, skipped, AgentManager.executeTask, AgentManager.getAgent.
  rewrite Hfind, Hcond.
  change (task_type (stepTask s input)) with (task_type (step_task s)).
  rewrite Hkey, Hagent, Hexec, Hsucc. simpl. by rewrite <- app_assoc.
Qed.

Lemma whileLoop_chained E workflow input o :
  NoDup (map step_id (steps workflow)) →
  Forall (λ s, step_id s ≠ "") (steps workflow) →
  Forall (alwaysSucceeds E) (steps workflow) →
  ∀ tl s pre st extra,
    steps workflow = pre ++ s :: tl →
    chained (s :: tl) →
    currentStepId st = Some (step_id s) →
    ∃ st' res,
      whileLoop E workflow input o (length (s :: tl) + extra) st
      = Some (Ret st', trace st') ∧
      collected st' = collected st ++ res ∧
      map step res = map step_name (s :: tl) ∧
      Forall (λ x, success (result x) = true) res ∧
      dispatched (trace st')
      = dispatched (trace st) ++ map (λ s, stepTask s input) (s :: tl).
Proof.
  intros Hnd Hids Hagents.
  induction tl as [|s' tl IH]; intros s pre st extra Hsteps Hchain Hcur.
  - destruct Hchain as (Hcond & Hnext & _).
    assert (s ∈ steps workflow) as Hin
      by (rewrite Hsteps, elem_of_app, elem_of_cons; auto).
    assert (emptyStr (step_id s) = false) as Hne.
    { rewrite Forall_forall in Hids. apply Hids in Hin.
      unfold emptyStr. by apply String.eqb_neq. }
    rewrite Forall_forall in Hagents.
    destruct (loopBody_success E workflow input o (step_id s) st s
                (findStep_unique _ _ _ _ Hsteps Hnd) Hcond (Hagents _ Hin))
      as (key & r & Hsucc & Hbody).
    eexists _, [{| step := step_name s; result := r |}].
    change (length [s] + extra) with (S extra).
    rewrite (whileLoop_pass _ _ _ _ _ _ _ Hcur Hne), Hbody.
    unfold nextStep. rewrite Hnext.
    rewrite whileLoop_done by done.
    split; [reflexivity|]. simpl. split; [done|]. split; [done|].
    split; [by constructor|].
    rewrite dispatched_app. done.
  - simpl in Hchain. destruct Hchain as [Hcond [Hnext Hrest]].
    assert (s ∈ steps workflow) as Hin
      by (rewrite Hsteps, elem_of_app, elem_of_cons; auto).
    assert (emptyStr (step_id s) = false) as Hne.
    { rewrite Forall_forall in Hids. apply Hids in Hin.
      unfold emptyStr. by apply String.eqb_neq. }
    pose proof Hagents as Hagents'. rewrite Forall_forall in Hagents'.
    destruct (loopBody_success E workflow input o (step_id s) st s
                (findStep_unique _ _ _ _ Hsteps Hnd) Hcond (Hagents' _ Hin))
      as (key & r & Hsucc & Hbody).
    change (length (s :: s' :: tl) + extra) with (S (length (s' :: tl) + extra)).
    rewrite (whileLoop_pass _ _ _ _ _ _ _ Hcur Hne), Hbody.
    unfold nextStep. rewrite Hnext.
    edestruct (IH s' (pre ++ [s])) as (st' & res & Hloop & Hcoll & Hnames & Hall & Hdisp);
      [by rewrite <- app_assoc | exact Hrest | | ].
    2:{ exists st', ({| step := step_name s; result := r |} :: res).
        split; [exact Hloop|]. simpl in Hcoll, Hdisp.
        split; [by rewrite Hcoll, <- app_assoc|].
        split; [simpl; by rewrite Hnames|].
        split; [by constructor|].
        rewrite Hdisp, dispatched_app. simpl. by rewrite <- app_assoc. }
    done.
Qed.

(** C8, as the code has it: a workflow of N steps with non-empty, pairwise
    distinct step ids, no conditions, and each step naming the following
    one (the last step has no [next]), run with agents that always return
    [success = true], hands exactly its N step tasks to the agents, in
    declaration order, and returns N results, one per step in that order. *)
Theorem C8_linear_workflow_runs_each_step_once (E : Env) (workflows : Store)
    (workflowId : string) (input : option (gmap string JValue))
    (options : option RunOptions) (tr : Trace) (workflow : Workflow)
    (cb : Codebase) (fuel : nat) :
  workflows !! workflowId = Some workflow →
  analyzeCodebase E (codebaseDir (setDefaultOptions E workflow options)) = Ret cb →
  steps workflow ≠ [] →
  chained (steps workflow) →
  NoDup (map step_id (steps workflow)) →
  Forall (λ s, step_id s ≠ "") (steps workflow) →
  Forall (alwaysSucceeds E) (steps workflow) →
  length (steps workflow) ≤ fuel →
  ∃ res tr',
    runWorkflow E workflows workflowId input options fuel tr = Some (Ret res, tr') ∧
    length res = length (steps workflow) ∧
    map step res = map step_name (steps workflow) ∧
    Forall (λ x, success (result x) = true) res ∧
    dispatched tr' = dispatched tr ++ map (λ s, stepTask s input) (steps workflow) ∧
    count_events is_AgentCall tr'
    = count_events is_AgentCall tr + length (steps workflow).
Proof.
  intros Hw Hcb Hnonempty Hchain Hnd Hids Hagents Hfuel.
  destruct (steps workflow) as [|first rest] eqn:Hsteps; [done|].
  rewrite <- Hsteps in Hnd, Hids, Hagents.
  set (o := setDefaultOptions E workflow options).
  set (tr1 := tr ++ [ConsoleLog ("Running workflow: " +:+ wf_name workflow)]).
  destruct (whileLoop_chained E workflow input o Hnd Hids Hagents rest first []
              (initialState first cb o input tr1) (fuel - length (first :: rest))
              Hsteps Hchain eq_refl)
    as (st' & res & Hloop & Hcoll & Hnames & Hall & Hdisp).
  replace (length (first :: rest) + (fuel - length (first :: rest))) with fuel
    in Hloop by lia.
  rewrite (runWorkflow_started _ _ _ _ _ _ _ _ _ _ _ Hw Hcb Hsteps).
  cbv zeta. fold o. fold tr1. rewrite Hloop.
  simpl in Hcoll. subst tr1. simpl in Hdisp.
  rewrite dispatched_app in Hdisp. simpl in Hdisp. rewrite app_nil_r in Hdisp.
  assert (dispatched (commitChanges E o
            (trace st' ++ [ConsoleLog ("Workflow " +:+ wf_name workflow +:+ " completed.")]))
          = dispatched tr ++ map (λ s, stepTask s input) (first :: rest)) as Hfinal.
  { unfold commitChanges. destruct (autoCommit o);
      [destruct (gitCommit E _); [destruct (gitPush E)|]|];
      rewrite ?dispatched_app, Hdisp; simpl; by rewrite ?app_nil_r. }
  eexists _, _. split; [reflexivity|].
  rewrite Hcoll.
  split; [by rewrite <- (length_map step), Hnames, length_map|].
  split; [done|]. split; [done|]. split; [done|].
  by rewrite !count_AgentCall_dispatched, Hfinal, length_app, length_map.
Qed.

Lemma stubAgent_alwaysSucceeds E s key :
  AgentManager.agentKey (task_type (step_task s)) = Some key →
  agents E !! key = Some (Fixtures.stubAgent Fixtures.okResult) →
  alwaysSucceeds E s.
Proof.
  intros Hkey Hagent. exists key, (Fixtures.stubAgent Fixtures.okResult).
  split; [exact Hkey|]. split; [exact Hagent|].
  intros task context. exists Fixtures.okResult. split; reflexivity.
Defined.

(** C8 at a concrete input: the built-in code generation workflow, with
    agents that always succeed. *)
Lemma C8_linear_workflow_runs_each_step_once_witness :
  ∃ res tr',
    runWorkflow Fixtures.allOk (loadBuiltInWorkflows ∅) "code-generation" None None 3 []
    = Some (Ret res, tr') ∧
    length res = 3 ∧
    map step res = ["Generate Code"; "Review Code"; "Save Code"] ∧
    dispatched tr' = map step_task (steps codeGenerationWorkflow).
Proof.
  destruct (C8_linear_workflow_runs_each_step_once Fixtures.allOk
              (loadBuiltInWorkflows ∅) "code-generation" None None []
              codeGenerationWorkflow Fixtures.emptyCodebase 3)
    as (res & tr' & Hrun & Hlen & Hnames & _ & Hdisp & _).
  - reflexivity.
  - reflexivity.
  - discriminate.
  - repeat split.
  - apply (bool_decide_unpack _). vm_compute. exact I.
  - repeat constructor; discriminate.
  - constructor; [|constructor; [|constructor; [|constructor]]].
    + apply (stubAgent_alwaysSucceeds _ _ "codeGeneration"); reflexivity.
    + apply (stubAgent_alwaysSucceeds _ _ "codeReview"); reflexivity.
    + apply (stubAgent_alwaysSucceeds _ _ "codeGeneration"); reflexivity.
  - simpl. lia.
  - exists res, tr'. split; [exact Hrun|]. split; [exact Hlen|].
    split; [exact Hnames | exact Hdisp].
Defined.

(** C8 as stated fails: this workflow has one step, no condition and no
    branching, and its agent always succeeds; the loop guard is false on the
    empty id, so that no step is dispatched and the result list is empty. *)
Lemma C8_counterexample :
  length (steps Fixtures.unnamed) = 1 ∧
  chained (steps Fixtures.unnamed) ∧
  Forall (alwaysSucceeds Fixtures.allOk) (steps Fixtures.unnamed) ∧
  runWorkflow Fixtures.allOk {["unnamed" := Fixtures.unnamed]} "unnamed" None None 5 []
  = Some (Ret [], [ConsoleLog "Running workflow: unnamed";
                   ConsoleLog "Workflow unnamed completed."]).
Proof.
  split; [reflexivity|]. split; [repeat split|]. split; [|reflexivity].
  repeat constructor.
  apply (stubAgent_alwaysSucceeds _ _ "codeGeneration"); reflexivity.
Qed.

(** * Termination of the step loop *)

(** A pass that stays in the loop follows a next reference. *)
Lemma loopBody_Continue_nextRef E workflow input o cur st st' next :
  loopBody E workflow input o cur st = Continue st' →
  currentStepId st' = Some next →
  nextRef workflow cur next ∧ cur ∈ map step_id (steps workflow).
Proof.
  intros Hbody Hnext.
  apply loopBody_Continue in Hbody as (s & Hfind & Hcases).
  destruct (findStep_Some _ _ _ Hfind) as [Hin Hid].
  split.
  - exists s. destruct Hcases as [(_ & _ & _ & Hcur)|(_ & r & _ & _ & Hcur)];
      eexists; (split; [done|]); by rewrite <- Hcur.
  - rewrite <- Hid. by apply list_elem_of_fmap_2.
Qed.

(** The ids in [visited] were current in earlier passes, all different, and
    each of them reaches the current id: the loop ends before the fuel
    does, as long as the fuel exceeds the number of steps not yet visited. *)
Lemma whileLoop_acyclic_fuel E workflow input o :
  acyclic workflow →
  ∀ fuel visited st,
    NoDup visited →
    (∀ v, v ∈ visited → v ∈ map step_id (steps workflow)) →
    (∀ v cur, v ∈ visited → currentStepId st = Some cur →
              tc (nextRef workflow) v cur) →
    length (steps workflow) < fuel + length visited →
    is_Some (whileLoop E workflow input o fuel st).
Proof.
  intros Hacyclic. induction fuel as [|fuel IH]; intros visited st Hnd Hsub Hreach Hlen.
  - exfalso. apply NoDup_submseteq in Hsub; [|done].
    apply submseteq_length in Hsub. rewrite length_map in Hsub. simpl in Hlen. lia.
  - simpl. destruct (currentStepId st) as [cur|] eqn:Hcur; [|by eexists].
    destruct (emptyStr cur) eqn:Hne; [by eexists|].
    destruct (loopBody E workflow input o cur st) as [st'|st'|e tr1] eqn:Hbody;
      [|by eexists..].
    destruct (currentStepId st') as [next|] eqn:Hnext.
    2:{ rewrite whileLoop_done; [by eexists|]. by rewrite Hnext. }
    destruct (loopBody_Continue_nextRef _ _ _ _ _ _ _ _ Hbody Hnext) as [Hedge Hin].
    assert (cur ∉ visited) as Hfresh.
    { intros Hv. by apply (Hacyclic cur), Hreach. }
    apply (IH (cur :: visited)).
    + by constructor.
    + intros v [->|Hv]%elem_of_cons; auto.
    + intros v next' [->|Hv]%elem_of_cons Hnext'; simplify_eq.
      * by apply tc_once.
      * eapply tc_r; [by apply Hreach|done].
    + simpl. lia.
Qed.

Lemma cyclic_never_leaves_loop input o fuel st :
  currentStepId st = Some "generate" ∨ currentStepId st = Some "review" →
  whileLoop Fixtures.allOk Fixtures.cyclic input o fuel st = None.
Proof.
  revert st. induction fuel as [|fuel IH]; intros st [Hcur|Hcur].
  - simpl. by rewrite Hcur.
  - simpl. by rewrite Hcur.
  - rewrite (whileLoop_pass _ _ _ _ _ _ "generate" Hcur eq_refl).
    apply IH. by right.
  - rewrite (whileLoop_pass _ _ _ _ _ _ "review" Hcur eq_refl).
    apply IH. by left.
Qed.

(** C10: for a workflow whose next references are acyclic, the loop ends from
    every state, after at most as many passes as fit in a fuel exceeding
    the number of steps; and the engine has no other bound: for the
    workflow [Fixtures.cyclic], whose two steps name each other, no amount of
    fuel lets the loop, or the run, end. *)
Theorem C10_loop_ends_iff_no_reachable_cycle :
  (∀ E workflow input o st,
     acyclic workflow →
     ∃ res, ∀ fuel, length (steps workflow) < fuel →
       whileLoop E workflow input o fuel st = Some res) ∧
  (tc (nextRef Fixtures.cyclic) "generate" "generate" ∧
   (∀ s, s ∈ steps Fixtures.cyclic → ∀ context, skipped s context = false) ∧
   ∀ fuel,
     runWorkflow Fixtures.allOk {["cycle" := Fixtures.cyclic]} "cycle" None None fuel [] = None).
Proof.
  split.
  - intros E workflow input o st Hacyclic.
    destruct (whileLoop_acyclic_fuel E workflow input o Hacyclic
                (S (length (steps workflow))) [] st) as [res Hres].
    + constructor.
    + intros v Hv. by apply elem_of_nil in Hv.
    + intros v cur Hv. by apply elem_of_nil in Hv.
    + simpl. lia.
    + exists res. intros fuel Hfuel.
      replace fuel with (S (length (steps workflow)) + (fuel - S (length (steps workflow))))
        by lia.
      by apply whileLoop_mono.
  - split; [|split].
    + eapply tc_l; [|apply tc_once].
      * eexists _, (initialContext Fixtures.emptyCodebase "" None).
        split; reflexivity.
      * eexists _, (initialContext Fixtures.emptyCodebase "" None).
        split; reflexivity.
    + intros s Hs context.
      apply elem_of_cons in Hs as [->|Hs]; [done|].
      apply list_elem_of_singleton in Hs as ->. done.
    + intros fuel.
      assert (({["cycle" := Fixtures.cyclic]} : Store) !! "cycle" = Some Fixtures.cyclic) as Hw
        by reflexivity.
      rewrite (runWorkflow_started Fixtures.allOk _ "cycle" None None fuel [] Fixtures.cyclic
                 Fixtures.emptyCodebase _ _ Hw eq_refl eq_refl).
      cbv zeta. rewrite cyclic_never_leaves_loop; [done|]. by left.
Qed.

(** Next references that raise a rank cannot form a cycle. *)
Lemma acyclic_by_rank workflow (rank : string → nat) :
  (∀ s context b,
     s ∈ steps workflow → nextStep s context = Some b → rank (step_id s) < rank b) →
  acyclic workflow.
Proof.
  intros Hrank.
  assert (∀ a b, tc (nextRef workflow) a b → rank a < rank b) as Hup.
  { induction 1 as [a b (s & context & Hfind & Hnext)
                   |a b c (s & context & Hfind & Hnext) _ IH];
      apply findStep_Some in Hfind as [Hin <-];
      specialize (Hrank s context b Hin Hnext); lia. }
  intros a Hloop. apply Hup in Hloop. lia.
Qed.

(** The built-in code generation workflow is a chain of three steps. *)
Lemma codeGenerationWorkflow_acyclic : acyclic codeGenerationWorkflow.
Proof.
  apply (acyclic_by_rank _
           (λ id, if String.eqb id "generate-code" then 0
                  else if String.eqb id "review-code" then 1 else 2)).
  intros s context b Hin Hnext.
  repeat (apply elem_of_cons in Hin as [->|Hin];
          [first [discriminate Hnext | injection Hnext as <-; vm_compute; lia]|]).
  by apply elem_of_nil in Hin.
Defined.

(** C10 at a concrete input: the built-in code generation workflow, whose
    steps name each other in a chain, started at its first step: the loop
    ends, after one pass over each of the three steps. *)
Lemma C10_loop_ends_iff_no_reachable_cycle_witness :
  let o := setDefaultOptions Fixtures.allOk codeGenerationWorkflow None in
  let st0 := initialState
               (builtInStep "generate-code" "Generate Code"
                  "Generate code based on the description" "code-generation"
                  "Generate code based on the description" (Some "review-code"))
               Fixtures.emptyCodebase o None [] in
  acyclic codeGenerationWorkflow ∧
  ∃ res,
    (∀ fuel, 3 < fuel →
       whileLoop Fixtures.allOk codeGenerationWorkflow None o fuel st0 = Some res) ∧
    ∃ st, res.1 = Ret st ∧
          map step (collected st) = ["Generate Code"; "Review Code"; "Save Code"].
Proof.
  intros o st0. split; [exact codeGenerationWorkflow_acyclic|].
  destruct (proj1 C10_loop_ends_iff_no_reachable_cycle Fixtures.allOk
              codeGenerationWorkflow None o st0 codeGenerationWorkflow_acyclic)
    as [res Hres].
  exists res. split; [exact Hres|].
  assert (whileLoop Fixtures.allOk codeGenerationWorkflow None o 4 st0 = Some (Ret _, _))
    as Hloop by (vm_compute; reflexivity).
  rewrite (Hres 4) in Hloop by (simpl; lia).
  injection Hloop as ->. eexists. split; reflexivity.
Defined.

(** * Git helpers *)

Section Git.
Import GitUtils.
Context (sh : Shell).

Lemma commands_app (tr1 tr2 : list GitEvent) :
  commands (tr1 ++ tr2) = commands tr1 ++ commands tr2.
Proof. unfold commands. apply omap_app. Qed.

(** X1: on a clean work tree ([git status --porcelain] prints nothing but
    white space) [gitCommit] succeeds after that one command: it stages
    nothing, commits nothing, and logs "No changes to commit". *)
Theorem X1_gitCommit_clean_tree (message : string) (tr : list GitEvent)
    (stdout : string) :
  execAsync sh tr statusCommand = Ret stdout →
  trim sh stdout = "" →
  gitCommit sh message tr
  = (Ret (), tr ++ [Exec statusCommand; Log "No changes to commit"]) ∧
  commands (gitCommit sh message tr).2 = commands tr ++ [statusCommand].
Proof.
  intros Hstatus Hclean.
  assert (gitCommit sh message tr
          = (Ret (), tr ++ [Exec statusCommand; Log "No changes to commit"])) as Heq.
  { unfold gitCommit, getStatus, run. fold statusCommand.
    rewrite Hstatus, Hclean. simpl. by rewrite <- app_assoc. }
  split; [done|]. rewrite Heq. simpl. by rewrite commands_app.
Qed.

(** X2: whatever the shell answers, [gitCommit] runs a non-empty initial part
    of the sequence [git status --porcelain], [git add .],
    [git commit -m "<message>"], the message being inserted as it is;
    the commit command is run only when the status was not empty and
    [git add .] succeeded; and every failure is reported with a message
    that starts with "Failed to commit changes: ". *)
Theorem X2_gitCommit_command_sequence (message : string) (tr : list GitEvent) :
  let out := (gitCommit sh message tr).1 in
  let tr' := (gitCommit sh message tr).2 in
  let afterStatus := tr ++ [Exec statusCommand] in
  (∃ ran, commands tr' = commands tr ++ ran ∧ ran ≠ [] ∧
          ran `prefix_of` [statusCommand; addCommand; commitCommand message]) ∧
  (commitCommand message ∈ drop (length (commands tr)) (commands tr') →
     (∃ stdout, execAsync sh tr statusCommand = Ret stdout ∧ trim sh stdout ≠ "") ∧
     (∃ stdout, execAsync sh afterStatus addCommand = Ret stdout)) ∧
  (∀ e, out = Throw e → ∃ cause, e = "Failed to commit changes: " +:+ cause).
Proof.
  cbv zeta. unfold gitCommit, getStatus, stageAll, run.
  fold statusCommand addCommand.
  destruct (execAsync sh tr statusCommand) as [stdout|e0] eqn:Hstatus; simpl.
  2:{ split; [|split].
      - exists [statusCommand]. rewrite commands_app. split; [done|]. split; [done|].
        by eexists [_; _].
      - rewrite commands_app, drop_app_length. simpl.
        intros Hin%list_elem_of_singleton. discriminate Hin.
      - intros e [= <-]. by eexists. }
  destruct (String.eqb (trim sh stdout) "") eqn:Hclean; simpl.
  { split; [|split].
    - exists [statusCommand]. rewrite <- app_assoc, commands_app. split; [done|].
      split; [done|]. by eexists [_; _].
    - rewrite <- app_assoc, commands_app, drop_app_length. simpl.
      intros Hin%list_elem_of_singleton. discriminate Hin.
    - intros e [=]. }
  apply String.eqb_neq in Hclean.
  destruct (execAsync sh (tr ++ [Exec statusCommand]) addCommand) as [out1|e1] eqn:Hadd;
    simpl.
  2:{ split; [|split].
      - exists [statusCommand; addCommand]. rewrite <- app_assoc, commands_app.
        split; [done|]. split; [done|]. by eexists [_].
      - rewrite <- app_assoc, commands_app, drop_app_length. simpl.
        intros [Hin|[Hin|Hin]%elem_of_cons]%elem_of_cons;
          [discriminate Hin|discriminate Hin|by apply elem_of_nil in Hin].
      - intros e [= <-]. by eexists. }
  destruct (execAsync sh _ (commitCommand message)) as [out2|e2]; simpl.
  - split; [|split].
    + exists [statusCommand; addCommand; commitCommand message].
      rewrite <- !app_assoc, commands_app. split; [done|]. split; [done|]. done.
    + intros _. split; by eexists.
    + intros e [=].
  - split; [|split].
    + exists [statusCommand; addCommand; commitCommand message].
      rewrite <- !app_assoc, commands_app. split; [done|]. split; [done|]. done.
    + intros _. split; by eexists.
    + intros e [= <-]. by eexists.
Qed.

(** X3: [gitPush] pushes to [origin] the branch that git reports as current,
    trimmed; when the current branch cannot be read nothing is pushed and
    the error names both failures. *)
Theorem X3_gitPush_current_branch (tr : list GitEvent) :
  (∀ stdout,
     execAsync sh tr branchCommand = Ret stdout →
     commands (gitPush sh tr).2
     = commands tr ++ [branchCommand; "git push origin " +:+ trim sh stdout] ∧
     ((gitPush sh tr).1 = Ret () ↔
      ∃ out, execAsync sh (tr ++ [Exec branchCommand])
               ("git push origin " +:+ trim sh stdout) = Ret out)) ∧
  (∀ e,
     execAsync sh tr branchCommand = Throw e →
     gitPush sh tr
     = (Throw ("Failed to push changes: Failed to get current branch: " +:+ e),
        tr ++ [Exec branchCommand])).
Proof.
  unfold gitPush, getCurrentBranch, run. fold branchCommand. split.
  - intros stdout ->. simpl.
    destruct (execAsync sh _ _) as [out|e] eqn:Hpush; simpl.
    + rewrite <- app_assoc, commands_app. split; [done|]. split; [by eexists|done].
    + rewrite <- app_assoc, commands_app. split; [done|].
      split; [done|]. by intros [out [=]].
  - by intros e ->.
Qed.

End Git.

(** * Setting up the agents *)

Section Setup.
Import AgentSetup.
Context (config : AgentsConfig) (new : AgentClasses).

Lemma setIf_lookup enabled key agent (ags : gmap string Agent) k :
  setIf enabled key agent ags !! k
  = if enabled && String.eqb k key then Some agent else ags !! k.
Proof.
  unfold setIf. destruct enabled; simpl; [|done].
  destruct (String.eqb k key) eqn:Hk.
  - apply String.eqb_eq in Hk as ->. apply lookup_insert_eq.
  - apply String.eqb_neq in Hk. by apply lookup_insert_ne.
Qed.

Lemma setupAgents_lookup (ags : gmap string Agent) key :
  setupAgents config new ags !! key
  = if enabledKey config key then classOf new key else ags !! key.
Proof.
  unfold setupAgents, enabledKey, classOf.
  destruct (String.eqb key "langgraph") eqn:Hl.
  { apply String.eqb_eq in Hl as ->. simpl. apply lookup_insert_eq. }
  apply String.eqb_neq in Hl. rewrite lookup_insert_ne by done.
  rewrite !setIf_lookup.
  repeat match goal with
         | |- context [String.eqb key ?s] =>
             destruct (String.eqb_spec key s) as [->|?]
         end;
    simpl; rewrite ?andb_true_r, ?andb_false_r; done.
Qed.

(** X4: [setupAgents] never unregisters: every agent registered before is
    still registered (possibly replaced by a new instance); an agent whose
    flag is off keeps the instance it had; the LangGraph agent is registered
    whatever the configuration says, its own [enabled] flag included. *)
Theorem X4_setupAgents_only_adds (ags : gmap string Agent) (key : string) :
  (is_Some (ags !! key) → is_Some (setupAgents config new ags !! key)) ∧
  (enabledKey config key = false → setupAgents config new ags !! key = ags !! key) ∧
  setupAgents config new ags !! "langgraph" = Some (LangGraphAgent new) ∧
  (is_Some (setupAgents config new ags !! key) →
   is_Some (ags !! key) ∨ enabledKey config key = true).
Proof.
  rewrite !setupAgents_lookup. split; [|split; [|split]].
  - intros Hsome. destruct (enabledKey config key) eqn:Hen; [|done].
    unfold enabledKey, classOf in *.
    repeat (destruct (String.eqb key _); [by eexists|]). done.
  - by intros ->.
  - done.
  - destruct (enabledKey config key); auto.
Qed.


End Setup.

(** * Orchestrating a list of tasks *)

(** A dispatch that returns a result called the registered agent once. *)
Lemma executeTask_Ret E task context tr r tr' :
  AgentManager.executeTask E task context tr = (Ret r, tr') →
  ∃ key agent,
    AgentManager.agentKey (task_type task) = Some key ∧
    agents E !! key = Some agent ∧
    agent_executeTask agent task context = Ret r ∧
    tr' = tr ++ [AgentCall key task].
Proof.
  unfold AgentManager.executeTask, AgentManager.getAgent.
  destruct (AgentManager.agentKey (task_type task)) as [key|]; [|done].
  destruct (agents E !! key) as [agent|] eqn:Hagent; [|done].
  intros [= Hexec <-]. by exists key, agent.
Qed.

Section Orchestrate.
Import AgentSetup.
Context (E : Env).

Lemma orchestrateLoop_app tasks1 tasks2 context results tr :
  orchestrateLoop E (tasks1 ++ tasks2) context results tr
  = match orchestrateLoop E tasks1 context results tr with
    | (Ret results1, context1, tr1) => orchestrateLoop E tasks2 context1 results1 tr1
    | failed => failed
    end.
Proof.
  revert context results tr.
  induction tasks1 as [|task tasks1 IH]; intros context results tr; simpl; [done|].
  destruct (AgentManager.executeTask E task context tr) as [[r|e] tr']; [|done].
  apply IH.
Qed.

(** The results found in the accumulator are kept in front. *)
Lemma orchestrateLoop_acc tasks context results tr :
  orchestrateLoop E tasks context results tr
  = match orchestrateLoop E tasks context [] tr with
    | (Ret new, context', tr') => (Ret (results ++ new), context', tr')
    | failed => failed
    end.
Proof.
  revert context results tr.
  induction tasks as [|task tasks IH]; intros context results tr; simpl.
  - by rewrite app_nil_r.
  - destruct (AgentManager.executeTask E task context tr) as [[r|e] tr']; [|done].
    rewrite (IH _ (results ++ [r])), (IH _ [r]).
    destruct (orchestrateLoop E tasks _ [] tr') as [[[new|e] c] t]; [|done].
    by rewrite <- app_assoc.
Qed.

Lemma orchestrateLoop_dispatched tasks context results tr :
  ∃ handed,
    dispatched (orchestrateLoop E tasks context results tr).2
    = dispatched tr ++ handed ∧
    handed `prefix_of` tasks ∧
    ∀ res, (orchestrateLoop E tasks context results tr).1.1 = Ret res →
           handed = tasks ∧ length res = length results + length tasks.
Proof.
  revert context results tr.
  induction tasks as [|task tasks IH]; intros context results tr; simpl.
  - exists []. rewrite app_nil_r. split; [done|]. split; [done|].
    intros res [= <-]. split; [done|lia].
  - destruct (AgentManager.executeTask E task context tr) as [[r|e] tr1] eqn:Hexec.
    + apply executeTask_Ret in Hexec as (key & agent & _ & _ & _ & ->).
      destruct (IH (WorkflowManager.recordResult context (task_id task) r)
                  (results ++ [r]) (tr ++ [AgentCall key task]))
        as (handed & Hdisp & Hpre & Hret).
      exists (task :: handed). rewrite Hdisp, dispatched_app. simpl.
      split; [by rewrite <- app_assoc|]. split; [by apply prefix_cons|].
      intros res Hres. destruct (Hret res Hres) as [-> Hlen].
      split; [done|]. rewrite length_app in Hlen. simpl in *. lia.
    + simpl. pose proof (executeTask_trace E task context tr) as Htr.
      rewrite Hexec in Htr. simpl in Htr. destruct Htr as [->|[key ->]].
      * exists []. rewrite app_nil_r. split; [done|]. split; [apply prefix_nil|done].
      * exists [task]. rewrite dispatched_app. split; [done|].
        split; [|done]. by exists tasks.
Qed.

(** An exception of the loop is the exception of one task, met after every
    task before it returned. *)
Lemma orchestrateLoop_Throw tasks context acc tr e context' tr' :
  orchestrateLoop E tasks context acc tr = (Throw e, context', tr') →
  ∃ before bad after acc1 context1 tr1,
    tasks = before ++ bad :: after ∧
    orchestrateLoop E before context acc tr = (Ret acc1, context1, tr1) ∧
    AgentManager.executeTask E bad context1 tr1 = (Throw e, tr') ∧
    context' = context1.
Proof.
  revert context acc tr.
  induction tasks as [|task tasks IH]; intros context acc tr; simpl; [done|].
  destruct (AgentManager.executeTask E task context tr) as [[r|e0] tr0] eqn:Hexec.
  - intros Hloop.
    apply IH in Hloop as (before & bad & after & acc1 & c1 & t1 & -> & Hbefore & Hbad & ->).
    exists (task :: before), bad, after, acc1, c1, t1. simpl. by rewrite Hexec.
  - intros [= <- <- <-]. by exists [], task, tasks, acc, context, tr.
Qed.

(** X6: [orchestrateAgents] hands the tasks to the agents one by one, in the
    order of the list and unchanged, and stops at the first exception. When
    the tasks [before] return and the dispatch of the task [bad] after them
    throws, [orchestrateAgents] throws that error with the context as
    [before] left it; the tasks handed out are [before] and, if an agent was
    called for it, [bad]; no task after [bad] is handed out. Every
    exception of [orchestrateAgents] arises this way. When it returns, all
    tasks were handed out and there is one result per task. *)
Theorem X6_orchestrateAgents_stops_at_first_exception (tasks : list AgentTask)
    (context : AgentContext) (tr : Trace) :
  (∃ handed,
     dispatched (orchestrateAgents E tasks context tr).2 = dispatched tr ++ handed ∧
     handed `prefix_of` tasks ∧
     ∀ res, (orchestrateAgents E tasks context tr).1.1 = Ret res →
            handed = tasks ∧ length res = length tasks) ∧
  (∀ before bad after acc context1 tr1 e,
     tasks = before ++ bad :: after →
     orchestrateAgents E before context tr = (Ret acc, context1, tr1) →
     (AgentManager.executeTask E bad context1 tr1).1 = Throw e →
     orchestrateAgents E tasks context tr
     = (Throw e, context1, (AgentManager.executeTask E bad context1 tr1).2) ∧
     dispatched tr1 = dispatched tr ++ before ∧
     (dispatched (orchestrateAgents E tasks context tr).2 = dispatched tr ++ before ∨
      dispatched (orchestrateAgents E tasks context tr).2
      = dispatched tr ++ before ++ [bad])) ∧
  (∀ e,
     (orchestrateAgents E tasks context tr).1.1 = Throw e →
     ∃ before bad after acc context1 tr1,
       tasks = before ++ bad :: after ∧
       orchestrateAgents E before context tr = (Ret acc, context1, tr1) ∧
       (AgentManager.executeTask E bad context1 tr1).1 = Throw e).
Proof.
  split; [apply orchestrateLoop_dispatched|]. split.
  - intros before bad after acc context1 tr1 e -> Hbefore Hbad.
    assert (orchestrateAgents E (before ++ bad :: after) context tr
            = (Throw e, context1, (AgentManager.executeTask E bad context1 tr1).2))
      as Hthrown.
    { unfold orchestrateAgents in *. rewrite orchestrateLoop_app, Hbefore. simpl.
      by destruct (AgentManager.executeTask E bad context1 tr1) as [[r|e'] tr2];
        simplify_eq/=. }
    assert (dispatched tr1 = dispatched tr ++ before) as Hdone.
    { destruct (orchestrateLoop_dispatched before context [] tr)
        as (handed & Hdisp & _ & Hall).
      unfold orchestrateAgents in Hbefore. rewrite Hbefore in Hdisp, Hall.
      destruct (Hall acc eq_refl) as [-> _]. exact Hdisp. }
    split; [exact Hthrown|]. split; [exact Hdone|]. rewrite Hthrown. simpl.
    destruct (executeTask_trace E bad context1 tr1) as [->|[key ->]].
    + by left.
    + right. rewrite dispatched_app, Hdone. simpl. by rewrite <- app_assoc.
  - intros e He. unfold orchestrateAgents in *.
    destruct (orchestrateLoop E tasks context [] tr) as [[out c] t] eqn:Hloop.
    simpl in He. subst out.
    apply orchestrateLoop_Throw in Hloop
      as (before & bad & after & acc1 & c1 & t1 & -> & Hbefore & Hbad & _).
    exists before, bad, after, acc1, c1, t1. by rewrite Hbad.
Qed.

Lemma orchestrateLoop_context tasks context acc tr res context' tr' :
  orchestrateLoop E tasks context acc tr = (Ret res, context', tr') →
  ∃ new,
    res = acc ++ new ∧ length new = length tasks ∧
    (∀ i task r,
       tasks !! i = Some task → new !! i = Some r →
       (∀ j later, i < j → tasks !! j = Some later → task_id later ≠ task_id task) →
       results context' !! task_id task = Some r) ∧
    (∀ id, id ∉ map task_id tasks → results context' !! id = results context !! id) ∧
    codebase context' = codebase context ∧
    currentFile context' = currentFile context ∧
    options context' = options context.
Proof.
  revert context acc tr.
  induction tasks as [|task tasks IH]; intros context acc tr; simpl.
  - intros [= <- <- <-]. exists []. rewrite app_nil_r.
    split; [done|]. split; [done|]. split; [|done].
    intros i task r Hi. by rewrite lookup_nil in Hi.
  - destruct (AgentManager.executeTask E task context tr) as [[r0|e] tr1]; [|done].
    intros Hloop.
    apply IH in Hloop as (new & -> & Hlen & Hlast & Hother & Hcb & Hcf & Hopt).
    exists (r0 :: new). rewrite <- app_assoc. split; [done|].
    split; [simpl; lia|]. split; [|split; [|done]].
    + intros [|i] task' r Htask Hr Hlater; simpl in *.
      * simplify_eq. rewrite Hother; [apply lookup_insert_eq|].
        intros (later & Hid & Hin)%list_elem_of_fmap.
        apply list_elem_of_lookup in Hin as [j Hj].
        by apply (Hlater (S j) later); [lia| |].
      * apply (Hlast i); [done..|].
        intros j later Hij Hj. apply (Hlater (S j)); [lia|done].
    + intros id Hid. apply not_elem_of_cons in Hid as [Hne Hid].
      rewrite Hother by done. simpl. by rewrite lookup_insert_ne.
Qed.

(** X7: when [orchestrateAgents] returns, [context.results] holds, under the
    id of each task, the result of the last task of the list with that id;
    entries under other ids, and the rest of the context, are as before. *)
Theorem X7_orchestrateAgents_records_results (tasks : list AgentTask)
    (context : AgentContext) (tr : Trace) (res : list AgentResult)
    (context' : AgentContext) (tr' : Trace) :
  orchestrateAgents E tasks context tr = (Ret res, context', tr') →
  (∀ i task r,
     tasks !! i = Some task → res !! i = Some r →
     (∀ j later, i < j → tasks !! j = Some later → task_id later ≠ task_id task) →
     results context' !! task_id task = Some r) ∧
  (∀ id, id ∉ map task_id tasks → results context' !! id = results context !! id) ∧
  codebase context' = codebase context ∧
  currentFile context' = currentFile context ∧
  options context' = options context.
Proof.
  intros Hloop.
  apply orchestrateLoop_context in Hloop as (new & -> & _ & H). exact H.
Qed.

(** X8: orchestrating a list in two parts is orchestrating it at once: the
    second part starts from the context and the trace the first part left,
    its results follow those of the first part, and an exception in the
    first part keeps the second from running. *)
Theorem X8_orchestrateAgents_in_two_parts (tasks1 tasks2 : list AgentTask)
    (context : AgentContext) (tr : Trace) :
  orchestrateAgents E (tasks1 ++ tasks2) context tr
  = match orchestrateAgents E tasks1 context tr with
    | (Ret res1, context1, tr1) =>
        match orchestrateAgents E tasks2 context1 tr1 with
        | (Ret res2, context2, tr2) => (Ret (res1 ++ res2), context2, tr2)
        | failed => failed
        end
    | failed => failed
    end.
Proof.
  unfold orchestrateAgents. rewrite orchestrateLoop_app.
  destruct (orchestrateLoop E tasks1 context [] tr) as [[[res1|e] c1] t1]; [|done].
  apply orchestrateLoop_acc.
Qed.

End Orchestrate.

(** * More about runs *)

Section Runs.
Context (E : Env) (workflow : Workflow) (input : option (gmap string JValue))
  (o : WorkflowOptions).

(** The four ways through the body of the loop. *)
Lemma loopBody_shape cur st :
  currentStepId st = Some cur →
  let started := trace st ++ [ConsoleLog ("Executing step: " +:+
                   default "" (step_name <$> findStep workflow cur))] in
  (findStep workflow cur = None ∧ loopBody E workflow input o cur st = Break st) ∨
  (∃ s, findStep workflow cur = Some s ∧ skipped s (context st) = true ∧
     loopBody E workflow input o cur st
     = Continue {| currentStepId := nextStep s (context st);
                   context := context st; collected := collected st;
                   trace := started ++ [ConsoleLog ("Skipping step " +:+ step_name s
                                                     +:+ " (condition not met)")] |}) ∨
  (∃ s e tr2, findStep workflow cur = Some s ∧ skipped s (context st) = false ∧
     AgentManager.executeTask E (stepTask s input) (context st) started = (Throw e, tr2) ∧
     loopBody E workflow input o cur st = Raise e tr2) ∨
  (∃ s key agent r,
     findStep workflow cur = Some s ∧ skipped s (context st) = false ∧
     AgentManager.agentKey (task_type (step_task s)) = Some key ∧
     agents E !! key = Some agent ∧
     agent_executeTask agent (stepTask s input) (context st) = Ret r ∧
     let called := started ++ [AgentCall key (stepTask s input)] in
     let asked := called ++ [ApprovalAsked (approvalMessage s);
                             ConsoleLog (approvalMessage s)] in
     loopBody E workflow input o cur st
     = if negb (success r) && requireApproval o
       then if userApproves E called (approvalMessage s)
            then Continue (afterStep s r st asked)
            else Break (afterDenial s r st asked)
       else Continue (afterStep s r st called)).
Proof.
  intros Hcur started. subst started. unfold loopBody.
  destruct (findStep workflow cur) as [s|] eqn:Hfind; [|by left].
  right. simpl. destruct (skipped s (context st)) eqn:Hskip.
  { left. exists s. by rewrite <- app_assoc. }
  right.
  destruct (AgentManager.executeTask E (stepTask s input) (context st) _)
    as [[r|e] tr2] eqn:Hexec.
  2:{ left. by exists s, e, tr2. }
  right. apply executeTask_Ret in Hexec as (key & agent & Hkey & Hagent & Hexec & ->).
  exists s, key, agent, r. do 5 (split; [done|]). cbv zeta.
  unfold askForApproval, afterStep, afterDenial, approvalMessage. rewrite Hcur.
  destruct (negb (success r) && requireApproval o); [|done].
  by destruct (userApproves E _ _).
Qed.

(** A pass only appends to the trace, and appends only console lines, agent
    calls and approval prompts. *)
Lemma loopBody_extends cur st :
  currentStepId st = Some cur →
  ∃ ext, iterationTrace (loopBody E workflow input o cur st) = trace st ++ ext ∧
         forallb engineEvent ext = true.
Proof.
  intros Hcur.
  destruct (loopBody_shape cur st Hcur)
    as [[_ ->]|[(s & _ & _ & ->)|[(s & e & tr2 & _ & _ & Hexec & ->)
       |(s & key & agent & r & _ & _ & _ & _ & _ & ->)]]]; simpl.
  - exists []. by rewrite app_nil_r.
  - eexists. rewrite <- app_assoc. split; [done|]. done.
  - pose proof (executeTask_trace E (stepTask s input) (context st)
                  (trace st ++ [ConsoleLog ("Executing step: " +:+
                     default "" (step_name <$> findStep workflow cur))])) as Htr.
    rewrite Hexec in Htr. simpl in Htr. destruct Htr as [->|[key ->]].
    + by eexists.
    + eexists. rewrite <- app_assoc. split; [done|]. done.
  - destruct (negb (success r) && requireApproval o);
      [destruct (userApproves E _ _)|]; simpl;
      eexists; rewrite <- ?app_assoc; (split; [done|]); done.
Qed.

Lemma whileLoop_extends fuel st out tr' :
  whileLoop E workflow input o fuel st = Some (out, tr') →
  (∃ ext, tr' = trace st ++ ext ∧ forallb engineEvent ext = true) ∧
  (∀ st', out = Ret st' → trace st' = tr').
Proof.
  revert st. induction fuel as [|fuel IH]; intros st; simpl.
  - destruct (currentStepId st) as [cur|]; [destruct (emptyStr cur); [|done]|];
      intros [= <- <-]; (split; [exists []; by rewrite app_nil_r|by intros ? [= <-]]).
  - destruct (currentStepId st) as [cur|] eqn:Hcur.
    2:{ intros [= <- <-]. split; [exists []; by rewrite app_nil_r|by intros ? [= <-]]. }
    destruct (emptyStr cur).
    { intros [= <- <-]. split; [exists []; by rewrite app_nil_r|by intros ? [= <-]]. }
    destruct (loopBody_extends cur st Hcur) as (ext & Hext & Hall).
    destruct (loopBody E workflow input o cur st) as [st1|st1|e tr1]; simpl in Hext.
    + intros Hloop. apply IH in Hloop as [(ext' & -> & Hall') Hret].
      split; [|done]. exists (ext ++ ext'). rewrite Hext, <- app_assoc.
      split; [done|]. by rewrite forallb_app, Hall, Hall'.
    + intros [= <- <-]. split; [by exists ext|by intros ? [= <-]].
    + intros [= <- <-]. split; [by exists ext|done].
Qed.

(** A property of loop states kept by every pass holds when the loop is
    left. *)
Lemma whileLoop_invariant (P : LoopState → Prop) :
  (∀ cur st st',
     P st → currentStepId st = Some cur →
     loopBody E workflow input o cur st = Continue st' ∨
     loopBody E workflow input o cur st = Break st' → P st') →
  ∀ fuel st st' tr',
    P st → whileLoop E workflow input o fuel st = Some (Ret st', tr') → P st'.
Proof.
  intros Hstep. induction fuel as [|fuel IH]; intros st st' tr' HP; simpl.
  - destruct (currentStepId st) as [cur|]; [destruct (emptyStr cur); [|done]|];
      by intros [= <- <-].
  - destruct (currentStepId st) as [cur|] eqn:Hcur; [|by intros [= <- <-]].
    destruct (emptyStr cur); [by intros [= <- <-]|].
    destruct (loopBody E workflow input o cur st) as [st1|st1|e tr1] eqn:Hbody.
    + apply IH. eapply Hstep; eauto.
    + intros [= <- <-]. eapply Hstep; eauto.
    + done.
Qed.

End Runs.

Lemma count_events_forallb p ext :
  forallb engineEvent ext = true →
  (∀ e, p e = true → engineEvent e = false) →
  count_events p ext = 0.
Proof.
  intros Hall Hp. unfold count_events.
  induction ext as [|e ext IH]; [done|]. simpl in *.
  apply andb_true_iff in Hall as [He Hall].
  destruct (p e) eqn:Hpe; [|by apply IH].
  apply Hp in Hpe. congruence.
Qed.

(** * The commit step *)

Lemma commitChanges_enabled E o tr :
  autoCommit o = true → commitChanges E o tr = tr ++ hookEvents E o.
Proof.
  intros Hon. unfold commitChanges, hookEvents. rewrite Hon.
  destruct (gitCommit E _); [destruct (gitPush E)|]; by rewrite <- !app_assoc.
Qed.

Section Completion.
Context (E : Env) (workflow : Workflow) (input : option (gmap string JValue))
  (o : WorkflowOptions).
(** [askForApproval] as the source has it: it returns [true]. *)
Hypothesis always_approved : ∀ tr message, userApproves E tr message = true.

(** The only [break] taken is the one for an id that names no step, and no
    pass logs that the user stopped the run. *)
Lemma loopBody_never_denied cur st :
  currentStepId st = Some cur →
  (∃ ext, iterationTrace (loopBody E workflow input o cur st) = trace st ++ ext ∧
          count_events stoppedByUser ext = 0) ∧
  (∀ st', loopBody E workflow input o cur st = Break st' →
          st' = st ∧ findStep workflow cur = None).
Proof.
  intros Hcur.
  destruct (loopBody_shape E workflow input o cur st Hcur)
    as [[Hfind ->]|[(s & _ & _ & ->)|[(s & e & tr2 & _ & _ & Hexec & ->)
       |(s & key & agent & r & _ & _ & _ & _ & _ & ->)]]]; simpl.
  - split; [exists []; by rewrite app_nil_r|]. by intros st' [= <-].
  - split; [|done]. eexists. rewrite <- app_assoc. split; [done|]. reflexivity.
  - split; [|done].
    pose proof (executeTask_trace E (stepTask s input) (context st)
                  (trace st ++ [ConsoleLog ("Executing step: " +:+
                     default "" (step_name <$> findStep workflow cur))])) as Htr.
    rewrite Hexec in Htr. simpl in Htr. destruct Htr as [->|[key ->]].
    + eexists. split; [done|]. reflexivity.
    + eexists. rewrite <- app_assoc. split; [done|]. reflexivity.
  - rewrite always_approved.
    destruct (negb (success r) && requireApproval o); simpl;
      (split; [|done]); eexists; rewrite <- ?app_assoc; (split; [done|]);
      reflexivity.
Qed.

Lemma whileLoop_never_denied fuel st out tr' :
  whileLoop E workflow input o fuel st = Some (out, tr') →
  count_events stoppedByUser tr' = count_events stoppedByUser (trace st) ∧
  (∀ st', out = Ret st' → noNextStep workflow st').
Proof.
  revert st. induction fuel as [|fuel IH]; intros st; simpl.
  - destruct (currentStepId st) as [cur|] eqn:Hcur;
      [destruct (emptyStr cur) eqn:Hne; [|done]|];
      intros [= <- <-]; (split; [done|]); intros st' [= <-]; left;
      unfold loopGuard; rewrite Hcur; by rewrite ?Hne.
  - destruct (currentStepId st) as [cur|] eqn:Hcur.
    2:{ intros [= <- <-]. split; [done|]. intros st' [= <-]. left.
        by rewrite Hcur. }
    destruct (emptyStr cur) eqn:Hne.
    { intros [= <- <-]. split; [done|]. intros st' [= <-]. left.
      rewrite Hcur. simpl. by rewrite Hne. }
    destruct (loopBody_never_denied cur st Hcur) as [(ext & Hext & Hnone) Hbreak].
    destruct (loopBody E workflow input o cur st) as [st1|st1|e tr1]; simpl in Hext.
    + intros Hloop. apply IH in Hloop as [Hcount Hleft]. split; [|done].
      rewrite Hcount, Hext, count_events_app. lia.
    + destruct (Hbreak st1 eq_refl) as [-> Hfind].
      intros [= <- <-]. split; [done|]. intros st' [= <-]. right. by exists cur.
    + intros [= <- <-]. split; [|done]. rewrite Hext, count_events_app. lia.
Qed.

End Completion.

(** C3: with the approval prompt of the source, which answers [true] every
    time, and [autoCommit] true, a run that returns left its loop for want
    of a next step (the id is falsy or names no step), never because the
    user stopped it; it calls neither [gitCommit] nor [gitPush] before the
    line "Workflow ... completed.", and after that line it calls
    [gitCommit] once and then, if [gitCommit] did not fail, [gitPush] once.
    A run that throws calls neither. A failure of [gitCommit] or [gitPush]
    is logged and the collected results are returned all the same. *)
Theorem C3_commit_step_after_completion (E : Env) (workflows : Store)
    (workflowId : string) (input : option (gmap string JValue))
    (options : option RunOptions) (fuel : nat) (tr : Trace)
    (workflow : Workflow) (cb : Codebase) (first : WorkflowStep)
    (rest : list WorkflowStep) :
  let o := setDefaultOptions E workflow options in
  let st0 := initialState first cb o input
               (tr ++ [ConsoleLog ("Running workflow: " +:+ wf_name workflow)]) in
  let completed := ConsoleLog ("Workflow " +:+ wf_name workflow +:+ " completed.") in
  (∀ tr message, userApproves E tr message = true) →
  workflows !! workflowId = Some workflow →
  analyzeCodebase E (codebaseDir o) = Ret cb →
  steps workflow = first :: rest →
  autoCommit o = true →
  (∀ st tr2,
     whileLoop E workflow input o fuel st0 = Some (Ret st, tr2) →
     runWorkflow E workflows workflowId input options fuel tr
     = Some (Ret (collected st), tr2 ++ [completed] ++ hookEvents E o) ∧
     noNextStep workflow st ∧
     count_events stoppedByUser tr2 = count_events stoppedByUser tr ∧
     count_events is_GitCommit tr2 = count_events is_GitCommit tr ∧
     count_events is_GitPush tr2 = count_events is_GitPush tr) ∧
  (∀ e tr2,
     whileLoop E workflow input o fuel st0 = Some (Throw e, tr2) →
     runWorkflow E workflows workflowId input options fuel tr
     = Some (Throw e,
             tr2 ++ [ConsoleError ("Error running workflow " +:+ workflowId +:+ ":") e]) ∧
     count_events is_GitCommit tr2 = count_events is_GitCommit tr ∧
     count_events is_GitPush tr2 = count_events is_GitPush tr) ∧
  count_events is_GitCommit (hookEvents E o) = 1 ∧
  count_events is_GitPush (hookEvents E o)
  = (if is_throw (gitCommit E (commitMessage o)) then 0 else 1) ∧
  (∀ e, gitCommit E (commitMessage o) = Throw e →
        hookEvents E o = [GitCommit (commitMessage o);
                          ConsoleError "Failed to commit changes:" e]) ∧
  (∀ e, gitCommit E (commitMessage o) = Ret () → gitPush E = Throw e →
        hookEvents E o = [GitCommit (commitMessage o); GitPush;
                          ConsoleError "Failed to commit changes:" e]).
Proof.
  intros o st0 completed Hyes Hw Hcb Hsteps Hon.
  assert (∀ out tr2,
    whileLoop E workflow input o fuel st0 = Some (out, tr2) →
    count_events is_GitCommit tr2 = count_events is_GitCommit tr ∧
    count_events is_GitPush tr2 = count_events is_GitPush tr) as Hquiet.
  { intros out tr2 Hloop.
    apply whileLoop_extends in Hloop as [(ext & -> & Hall) _].
    subst st0. cbn [trace initialState]. rewrite !count_events_app.
    rewrite (count_events_forallb is_GitCommit ext Hall) by (by intros []).
    rewrite (count_events_forallb is_GitPush ext Hall) by (by intros []).
    unfold count_events. simpl. lia. }
  split; [|split].
  { intros st tr2 Hloop. split.
    { rewrite (runWorkflow_started _ _ _ _ _ _ _ _ _ _ _ Hw Hcb Hsteps).
      cbv zeta. fold o. fold st0. rewrite Hloop.
      rewrite commitChanges_enabled by done. by rewrite <- app_assoc. }
    destruct (whileLoop_never_denied E workflow input o Hyes _ _ _ _ Hloop)
      as [Hcount Hleft].
    split; [by apply Hleft|]. split; [|by apply (Hquiet (Ret st))].
    rewrite Hcount. subst st0. cbn [trace initialState].
    rewrite count_events_app.
    assert (count_events stoppedByUser
              [ConsoleLog ("Running workflow: " +:+ wf_name workflow)] = 0) as ->
      by reflexivity.
    lia. }
  { intros e tr2 Hloop. split; [|by apply (Hquiet (Throw e))].
    rewrite (runWorkflow_started _ _ _ _ _ _ _ _ _ _ _ Hw Hcb Hsteps).
    cbv zeta. fold o. fold st0. by rewrite Hloop. }
  unfold hookEvents.
  destruct (gitCommit E (commitMessage o)) as [[]|e1]; [destruct (gitPush E)|];
    repeat split; try done; intros; simplify_eq; done.
Qed.

(** C3 at a concrete input: [autoCommit] and [requireApproval] are true, the
    only step fails, the approval prompt answers [true], the run completes
    and commits, and the push is rejected: the failure is logged and the
    result list is returned. *)
Lemma C3_commit_step_after_completion_witness :
  runWorkflow Samples.pushRejected {["review" := Fixtures.reviewOnly]} "review" None
    (Fixtures.runOptions true true) 3 []
  = Some (Ret [{| step := "analyze"; result := Fixtures.failedResult |}],
          [ConsoleLog "Running workflow: review";
           ConsoleLog "Executing step: analyze";
           AgentCall "codeReview" (Fixtures.task "analyze" "code-review");
           ApprovalAsked "Step analyze failed. Do you want to continue the workflow?";
           ConsoleLog "Step analyze failed. Do you want to continue the workflow?";
           ConsoleLog "Workflow review completed.";
           GitCommit "CodeForge: Run workflow review";
           GitPush;
           ConsoleError "Failed to commit changes:" "remote rejected"]).
Proof.
  assert (whileLoop Samples.pushRejected Fixtures.reviewOnly None
            (setDefaultOptions Samples.pushRejected Fixtures.reviewOnly
               (Fixtures.runOptions true true)) 3
            (initialState (Fixtures.mkStep "analyze" "code-review" None)
               Fixtures.emptyCodebase
               (setDefaultOptions Samples.pushRejected Fixtures.reviewOnly
                  (Fixtures.runOptions true true)) None
               ([] ++ [ConsoleLog ("Running workflow: " +:+ wf_name Fixtures.reviewOnly)]))
          = Some (Ret _, _)) as Hloop by (vm_compute; reflexivity).
  exact (proj1 (proj1 (C3_commit_step_after_completion Samples.pushRejected
    {["review" := Fixtures.reviewOnly]} "review" None (Fixtures.runOptions true true)
    3 [] Fixtures.reviewOnly Fixtures.emptyCodebase
    (Fixtures.mkStep "analyze" "code-review" None) []
    (λ _ _, eq_refl) eq_refl eq_refl eq_refl eq_refl) _ _ Hloop)).
Defined.

(** X9: a run fails before any step is handed to an agent, whatever the fuel,
    when no workflow is registered under the id (an id that is not the name
    of a property of [Object.prototype], under which the lookup would find
    that property), when the analysis of the code base fails, and when the
    registered workflow has no steps; the error is logged and rethrown,
    nothing is committed. *)
Theorem X9_runWorkflow_fails_before_first_step (E : Env) (workflows : Store)
    (workflowId : string) (input : option (gmap string JValue))
    (options : option RunOptions) (fuel : nat) (tr : Trace) :
  let logged e := ConsoleError ("Error running workflow " +:+ workflowId +:+ ":") e in
  (workflows !! workflowId = None →
   inheritedName workflowId = false →
   runWorkflow E workflows workflowId input options fuel tr
   = Some (Throw ("Workflow " +:+ workflowId +:+ " not found"),
           tr ++ [logged ("Workflow " +:+ workflowId +:+ " not found")])) ∧
  (∀ workflow e,
     workflows !! workflowId = Some workflow →
     analyzeCodebase E (codebaseDir (setDefaultOptions E workflow options)) = Throw e →
     runWorkflow E workflows workflowId input options fuel tr
     = Some (Throw e, tr ++ [ConsoleLog ("Running workflow: " +:+ wf_name workflow);
                             logged e])) ∧
  (∀ workflow cb,
     workflows !! workflowId = Some workflow →
     analyzeCodebase E (codebaseDir (setDefaultOptions E workflow options)) = Ret cb →
     steps workflow = [] →
     ∃ e, runWorkflow E workflows workflowId input options fuel tr
          = Some (Throw e, tr ++ [ConsoleLog ("Running workflow: " +:+ wf_name workflow);
                                  logged e])).
Proof.
  cbv zeta. unfold runWorkflow, getWorkflow. split; [|split].
  - by intros -> _.
  - intros workflow e -> Hcb. cbv beta iota zeta. rewrite Hcb.
    by rewrite <- app_assoc.
  - intros workflow cb -> Hcb Hsteps. cbv beta iota zeta. rewrite Hcb, Hsteps.
    eexists. by rewrite <- app_assoc.
Qed.

(** X9 at concrete inputs: an empty store, and a registered workflow without
    steps. *)
Lemma X9_runWorkflow_fails_before_first_step_witness :
  runWorkflow Fixtures.allOk ∅ "code-generation" None None 0 []
  = Some (Throw "Workflow code-generation not found",
          [ConsoleError "Error running workflow code-generation:"
             "Workflow code-generation not found"]) ∧
  ∃ e, runWorkflow Fixtures.allOk (registerWorkflow Fixtures.blank ∅) "blank" None None 0 []
       = Some (Throw e, [ConsoleLog "Running workflow: ";
                         ConsoleError "Error running workflow blank:" e]).
Proof.
  split.
  - exact (proj1 (X9_runWorkflow_fails_before_first_step Fixtures.allOk ∅
                    "code-generation" None None 0 []) eq_refl eq_refl).
  - exact (proj2 (proj2 (X9_runWorkflow_fails_before_first_step Fixtures.allOk
                    (registerWorkflow Fixtures.blank ∅) "blank" None None 0 []))
             Fixtures.blank Fixtures.emptyCodebase eq_refl eq_refl eq_refl).
Defined.

(** X10: when the agent of a step throws, the run throws the same error: the
    error is logged and rethrown, the results collected in earlier passes
    are not returned, no approval is asked and nothing is committed. *)
Theorem X10_agent_exception_ends_run (E : Env) (workflows : Store)
    (workflowId : string) (input : option (gmap string JValue))
    (options : option RunOptions) (tr : Trace) (workflow : Workflow)
    (cb : Codebase) (first : WorkflowStep) (rest : list WorkflowStep)
    (n : nat) (st : LoopState) (cur : string) (s : WorkflowStep)
    (key : string) (agent : Agent) (e : string) (fuel : nat) :
  let o := setDefaultOptions E workflow options in
  workflows !! workflowId = Some workflow →
  analyzeCodebase E (codebaseDir o) = Ret cb →
  steps workflow = first :: rest →
  passes E workflow input o n
    (initialState first cb o input
       (tr ++ [ConsoleLog ("Running workflow: " +:+ wf_name workflow)])) st →
  currentStepId st = Some cur → emptyStr cur = false →
  findStep workflow cur = Some s →
  skipped s (context st) = false →
  AgentManager.agentKey (task_type (step_task s)) = Some key →
  agents E !! key = Some agent →
  agent_executeTask agent (stepTask s input) (context st) = Throw e →
  runWorkflow E workflows workflowId input options (n + S fuel) tr
  = Some (Throw e,
          trace st ++
            [ConsoleLog ("Executing step: " +:+ step_name s);
             AgentCall key (stepTask s input);
             ConsoleError ("Error running workflow " +:+ workflowId +:+ ":") e]).
Proof.
  intros o Hw Hcb Hsteps Hpasses Hcur Hne Hfind Hskip Hkey Hagent Hexec.
  rewrite (runWorkflow_started _ _ _ _ _ _ _ _ _ _ _ Hw Hcb Hsteps).
  cbv zeta. fold o. rewrite (whileLoop_passes _ _ _ _ _ _ _ _ Hpasses).
  rewrite (whileLoop_pass _ _ _ _ _ _ _ Hcur Hne).
  unfold loopBody, AgentManager.executeTask, AgentManager.getAgent.
  rewrite Hfind, Hskip.
  change (task_type (stepTask s input)) with (task_type (step_task s)).
  rewrite Hkey, Hagent, Hexec. by rewrite <- !app_assoc.
Qed.

(** What the commit step adds to the trace. *)
Lemma commitChanges_counts E o tr :
  ∃ hook,
    commitChanges E o tr = tr ++ hook ∧
    count_events is_GitCommit hook = (if autoCommit o then 1 else 0) ∧
    count_events is_GitPush hook
    = (if autoCommit o && negb (is_throw (gitCommit E (commitMessage o)))
       then 1 else 0) ∧
    count_events is_ApprovalAsked hook = 0 ∧
    dispatched hook = [].
Proof.
  unfold commitChanges. destruct (autoCommit o).
  - destruct (gitCommit E (commitMessage o)) as [[]|e]; [destruct (gitPush E)|];
      eexists; rewrite <- !app_assoc; (split; [done|]); by repeat split.
  - exists []. rewrite app_nil_r. by repeat split.
Qed.


Lemma failures_app res1 res2 : failures (res1 ++ res2) = failures res1 + failures res2.
Proof. unfold failures. by rewrite List.filter_app, length_app. Qed.

Section RunInvariants.
Context (E : Env) (workflow : Workflow) (input : option (gmap string JValue))
  (o : WorkflowOptions).

Lemma passes_invariant (P : LoopState → Prop) :
  (∀ cur st st',
     P st → currentStepId st = Some cur →
     loopBody E workflow input o cur st = Continue st' ∨
     loopBody E workflow input o cur st = Break st' → P st') →
  ∀ n st st', P st → passes E workflow input o n st st' → P st'.
Proof.
  intros Hstep n st st' HP Hpasses.
  induction Hpasses as [|n st cur st1 st2 Hcur _ Hbody _ IH]; [done|].
  apply IH. eapply Hstep; eauto.
Qed.

(** One result per agent call, in the same order. *)
Lemma loopBody_keeps_dispatch_order base cur st st' :
  (∃ ts, dispatched (trace st) = base ++ ts ∧
         Forall2 (resultOfStep workflow input) (collected st) ts) →
  currentStepId st = Some cur →
  loopBody E workflow input o cur st = Continue st' ∨
  loopBody E workflow input o cur st = Break st' →
  ∃ ts, dispatched (trace st') = base ++ ts ∧
        Forall2 (resultOfStep workflow input) (collected st') ts.
Proof.
  intros (ts & Hdisp & Hall) Hcur Hbody.
  destruct (loopBody_shape E workflow input o cur st Hcur)
    as [[_ Heq]|[(s & Hfind & _ & Heq)|[(s & e & tr2 & _ & _ & _ & Heq)
       |(s & key & agent & r & Hfind & _ & _ & _ & _ & Heq)]]];
    rewrite Heq in Hbody.
  - destruct Hbody as [[=]|[= <-]]. by exists ts.
  - destruct Hbody as [[= <-]|[=]]. exists ts. simpl.
    rewrite !dispatched_app. simpl. by rewrite !app_nil_r.
  - by destruct Hbody.
  - apply findStep_Some in Hfind as [Hin _].
    assert (Forall2 (resultOfStep workflow input)
              (collected st ++ [{| step := step_name s; result := r |}])
              (ts ++ [stepTask s input])) as Hall'.
    { apply Forall2_app; [done|]. constructor; [|constructor]. by exists s. }
    exists (ts ++ [stepTask s input]).
    destruct (negb (success r) && requireApproval o);
      [destruct (userApproves E _ _)|];
      destruct Hbody as [[= <-]|[= <-]]; simpl;
      rewrite !dispatched_app, Hdisp; simpl; rewrite ?app_nil_r, <- ?app_assoc; done.
Qed.

(** One approval prompt per failed result, if approval is required. *)
Lemma loopBody_keeps_approval_count base cur st st' :
  count_events is_ApprovalAsked (trace st)
  = base + (if requireApproval o then failures (collected st) else 0) →
  currentStepId st = Some cur →
  loopBody E workflow input o cur st = Continue st' ∨
  loopBody E workflow input o cur st = Break st' →
  count_events is_ApprovalAsked (trace st')
  = base + (if requireApproval o then failures (collected st') else 0).
Proof.
  intros Hcount Hcur Hbody.
  destruct (loopBody_shape E workflow input o cur st Hcur)
    as [[_ Heq]|[(s & Hfind & _ & Heq)|[(s & e & tr2 & _ & _ & _ & Heq)
       |(s & key & agent & r & Hfind & _ & _ & _ & _ & Heq)]]];
    rewrite Heq in Hbody.
  - by destruct Hbody as [[=]|[= <-]].
  - destruct Hbody as [[= <-]|[=]]. simpl.
    rewrite !count_events_app, Hcount. unfold count_events. simpl. lia.
  - by destruct Hbody.
  - destruct (success r) eqn:Hsucc; simpl in Hbody.
    + destruct Hbody as [[= <-]|[=]]. simpl.
      rewrite !count_events_app, Hcount, failures_app.
      unfold count_events, failures. simpl. rewrite Hsucc. simpl.
      destruct (requireApproval o); lia.
    + destruct (requireApproval o) eqn:Hreq; simpl in Hbody.
      * destruct (userApproves E _ _); destruct Hbody as [[= <-]|[= <-]]; simpl;
          rewrite !count_events_app, Hcount, failures_app;
          unfold count_events, failures; simpl; rewrite Hsucc; simpl; lia.
      * destruct Hbody as [[= <-]|[=]]. simpl.
        rewrite !count_events_app, Hcount.
        unfold count_events. simpl. lia.
Qed.

(** [context.results] only receives results of steps, under their ids. *)
Lemma loopBody_keeps_resultsFromSteps cur st st' :
  resultsFromSteps workflow st →
  currentStepId st = Some cur →
  loopBody E workflow input o cur st = Continue st' ∨
  loopBody E workflow input o cur st = Break st' →
  resultsFromSteps workflow st' ∧
  codebase (context st') = codebase (context st) ∧
  currentFile (context st') = currentFile (context st) ∧
  options (context st') = options (context st).
Proof.
  intros Hinv Hcur Hbody.
  destruct (loopBody_shape E workflow input o cur st Hcur)
    as [[_ Heq]|[(s & Hfind & _ & Heq)|[(s & e & tr2 & _ & _ & _ & Heq)
       |(s & key & agent & r & Hfind & _ & _ & _ & _ & Heq)]]];
    rewrite Heq in Hbody.
  - by destruct Hbody as [[=]|[= <-]].
  - by destruct Hbody as [[= <-]|[=]].
  - by destruct Hbody.
  - apply findStep_Some in Hfind as [Hin Hid].
    assert (resultsFromSteps workflow (afterStep s r st []) ) as Hstep.
    { intros id r'. simpl. rewrite lookup_insert. case_decide as Hcase.
      - intros [= <-]. exists s. split; [done|]. split; [done|].
        apply elem_of_app. right. by apply list_elem_of_singleton.
      - intros Hold. destruct (Hinv id r' Hold) as (s' & Hin' & Hid' & Hcoll).
        exists s'. split; [done|]. split; [done|]. apply elem_of_app. by left. }
    destruct (negb (success r) && requireApproval o);
      [destruct (userApproves E _ _)|];
      destruct Hbody as [[= <-]|[= <-]]; by split.
Qed.

End RunInvariants.

(** [{ ...step.task.input, ...input }], key by key. *)
Lemma taskInput_lookup s input key :
  taskInput s input !! key
  = match input ≫= (.!! key) with
    | Some v => Some v
    | None => task_input (step_task s) !! key
    end.
Proof.
  unfold taskInput. destruct input as [given|]; simpl.
  - destruct (given !! key) as [v|] eqn:Hkey.
    + by apply lookup_union_Some_l.
    + by apply lookup_union_r.
  - by rewrite lookup_union_r.
Qed.

(** X12: a run that returns was answered by the agents exactly once per
    entry of its result list, in the same order: the i-th entry carries the
    name of a step of the workflow, and the i-th task handed to an agent
    during the run is the task of that step, unchanged but for its input,
    in which the fields of the run input replace or extend those of the
    template. No other task is handed out. *)
Theorem X12_one_result_per_agent_call (E : Env) (workflows : Store)
    (workflowId : string) (input : option (gmap string JValue))
    (options : option RunOptions) (fuel : nat) (tr : Trace)
    (res : list StepResult) (tr' : Trace) (workflow : Workflow) :
  runWorkflow E workflows workflowId input options fuel tr = Some (Ret res, tr') →
  workflows !! workflowId = Some workflow →
  (∃ ts, dispatched tr' = dispatched tr ++ ts ∧
         Forall2 (resultOfStep workflow input) res ts) ∧
  (∀ s key,
     task_id (stepTask s input) = task_id (step_task s) ∧
     task_type (stepTask s input) = task_type (step_task s) ∧
     task_input (stepTask s input) !! key
     = match input ≫= (.!! key) with
       | Some v => Some v
       | None => task_input (step_task s) !! key
       end).
Proof.
  intros Hrun Hw. split; [|intros s key; by rewrite <- taskInput_lookup].
  unfold runWorkflow, getWorkflow in Hrun. rewrite Hw in Hrun.
  cbv beta iota zeta in Hrun.
  set (o := setDefaultOptions E workflow options) in *.
  destruct (analyzeCodebase E (codebaseDir o)) as [cb|e0]; [|done].
  destruct (steps workflow) as [|first rest] eqn:Hsteps; [done|].
  destruct (whileLoop E workflow input o fuel _) as [[[st|e1] tr2]|] eqn:Hloop;
    [|done|done].
  injection Hrun as <- <-.
  pose proof (proj2 (whileLoop_extends _ _ _ _ _ _ _ _ Hloop) st eq_refl) as <-.
  eapply (whileLoop_invariant E workflow input o
            (λ st, ∃ ts, dispatched (trace st) = dispatched tr ++ ts ∧
                         Forall2 (resultOfStep workflow input) (collected st) ts))
    in Hloop as (ts & Hdisp & Hall).
  - exists ts. split; [|done].
    destruct (commitChanges_counts E o
                (trace st ++ [ConsoleLog ("Workflow " +:+ wf_name workflow +:+ " completed.")]))
      as (hook & -> & _ & _ & _ & Hhook).
    rewrite !dispatched_app, Hdisp, Hhook. simpl. by rewrite !app_nil_r.
  - intros cur st1 st2. apply loopBody_keeps_dispatch_order.
  - exists []. simpl. rewrite dispatched_app. simpl. split; [done|constructor].
Qed.

(** X12 at a concrete input: the built-in code generation workflow, run with
    a description as input. *)
Lemma X12_one_result_per_agent_call_witness :
  ∃ res tr' ts,
    runWorkflow Fixtures.allOk (loadBuiltInWorkflows ∅) "code-generation"
      (Some {["description" := JStr "a parser"]}) None 3 [] = Some (Ret res, tr') ∧
    dispatched tr' = ts ∧
    Forall2 (resultOfStep codeGenerationWorkflow (Some {["description" := JStr "a parser"]}))
      res ts.
Proof.
  eexists _, _. 
  assert (runWorkflow Fixtures.allOk (loadBuiltInWorkflows ∅) "code-generation"
            (Some {["description" := JStr "a parser"]}) None 3 [] = Some (Ret _, _)) as Hrun
    by (vm_compute; reflexivity).
  destruct (proj1 (X12_one_result_per_agent_call _ _ _ _ _ _ _ _ _
                     codeGenerationWorkflow Hrun eq_refl)) as (ts & Hdisp & Hall).
  exists ts. split; [exact Hrun|]. split; [exact Hdisp|exact Hall].
Defined.

(** X13: in a run that returns, the approval prompt was called once for each
    failed result of the result list when [requireApproval] is in force, and
    not at all otherwise. *)
Theorem X13_one_approval_per_failed_result (E : Env) (workflows : Store)
    (workflowId : string) (input : option (gmap string JValue))
    (options : option RunOptions) (fuel : nat) (tr : Trace)
    (res : list StepResult) (tr' : Trace) (workflow : Workflow) :
  runWorkflow E workflows workflowId input options fuel tr = Some (Ret res, tr') →
  workflows !! workflowId = Some workflow →
  count_events is_ApprovalAsked tr'
  = count_events is_ApprovalAsked tr
    + (if requireApproval (setDefaultOptions E workflow options)
       then failures res else 0).
Proof.
  intros Hrun Hw.
  unfold runWorkflow, getWorkflow in Hrun. rewrite Hw in Hrun.
  cbv beta iota zeta in Hrun.
  set (o := setDefaultOptions E workflow options) in *.
  destruct (analyzeCodebase E (codebaseDir o)) as [cb|e0]; [|done].
  destruct (steps workflow) as [|first rest] eqn:Hsteps; [done|].
  destruct (whileLoop E workflow input o fuel _) as [[[st|e1] tr2]|] eqn:Hloop;
    [|done|done].
  injection Hrun as <- <-.
  pose proof (proj2 (whileLoop_extends _ _ _ _ _ _ _ _ Hloop) st eq_refl) as <-.
  eapply (whileLoop_invariant E workflow input o
            (λ st, count_events is_ApprovalAsked (trace st)
                   = count_events is_ApprovalAsked tr
                     + (if requireApproval o then failures (collected st) else 0)))
    in Hloop.
  - destruct (commitChanges_counts E o
                (trace st ++ [ConsoleLog ("Workflow " +:+ wf_name workflow +:+ " completed.")]))
      as (hook & -> & _ & _ & Hhook & _).
    rewrite !count_events_app, Hloop, Hhook. unfold count_events. simpl. lia.
  - intros cur st1 st2. apply loopBody_keeps_approval_count.
  - change (trace (initialState first cb o input ?t)) with t.
    change (collected (initialState first cb o input ?t)) with (@nil StepResult).
    rewrite count_events_app. unfold failures.
    destruct (requireApproval o); count_trace.
Qed.

(** X13 at a concrete input: the only step fails and the user denies. *)
Lemma X13_one_approval_per_failed_result_witness :
  ∃ res tr',
    runWorkflow Fixtures.denying {["review" := Fixtures.reviewOnly]} "review" None
      (Fixtures.runOptions false true) 1 [] = Some (Ret res, tr') ∧
    failures res = 1 ∧ count_events is_ApprovalAsked tr' = 1.
Proof.
  eexists _, _.
  assert (runWorkflow Fixtures.denying {["review" := Fixtures.reviewOnly]} "review" None
            (Fixtures.runOptions false true) 1 [] = Some (Ret _, _)) as Hrun
    by (vm_compute; reflexivity).
  split; [exact Hrun|]. split; [reflexivity|].
  exact (X13_one_approval_per_failed_result _ _ _ _ _ _ _ _ _
           Fixtures.reviewOnly Hrun eq_refl).
Defined.

(** X15: in every state that the loop of a run reaches, each entry of
    [context.results] is the result of a step of the workflow, stored under
    the id of that step and present in the result list; the code base, the
    current file and the options of the context are those of the start. *)
Theorem X15_context_results_come_from_steps (E : Env) (workflow : Workflow)
    (input : option (gmap string JValue)) (o : WorkflowOptions) (n : nat)
    (first : WorkflowStep) (cb : Codebase) (tr : Trace) (st : LoopState) :
  passes E workflow input o n (initialState first cb o input tr) st →
  resultsFromSteps workflow st ∧
  codebase (context st)
  = {| rootDir := codebaseDir o; files := files cb; ast := ast cb |} ∧
  currentFile (context st) = None ∧
  options (context st) = (λ i, {["input" := JObj i]}) <$> input.
Proof.
  apply (passes_invariant E workflow input o
           (λ st, resultsFromSteps workflow st ∧
                  codebase (context st)
                  = {| rootDir := codebaseDir o; files := files cb; ast := ast cb |} ∧
                  currentFile (context st) = None ∧
                  options (context st) = (λ i, {["input" := JObj i]}) <$> input)).
  - intros cur st1 st2 (Hinv & Hcb & Hcf & Hopt) Hcur Hbody.
    destruct (loopBody_keeps_resultsFromSteps E workflow input o cur st1 st2
                Hinv Hcur Hbody) as (Hinv' & -> & -> & ->).
    done.
  - split; [|done]. intros id r Hlookup. simpl in Hlookup.
    by rewrite lookup_empty in Hlookup.
Qed.

(** X15 at a concrete input: the state after the first pass of a run. *)
Lemma X15_context_results_come_from_steps_witness :
  resultsFromSteps Fixtures.dangling Fixtures.danglingState.
Proof.
  refine (proj1 (X15_context_results_come_from_steps Fixtures.allOk Fixtures.dangling
    None (setDefaultOptions Fixtures.allOk Fixtures.dangling None) 1
    (Fixtures.mkStep "analyze" "code-review" (Some (Static "publish")))
    Fixtures.emptyCodebase [ConsoleLog "Running workflow: dangling"]
    Fixtures.danglingState _)).
  eapply passes_S with (cur := "analyze"); [reflexivity|reflexivity| |apply passes_O].
  vm_compute; reflexivity.
Defined.

(** * Runs under the placeholder approval *)

(** What a dispatch returns does not depend on the trace. *)
Lemma executeTask_outcome E task context tr1 tr2 :
  (AgentManager.executeTask E task context tr1).1
  = (AgentManager.executeTask E task context tr2).1.
Proof.
  unfold AgentManager.executeTask.
  destruct (AgentManager.agentKey (task_type task)) as [key|]; [|done].
  by destruct (AgentManager.getAgent E key).
Qed.

Section Placeholder.
Context (E : Env) (workflow : Workflow) (input : option (gmap string JValue)).
Hypothesis always_approved : ∀ tr message, userApproves E tr message = true.

Lemma loopBody_sameData o1 o2 cur st1 st2 :
  sameData st1 st2 →
  sameIteration (loopBody E workflow input o1 cur st1)
                (loopBody E workflow input o2 cur st2).
Proof.
  intros (Hcur & Hctx & Hcoll). unfold loopBody.
  destruct (findStep workflow cur) as [s|]; [|by repeat split].
  rewrite Hctx. destruct (skipped s (context st2)).
  { repeat split; simpl; done. }
  pose proof (executeTask_outcome E (stepTask s input) (context st2)
    (trace st1 ++ [ConsoleLog ("Executing step: " +:+ step_name s)])
    (trace st2 ++ [ConsoleLog ("Executing step: " +:+ step_name s)])) as Hout.
  destruct (AgentManager.executeTask E _ _ (trace st1 ++ _)) as [out1 tr1].
  destruct (AgentManager.executeTask E _ _ (trace st2 ++ _)) as [out2 tr2].
  simpl in Hout. subst out2. destruct out1 as [r|e]; [|done].
  unfold askForApproval. rewrite !always_approved, Hcoll.
  destruct (negb (success r) && requireApproval o1),
           (negb (success r) && requireApproval o2); repeat split.
Qed.

Lemma whileLoop_sameData o1 o2 fuel st1 st2 :
  sameData st1 st2 →
  sameLoopResult (whileLoop E workflow input o1 fuel st1)
                 (whileLoop E workflow input o2 fuel st2).
Proof.
  revert st1 st2. induction fuel as [|fuel IH]; intros st1 st2 Hsame;
    pose proof Hsame as (Hcur & _ & _); simpl; rewrite Hcur.
  - destruct (currentStepId st2) as [cur|]; [destruct (emptyStr cur)|]; done.
  - destruct (currentStepId st2) as [cur|]; [|done].
    destruct (emptyStr cur); [done|].
    pose proof (loopBody_sameData o1 o2 cur st1 st2 Hsame) as Hbody.
    destruct (loopBody E workflow input o1 cur st1),
             (loopBody E workflow input o2 cur st2); try done.
    by apply IH.
Qed.

End Placeholder.

(** X14: when the approval prompt answers yes every time, as the
    [askForApproval] of the source does, what a run returns (its result list
    or its error) depends neither on [requireApproval], nor on [autoCommit]
    and [commitMessage], nor on what was logged before: two runs of the same
    workflow on the same input and code base directory return the same. *)
Theorem X14_placeholder_approval_makes_requireApproval_void (E : Env)
    (workflows : Store) (workflowId : string) (input : option (gmap string JValue))
    (options1 options2 : option RunOptions) (fuel : nat) (tr1 tr2 : Trace) :
  (∀ tr message, userApproves E tr message = true) →
  options1 ≫= opt_codebaseDir = options2 ≫= opt_codebaseDir →
  fst <$> runWorkflow E workflows workflowId input options1 fuel tr1
  = fst <$> runWorkflow E workflows workflowId input options2 fuel tr2.
Proof.
  intros Hyes Hdir. unfold runWorkflow, getWorkflow.
  destruct (workflows !! workflowId) as [w|]; [|done]. cbv beta iota zeta.
  assert (codebaseDir (setDefaultOptions E w options1)
          = codebaseDir (setDefaultOptions E w options2)) as Hcd
    by (unfold setDefaultOptions; simpl; by rewrite Hdir).
  rewrite Hcd.
  destruct (analyzeCodebase E (codebaseDir (setDefaultOptions E w options2)))
    as [cb|e]; [|done].
  destruct (steps w) as [|first rest]; [done|].
  pose proof (whileLoop_sameData E w input Hyes
    (setDefaultOptions E w options1) (setDefaultOptions E w options2) fuel
    (initialState first cb (setDefaultOptions E w options1) input
       (tr1 ++ [ConsoleLog ("Running workflow: " +:+ wf_name w)]))
    (initialState first cb (setDefaultOptions E w options2) input
       (tr2 ++ [ConsoleLog ("Running workflow: " +:+ wf_name w)]))) as Hloop.
  destruct (whileLoop E w input (setDefaultOptions E w options1) fuel _)
    as [[[st1|e1] t1]|],
    (whileLoop E w input (setDefaultOptions E w options2) fuel _)
    as [[[st2|e2] t2]|]; simpl in *.
  all: try (exfalso; apply Hloop; unfold initialState, sameData; simpl;
            by rewrite Hcd).
  - destruct Hloop as (_ & _ & ->); [|done].
    unfold initialState, sameData; simpl; by rewrite Hcd.
  - rewrite Hloop; [done|]. unfold initialState, sameData; simpl; by rewrite Hcd.
  - done.
Qed.

(** * Linear workflows and task lists *)

Section LinearRuns.
Import AgentSetup.
Context (E : Env) (workflow : Workflow) (input : option (gmap string JValue))
  (o : WorkflowOptions).
Hypothesis no_approval : requireApproval o = false.
Hypothesis distinct_ids : NoDup (map step_id (steps workflow)).
Hypothesis named_ids : Forall (λ s, step_id s ≠ "") (steps workflow).
Hypothesis task_ids : Forall (λ s, task_id (step_task s) = step_id s) (steps workflow).

Lemma whileLoop_orchestrateLoop tl :
  ∀ s pre st extra trO,
    steps workflow = pre ++ s :: tl →
    chained (s :: tl) →
    currentStepId st = Some (step_id s) →
    match orchestrateLoop E (map (λ s, stepTask s input) (s :: tl)) (context st) [] trO with
    | (Ret rs, context', _) =>
        ∃ st',
          whileLoop E workflow input o (length (s :: tl) + extra) st
          = Some (Ret st', trace st') ∧
          context st' = context' ∧
          collected st' = collected st ++ stepResults (s :: tl) rs ∧
          dispatched (trace st')
          = dispatched (trace st) ++ map (λ s, stepTask s input) (s :: tl)
    | (Throw e, _, _) =>
        ∃ tr', whileLoop E workflow input o (length (s :: tl) + extra) st
               = Some (Throw e, tr')
    end.
Proof.
  induction tl as [|s' tl IH]; intros s pre st extra trO Hsteps Hchain Hcur.
  - destruct Hchain as (Hcond & Hnext & _).
    assert (s ∈ steps workflow) as Hin
      by (rewrite Hsteps, elem_of_app, elem_of_cons; auto).
    assert (emptyStr (step_id s) = false) as Hne.
    { pose proof named_ids as Hids. rewrite Forall_forall in Hids.
      apply Hids in Hin. unfold emptyStr. by apply String.eqb_neq. }
    assert (task_id (step_task s) = step_id s) as Htid.
    { pose proof task_ids as Hids. rewrite Forall_forall in Hids. by apply Hids. }
    change (length [s] + extra) with (S extra).
    rewrite (whileLoop_pass _ _ _ _ _ _ _ Hcur Hne).
    simpl. unfold loopBody, skipped.
    rewrite (findStep_unique _ _ _ _ Hsteps distinct_ids), Hcond.
    pose proof (executeTask_outcome E (stepTask s input) (context st) trO
      (trace st ++ [ConsoleLog ("Executing step: " +:+ step_name s)])) as Hout.
    destruct (AgentManager.executeTask E _ _ trO) as [outO trO1].
    destruct (AgentManager.executeTask E _ _ (trace st ++ _)) as [out tr1] eqn:Hexec.
    simpl in Hout. subst outO. destruct out as [r|e]; [|by eexists].
    apply executeTask_Ret in Hexec as (key & agent & _ & _ & _ & ->).
    rewrite no_approval, andb_false_r. unfold nextStep. rewrite Hnext.
    rewrite whileLoop_done by done. cbn [task_id stepTask]. rewrite Htid.
    eexists. split; [done|]. simpl. split; [done|]. split; [done|].
    rewrite !dispatched_app. simpl. by rewrite app_nil_r.
  - simpl in Hchain. destruct Hchain as [Hcond [Hnext Hrest]].
    assert (s ∈ steps workflow) as Hin
      by (rewrite Hsteps, elem_of_app, elem_of_cons; auto).
    assert (emptyStr (step_id s) = false) as Hne.
    { pose proof named_ids as Hids. rewrite Forall_forall in Hids.
      apply Hids in Hin. unfold emptyStr. by apply String.eqb_neq. }
    assert (task_id (step_task s) = step_id s) as Htid.
    { pose proof task_ids as Hids. rewrite Forall_forall in Hids. by apply Hids. }
    change (length (s :: s' :: tl) + extra) with (S (length (s' :: tl) + extra)).
    rewrite (whileLoop_pass _ _ _ _ _ _ _ Hcur Hne).
    change (map (λ s0, stepTask s0 input) (s :: s' :: tl))
      with (stepTask s input :: map (λ s0, stepTask s0 input) (s' :: tl)).
    cbn [orchestrateLoop]. unfold loopBody, skipped.
    rewrite (findStep_unique _ _ _ _ Hsteps distinct_ids), Hcond.
    pose proof (executeTask_outcome E (stepTask s input) (context st) trO
      (trace st ++ [ConsoleLog ("Executing step: " +:+ step_name s)])) as Hout.
    destruct (AgentManager.executeTask E _ _ trO) as [outO trO1].
    destruct (AgentManager.executeTask E _ _ (trace st ++ _)) as [out tr1] eqn:Hexec.
    simpl in Hout. subst outO. destruct out as [r|e]; [|by eexists].
    apply executeTask_Ret in Hexec as (key & agent & _ & _ & _ & ->).
    rewrite no_approval, andb_false_r. unfold nextStep. rewrite Hnext.
    cbn [task_id stepTask]. rewrite Htid, (orchestrateLoop_acc E _ _ ([] ++ [r])).
    set (st1 := {| currentStepId := Some (step_id s');
                   context := recordResult (context st) (step_id s) r;
                   collected := collected st ++ [{| step := step_name s; result := r |}];
                   trace := (trace st ++ [ConsoleLog ("Executing step: " +:+ step_name s)])
                            ++ [AgentCall key (stepTask s input)] |}).
    specialize (IH s' (pre ++ [s]) st1 extra trO1).
    change (context st1) with (recordResult (context st) (step_id s) r) in IH.
    destruct (orchestrateLoop E (map _ (s' :: tl)) _ [] trO1) as [[[rs|e] c] t].
    + destruct IH as (st' & Hloop & Hctx & Hcoll & Hdisp);
        [by rewrite <- app_assoc|done|done|].
      exists st'. split; [exact Hloop|]. split; [done|]. split.
      * rewrite Hcoll. subst st1. simpl. by rewrite <- app_assoc.
      * rewrite Hdisp. subst st1. simpl. rewrite !dispatched_app. simpl.
        by rewrite app_nil_r, <- app_assoc.
    + apply IH; [by rewrite <- app_assoc|done|done].
Qed.

End LinearRuns.

(** X16: for a linear workflow (no conditions, each step naming the next,
    distinct non-empty step ids, each task carrying the id of its step) run
    without [requireApproval], [runWorkflow] does what [orchestrateAgents]
    does on the list of the step tasks, started on the initial context: it
    throws the same error when that throws, and otherwise returns the same
    results, each under the name of its step, after handing the same tasks
    to the agents. *)
Theorem X16_linear_run_is_orchestration (E : Env) (workflows : Store)
    (workflowId : string) (input : option (gmap string JValue))
    (options : option RunOptions) (tr : Trace) (workflow : Workflow)
    (cb : Codebase) (fuel : nat) :
  let o := setDefaultOptions E workflow options in
  let tasks := map (λ s, stepTask s input) (steps workflow) in
  workflows !! workflowId = Some workflow →
  analyzeCodebase E (codebaseDir o) = Ret cb →
  steps workflow ≠ [] →
  chained (steps workflow) →
  NoDup (map step_id (steps workflow)) →
  Forall (λ s, step_id s ≠ "") (steps workflow) →
  Forall (λ s, task_id (step_task s) = step_id s) (steps workflow) →
  requireApproval o = false →
  length (steps workflow) ≤ fuel →
  match AgentSetup.orchestrateAgents E tasks
          (initialContext cb (codebaseDir o) input) [] with
  | (Ret rs, _, _) =>
      ∃ tr', runWorkflow E workflows workflowId input options fuel tr
             = Some (Ret (stepResults (steps workflow) rs), tr') ∧
             dispatched tr' = dispatched tr ++ tasks
  | (Throw e, _, _) =>
      ∃ tr', runWorkflow E workflows workflowId input options fuel tr
             = Some (Throw e, tr')
  end.
Proof.
  intros o tasks Hw Hcb Hnonempty Hchain Hnd Hids Htids Hreq Hfuel.
  destruct (steps workflow) as [|first rest] eqn:Hsteps; [done|].
  rewrite <- Hsteps in Hnd, Hids, Htids.
  rewrite (runWorkflow_started _ _ _ _ _ _ _ _ _ _ _ Hw Hcb Hsteps).
  cbv zeta. fold o.
  set (st0 := initialState first cb o input
                (tr ++ [ConsoleLog ("Running workflow: " +:+ wf_name workflow)])).
  pose proof (whileLoop_orchestrateLoop E workflow input o Hreq Hnd Hids Htids
                rest first [] st0 (fuel - length (first :: rest)) [] Hsteps Hchain eq_refl)
    as Hloop.
  replace (length (first :: rest) + (fuel - length (first :: rest))) with fuel
    in Hloop by lia.
  unfold AgentSetup.orchestrateAgents. subst tasks.
  change (context st0) with (initialContext cb (codebaseDir o) input) in Hloop.
  destruct (AgentSetup.orchestrateLoop E _ _ [] []) as [[[rs|e] c] t].
  - destruct Hloop as (st' & -> & _ & Hcoll & Hdisp). eexists. split.
    + by rewrite Hcoll.
    + destruct (commitChanges_counts E o
                  (trace st' ++ [ConsoleLog ("Workflow " +:+ wf_name workflow
                                              +:+ " completed.")]))
        as (hook & -> & _ & _ & _ & Hhook).
      rewrite !dispatched_app, Hdisp, Hhook. subst st0. simpl.
      rewrite dispatched_app. simpl. by rewrite !app_nil_r.
  - destruct Hloop as (tr' & ->). by eexists.
Qed.

(** X16 at a concrete input: the built-in bug fixing workflow, whose second
    and third steps have no agent here: both throw at the second task. *)
Lemma X16_linear_run_is_orchestration_witness :
  ∃ tr', runWorkflow Fixtures.allOk (loadBuiltInWorkflows ∅) "bug-fixing" None
           (Fixtures.runOptions false false) 3 []
         = Some (Throw "Agent errorFixing not found", tr').
Proof.
  refine (X16_linear_run_is_orchestration Fixtures.allOk (loadBuiltInWorkflows ∅)
            "bug-fixing" None (Fixtures.runOptions false false) []
            bugFixingWorkflow Fixtures.emptyCodebase 3
            eq_refl eq_refl _ _ _ _ _ eq_refl _).
  - discriminate.
  - repeat split.
  - apply (bool_decide_unpack _). vm_compute. exact I.
  - repeat constructor; discriminate.
  - repeat constructor.
  - simpl. lia.
Defined.

(** * Loading the workflow definitions *)

Lemma loadBuiltInWorkflows_lookup (workflows : Store) id :
  loadBuiltInWorkflows workflows !! id
  = match List.find (λ w, String.eqb (wf_id w) id) builtIns with
    | Some w => Some w
    | None => workflows !! id
    end.
Proof.
  unfold loadBuiltInWorkflows, builtIns. rewrite !registerWorkflow_lookup.
  cbn [List.find].
  change (wf_id codeGenerationWorkflow) with "code-generation".
  change (wf_id bugFixingWorkflow) with "bug-fixing".
  change (wf_id codeRefactoringWorkflow) with "code-refactoring".
  change (wf_id langgraphWorkflow) with "langgraph-code-generation".
  destruct (String.eqb_spec "code-generation" id) as [<-|H1]; [reflexivity|].
  destruct (String.eqb_spec "bug-fixing" id) as [<-|H2]; [reflexivity|].
  destruct (String.eqb_spec "code-refactoring" id) as [<-|H3]; [reflexivity|].
  destruct (String.eqb_spec "langgraph-code-generation" id) as [<-|H4]; [reflexivity|].
  by rewrite !decide_False by done.
Qed.

(** X17: [loadBuiltInWorkflows] registers the four built-in definitions under
    their ids, replacing whatever was registered there, and leaves every
    other entry of the store as it was; loading twice is loading once; and
    each built-in definition passes the validation of [createWorkflow]. *)
Theorem X17_loadBuiltInWorkflows_overwrites_four_ids (workflows : Store) :
  (∀ w, w ∈ builtIns →
        getWorkflow (loadBuiltInWorkflows workflows) (wf_id w) = Ret w ∧
        invalidDefinition w = false) ∧
  (∀ id, id ∉ map wf_id builtIns →
         loadBuiltInWorkflows workflows !! id = workflows !! id) ∧
  loadBuiltInWorkflows (loadBuiltInWorkflows workflows)
  = loadBuiltInWorkflows workflows.
Proof.
  split; [|split].
  - intros w Hw. unfold getWorkflow. rewrite loadBuiltInWorkflows_lookup.
    unfold builtIns in Hw.
    repeat (apply elem_of_cons in Hw as [->|Hw]; [by split|]).
    by apply elem_of_nil in Hw.
  - intros id Hid. rewrite loadBuiltInWorkflows_lookup.
    destruct (List.find _ builtIns) as [w|] eqn:Hfind; [|done].
    apply find_some in Hfind as [Hin Heq]. apply String.eqb_eq in Heq.
    exfalso. apply Hid. rewrite <- Heq. apply list_elem_of_fmap_2.
    by apply list_elem_of_In.
  - apply map_eq. intros id. rewrite !loadBuiltInWorkflows_lookup.
    by destruct (List.find _ builtIns).
Qed.


Lemma list_ascii_of_string_app s1 s2 :
  String.list_ascii_of_string (s1 +:+ s2)
  = String.list_ascii_of_string s1 ++ String.list_ascii_of_string s2.
Proof. induction s1 as [|c s1 IH]; simpl; [done|]. by rewrite IH. Qed.

Lemma endsWith_spec file suffix :
  WorkflowLoading.endsWith file suffix = true ↔ ∃ stem, file = stem +:+ suffix.
Proof.
  unfold WorkflowLoading.endsWith. rewrite bool_decide_eq_true. split.
  - intros [k Hk]. exists (String.string_of_list_ascii k).
    rewrite <- (String.string_of_list_ascii_of_string file), Hk.
    rewrite <- (String.string_of_list_ascii_of_string
                  (String.string_of_list_ascii k +:+ suffix)).
    by rewrite list_ascii_of_string_app, String.list_ascii_of_string_of_list_ascii.
  - intros [stem ->]. exists (String.list_ascii_of_string stem).
    apply list_ascii_of_string_app.
Qed.

Section Loading.
Import WorkflowLoading.
Context (E : Env) (D : Disk).

Lemma loadFiles_cons file files workflows :
  loadFiles E D (file :: files) workflows
  = if endsWith file ".json" then
      match parsedFile E D file with
      | Ret w => loadFiles E D files (registerWorkflow w workflows)
      | Throw e => (Throw e, workflows)
      end
    else loadFiles E D files workflows.
Proof.
  simpl. unfold parsedFile. destruct (endsWith file ".json"); [|done].
  by destruct (fs_readFile D _).
Qed.

Lemma definitions_cons file files :
  definitions E D (file :: files)
  = (if endsWith file ".json" then
       match parsedFile E D file with Ret w => [w] | Throw _ => [] end
     else []) ++ definitions E D files.
Proof.
  unfold definitions. simpl. destruct (endsWith file ".json"); [|done].
  by destruct (parsedFile E D file).
Qed.

Lemma loadFiles_loadable files workflows :
  Forall (loadable E D) files →
  loadFiles E D files workflows
  = (Ret (), registerAll (definitions E D files) workflows).
Proof.
  revert workflows. induction files as [|file files IH]; intros workflows Hall;
    [done|].
  apply Forall_cons in Hall as [Hfile Hall].
  rewrite loadFiles_cons, definitions_cons. unfold loadable in Hfile.
  destruct (endsWith file ".json"); [|by apply IH].
  specialize (Hfile eq_refl).
  destruct (parsedFile E D file) as [w|e]; [|done]. by apply IH.
Qed.

Lemma loadFiles_stops before bad after workflows :
  Forall (loadable E D) before →
  endsWith bad ".json" = true →
  is_throw (parsedFile E D bad) = true →
  ∃ e, loadFiles E D (before ++ bad :: after) workflows
       = (Throw e, registerAll (definitions E D before) workflows).
Proof.
  revert workflows.
  induction before as [|file before IH]; intros workflows Hall Hjson Hbad.
  - rewrite app_nil_l, loadFiles_cons, Hjson.
    destruct (parsedFile E D bad) as [w|e]; [done|by eexists].
  - apply Forall_cons in Hall as [Hfile Hall].
    rewrite <- app_comm_cons, loadFiles_cons, definitions_cons.
    unfold loadable in Hfile.
    destruct (endsWith file ".json"); [|by apply IH].
    specialize (Hfile eq_refl).
    destruct (parsedFile E D file) as [w|e]; [|done]. by apply IH.
Qed.

End Loading.

(** X19: [initializeWorkflows] registers the built-in workflows and then, in
    the order of the directory listing, the definition of each file whose
    name ends in [.json]; other files are skipped. The first file that
    cannot be read or parsed ends the loading: the definitions before it
    stay registered, the files after it are not looked at, and the
    workflows directory is (re)created. When the directory cannot be listed
    only the built-in workflows are registered and the directory is
    created. *)
Theorem X19_initializeWorkflows_stops_at_first_bad_file (E : Env)
    (D : WorkflowLoading.Disk) (workflows : Store) (tr : Trace) :
  (∀ file, WorkflowLoading.endsWith file ".json" = true
           ↔ ∃ stem, file = stem +:+ ".json") ∧
  (∀ files,
     WorkflowLoading.fs_readdir D (workflowsDir E) = Ret files →
     Forall (loadable E D) files →
     WorkflowLoading.initializeWorkflows E D workflows tr
     = (registerAll (definitions E D files) (loadBuiltInWorkflows workflows), tr)) ∧
  (∀ before bad after,
     WorkflowLoading.fs_readdir D (workflowsDir E) = Ret (before ++ bad :: after) →
     Forall (loadable E D) before →
     WorkflowLoading.endsWith bad ".json" = true →
     is_throw (parsedFile E D bad) = true →
     WorkflowLoading.initializeWorkflows E D workflows tr
     = (registerAll (definitions E D before) (loadBuiltInWorkflows workflows),
        WorkflowLoading.makeWorkflowsDir E tr)) ∧
  (∀ e,
     WorkflowLoading.fs_readdir D (workflowsDir E) = Throw e →
     WorkflowLoading.initializeWorkflows E D workflows tr
     = (loadBuiltInWorkflows workflows, WorkflowLoading.makeWorkflowsDir E tr)).
Proof.
  split; [intros file; apply endsWith_spec|].
  unfold WorkflowLoading.initializeWorkflows. split; [|split].
  - intros files -> Hall. by rewrite loadFiles_loadable.
  - intros before bad after -> Hall Hjson Hbad.
    destruct (loadFiles_stops E D before bad after (loadBuiltInWorkflows workflows)
                Hall Hjson Hbad) as [e ->]. done.
  - by intros e ->.
Qed.

(** X20: a definition read from a file is registered without validation and
    after the built-in ones: when the listing is one [.json] file that
    parses to [w], [getWorkflow] on the id of [w] returns [w] afterwards,
    also when [w] would be refused by [createWorkflow] and also when its id
    is that of a built-in workflow, which it then replaces. *)
Theorem X20_definition_files_are_not_validated (E : Env)
    (D : WorkflowLoading.Disk) (workflows : Store) (tr : Trace)
    (file : string) (w : Workflow) :
  WorkflowLoading.fs_readdir D (workflowsDir E) = Ret [file] →
  WorkflowLoading.endsWith file ".json" = true →
  parsedFile E D file = Ret w →
  getWorkflow (WorkflowLoading.initializeWorkflows E D workflows tr).1 (wf_id w)
  = Ret w.
Proof.
  intros Hdir Hjson Hparsed.
  unfold WorkflowLoading.initializeWorkflows. rewrite Hdir.
  rewrite loadFiles_loadable.
  2:{ constructor; [|constructor]. intros _. by rewrite Hparsed. }
  rewrite definitions_cons, Hjson, Hparsed. unfold registerAll. simpl.
  unfold getWorkflow. by rewrite registerWorkflow_lookup, decide_True.
Qed.

(** * The callers *)

Section RunEvents.
Context (E : Env) (workflow : Workflow) (input : option (gmap string JValue))
  (o : WorkflowOptions).



End RunEvents.


(** X21: the [workflow <name>] command of the command line never runs a
    step: it registers no workflow before it calls [runWorkflow], so that,
    whatever the configuration and the fuel, and whatever the name, unless
    it is the name of a property of [Object.prototype], it ends after
    logging an error, without an agent call and without a commit; when the
    initialization succeeds the error is "Workflow <name> not found",
    logged once by [runWorkflow] and once by the command. *)
Theorem X21_cli_workflow_command_runs_no_step (E : Env) (ch : Callers.Chalk)
    (initializeConfig setupModelProviders : Outcome ())
    (config : AgentSetup.AgentsConfig) (new : AgentSetup.AgentClasses)
    (name : string) (fuel : nat) (tr : Trace) :
  inheritedName name = false →
  ∃ ext,
    Callers.workflowAction E ch initializeConfig setupModelProviders config new
      name fuel tr = Some (tr ++ ext) ∧
    dispatched ext = [] ∧
    count_events is_GitCommit ext = 0 ∧
    (initializeConfig = Ret () → setupModelProviders = Ret () →
     ext = [ConsoleError ("Error running workflow " +:+ name +:+ ":")
              ("Workflow " +:+ name +:+ " not found");
            ConsoleError (Callers.red ch "Error running workflow:")
              ("Workflow " +:+ name +:+ " not found")]).
Proof.
  intros _. unfold Callers.workflowAction.
  destruct initializeConfig as [[]|e1]; [|by eexists].
  destruct setupModelProviders as [[]|e2]; [|by eexists].
  unfold runWorkflow, getWorkflow. rewrite lookup_empty.
  eexists. rewrite <- app_assoc. split; [done|]. by repeat split.
Qed.



(** * The further properties at concrete inputs *)

(** X1 on a clean work tree. *)
Lemma X1_gitCommit_clean_tree_witness :
  GitUtils.gitCommit Samples.cleanShell "CodeForge: Run workflow review" []
  = (Ret (), [GitUtils.Exec "git status --porcelain";
              GitUtils.Log "No changes to commit"]).
Proof.
  exact (proj1 (X1_gitCommit_clean_tree Samples.cleanShell
                  "CodeForge: Run workflow review" [] "" eq_refl eq_refl)).
Defined.


(** X7 for two tasks with the same id: the result of the second one is
    kept. *)
Lemma X7_orchestrateAgents_records_results_witness :
  ∃ context',
    (AgentSetup.orchestrateAgents
       (AgentSetup.withAgents Fixtures.noAgents
          (AgentSetup.setupAgents Samples.allEnabled Samples.stubs ∅))
       [Fixtures.task "job" "code-review"; Fixtures.task "job" "code-generation"]
       (initialContext Fixtures.emptyCodebase "/work" None) []).1
    = (Ret [Fixtures.failedResult; Fixtures.okResult], context') ∧
    results context' !! "job" = Some Fixtures.okResult.
Proof.
  eexists. split; [vm_compute; reflexivity|].
  refine (proj1 (X7_orchestrateAgents_records_results
    (AgentSetup.withAgents Fixtures.noAgents
       (AgentSetup.setupAgents Samples.allEnabled Samples.stubs ∅))
    [Fixtures.task "job" "code-review"; Fixtures.task "job" "code-generation"]
    (initialContext Fixtures.emptyCodebase "/work" None) []
    [Fixtures.failedResult; Fixtures.okResult] _ _ _)
    1 (Fixtures.task "job" "code-generation") Fixtures.okResult eq_refl eq_refl _).
  - vm_compute; reflexivity.
  - intros [|[|[|j]]] later Hj Hlater; simpl in Hlater; try lia; discriminate Hlater.
Defined.

(** X10 for a workflow whose only agent cannot be reached. *)
Lemma X10_agent_exception_ends_run_witness :
  runWorkflow Samples.unreachable {["review" := Fixtures.reviewOnly]} "review"
    None None 1 []
  = Some (Throw "connect ECONNREFUSED",
          [ConsoleLog "Running workflow: review";
           ConsoleLog "Executing step: analyze";
           AgentCall "codeReview" (Fixtures.task "analyze" "code-review");
           ConsoleError "Error running workflow review:" "connect ECONNREFUSED"]).
Proof.
  exact (X10_agent_exception_ends_run Samples.unreachable
    {["review" := Fixtures.reviewOnly]} "review" None None [] Fixtures.reviewOnly
    Fixtures.emptyCodebase (Fixtures.mkStep "analyze" "code-review" None) [] 0 _
    "analyze" (Fixtures.mkStep "analyze" "code-review" None) "codeReview"
    Samples.throwingAgent "connect ECONNREFUSED" 0
    eq_refl eq_refl eq_refl (passes_O _ _ _ _ _) eq_refl eq_refl eq_refl eq_refl
    eq_refl eq_refl eq_refl).
Defined.


(** X14 for the placeholder approval: with and without [requireApproval]. *)
Lemma X14_placeholder_approval_makes_requireApproval_void_witness :
  fst <$> runWorkflow Fixtures.allOk (loadBuiltInWorkflows ∅) "code-generation" None
            (Fixtures.runOptions true true) 3 []
  = fst <$> runWorkflow Fixtures.allOk (loadBuiltInWorkflows ∅) "code-generation" None
              (Fixtures.runOptions false false) 3 [ConsoleLog "earlier"].
Proof.
  exact (X14_placeholder_approval_makes_requireApproval_void Fixtures.allOk
           (loadBuiltInWorkflows ∅) "code-generation" None
           (Fixtures.runOptions true true) (Fixtures.runOptions false false) 3
           [] [ConsoleLog "earlier"] (λ _ _, eq_refl) eq_refl).
Defined.


(** X20 for a definition file that overrides a built-in workflow. *)
Lemma X20_definition_files_are_not_validated_witness :
  invalidDefinition Samples.override = true ∧
  getWorkflow (WorkflowLoading.initializeWorkflows Fixtures.noAgents Samples.oneFile
                 ∅ []).1 "bug-fixing"
  = Ret Samples.override.
Proof.
  split; [reflexivity|].
  exact (X20_definition_files_are_not_validated Fixtures.noAgents Samples.oneFile
           ∅ [] "bug-fixing.json" Samples.override eq_refl eq_refl eq_refl).
Defined.


(** * Creating a workflow, continued *)

(** X23: [createWorkflow] does not undo the registration when saving fails:
    if [fs.mkdir] or [fs.writeFile] throws, [createWorkflow] logs and
    rethrows that error and the valid workflow stays registered. The
    directory made is the one named [workflows] beside the configuration
    file, the file written is the one named after the id in that directory,
    and it is written only after [mkdir] succeeded. *)
Theorem X23_createWorkflow_keeps_registration_on_write_failure (E : Env)
    (stringify : Workflow → string) (workflow : Workflow) (workflows : Store)
    (tr : Trace) :
  invalidDefinition workflow = false →
  let created := createWorkflow E stringify workflow workflows tr in
  let dir :=
    path_join E [path_dirname E (path_join E [cwd E; ".codeforge"; "config.json"]);
                 "workflows"] in
  let file := path_join E [dir; wf_id workflow +:+ ".json"] in
  getWorkflow created.1.2 (wf_id workflow) = Ret workflow ∧
  (∀ e, fs_mkdir E dir = Throw e →
        created.1.1 = Throw e ∧
        created.2 = tr ++ [FsMkdir dir; ConsoleError "Error creating workflow:" e]) ∧
  (∀ e, fs_mkdir E dir = Ret () →
        fs_writeFile E file (stringify workflow) = Throw e →
        created.1.1 = Throw e ∧
        created.2 = tr ++ [FsMkdir dir; FsWriteFile file;
                           ConsoleError "Error creating workflow:" e]) ∧
  (FsWriteFile file ∈ drop (length tr) created.2 → fs_mkdir E dir = Ret ()).
Proof.
  intros Hok created dir file.
  change dir with (workflowsDir E) in *. change file with (workflowFile E workflow) in *.
  clear dir file.
  split; [|split; [|split]].
  - subst created. rewrite createWorkflow_store, Hok. unfold getWorkflow.
    by rewrite registerWorkflow_lookup, decide_True.
  - intros e Hmk. subst created. unfold createWorkflow.
    rewrite Hok, Hmk. simpl. by rewrite <- app_assoc.
  - intros e Hmk Hwr. subst created. unfold createWorkflow.
    rewrite Hok, Hmk, Hwr. simpl. by rewrite <- !app_assoc.
  - subst created. unfold createWorkflow. rewrite Hok.
    destruct (fs_mkdir E (workflowsDir E)) as [[]|e]; [done|].
    simpl. rewrite <- app_assoc, drop_app_length. simpl.
    intros [Hin|[Hin|Hin]%elem_of_cons]%elem_of_cons;
      [discriminate Hin|discriminate Hin|by apply elem_of_nil in Hin].
Qed.

(** X23 at a concrete input: saving the one-step workflow on a full disk. *)
Lemma X23_createWorkflow_keeps_registration_on_write_failure_witness :
  createWorkflow Samples.fullDisk wf_id Fixtures.reviewOnly ∅ []
  = (Throw "ENOSPC: no space left on device",
     {["review" := Fixtures.reviewOnly]},
     [FsMkdir "/work/.codeforge/workflows";
      FsWriteFile "/work/.codeforge/workflows/review.json";
      ConsoleError "Error creating workflow:" "ENOSPC: no space left on device"]) ∧
  getWorkflow {["review" := Fixtures.reviewOnly]} "review" = Ret Fixtures.reviewOnly.
Proof.
  assert (invalidDefinition Fixtures.reviewOnly = false) as Hvalid by reflexivity.
  destruct (X23_createWorkflow_keeps_registration_on_write_failure
              Samples.fullDisk wf_id Fixtures.reviewOnly ∅ [] Hvalid)
    as (Hregistered & _ & Hwrite & _).
  destruct (Hwrite "ENOSPC: no space left on device" eq_refl eq_refl)
    as [Hthrown Htrace].
  assert ((createWorkflow Samples.fullDisk wf_id Fixtures.reviewOnly ∅ []).1.2
          = {["review" := Fixtures.reviewOnly]}) as Hstore by reflexivity.
  rewrite Hstore in Hregistered. split; [|exact Hregistered].
  destruct (createWorkflow Samples.fullDisk wf_id Fixtures.reviewOnly ∅ [])
    as [[out store] tr'].
  simpl in *. by rewrite Hthrown, Hstore, Htrace.
Defined.

(** * Acyclic workflows, continued *)

(** The workflow with a gate in front of its second step has no cycle. *)
Lemma gatedWorkflow_acyclic : acyclic Fixtures.gatedWorkflow.
Proof.
  apply (acyclic_by_rank _ (λ id, if String.eqb id "lint" then 0 else 1)).
  intros s context b Hin Hnext.
  repeat (apply elem_of_cons in Hin as [->|Hin];
          [first [discriminate Hnext | injection Hnext as <-; vm_compute; lia]|]).
  by apply elem_of_nil in Hin.
Defined.

(** The id that is current after one or more passes is reached, along next
    references, from the id that was current before them. *)
Lemma passes_nextRef E workflow input o m :
  ∀ st1 st2 a b,
    passes E workflow input o (S m) st1 st2 →
    currentStepId st1 = Some a → currentStepId st2 = Some b →
    tc (nextRef workflow) a b.
Proof.
  induction m as [|m IH]; intros st1 st2 a b Hpasses Ha Hb;
    inversion Hpasses as [|n st cur st' st'' Hcur Hne Hbody Hrest]; subst;
    rewrite Hcur in Ha; injection Ha as ->.
  - inversion Hrest; subst.
    apply tc_once. by destruct (loopBody_Continue_nextRef _ _ _ _ _ _ _ _ Hbody Hb).
  - inversion Hrest as [|n st0 c st0' st0'' Hc]; subst.
    eapply tc_l; [|by eapply IH].
    by destruct (loopBody_Continue_nextRef _ _ _ _ _ _ _ _ Hbody Hc).
Qed.

Section Visits.
Context (E : Env) (workflow : Workflow) (input : option (gmap string JValue))
  (o : WorkflowOptions).
Hypothesis no_cycle : acyclic workflow.

(** The steps passed over from a state on are pairwise distinct, and distinct
    from the steps whose ids reach the current id. *)
Lemma whileLoop_acyclic_visits fuel :
  ∀ (before : list string) st st' tr',
    (∀ v cur, v ∈ before → currentStepId st = Some cur →
              tc (nextRef workflow) v cur) →
    whileLoop E workflow input o fuel st = Some (Ret st', tr') →
    ∃ ext visited ran new,
      tr' = trace st ++ ext ∧
      collected st' = collected st ++ new ∧
      List.filter isStartLine ext = map startLine visited ∧
      NoDup (map step_id visited) ∧
      (∀ s, s ∈ visited → s ∈ steps workflow ∧ step_id s ∉ before) ∧
      sublist ran visited ∧
      dispatched ext = map (λ s, stepTask s input) ran ∧
      Forall2 (λ x s, step x = step_name s) new ran.
Proof.
  assert (∀ (before : list string) (st : LoopState),
            ∃ ext visited ran new,
              trace st = trace st ++ ext ∧
              collected st = collected st ++ new ∧
              List.filter isStartLine ext = map startLine visited ∧
              NoDup (map step_id visited) ∧
              (∀ s, s ∈ visited → s ∈ steps workflow ∧ step_id s ∉ before) ∧
              sublist ran visited ∧
              dispatched ext = map (λ s, stepTask s input) ran ∧
              Forall2 (λ x s, step x = step_name s) new ran) as Hstay.
  { intros before st. exists [], [], [], []. rewrite !app_nil_r.
    split; [done|]. split; [done|]. split; [done|]. split; [constructor|].
    split; [by intros s Hs%elem_of_nil|]. split; [constructor|].
    split; [done|constructor]. }
  induction fuel as [|fuel IH]; intros before st st' tr' Hreach; simpl.
  { destruct (currentStepId st) as [cur|]; [destruct (emptyStr cur); [|done]|];
      intros [= <- <-]; apply Hstay. }
  destruct (currentStepId st) as [cur|] eqn:Hcur; [|intros [= <- <-]; apply Hstay].
  destruct (emptyStr cur); [intros [= <- <-]; apply Hstay|].
  assert (cur ∉ before) as Hfresh.
  { intros Hv. by apply (no_cycle cur), Hreach. }
  assert (∀ s st1,
            findStep workflow cur = Some s →
            (∃ context, currentStepId st1 = nextStep s context) →
            ∀ v next, v ∈ cur :: before → currentStepId st1 = Some next →
                      tc (nextRef workflow) v next) as Hreach'.
  { intros s st1 Hfind [context Hnext] v next Hv Hcur1.
    assert (nextRef workflow cur next) as Hedge.
    { exists s, context. split; [done|]. by rewrite <- Hnext. }
    apply elem_of_cons in Hv as [->|Hv]; [by apply tc_once|].
    eapply tc_r; [by apply Hreach|done]. }
  assert (∀ s visited,
            findStep workflow cur = Some s →
            NoDup (map step_id visited) →
            (∀ s', s' ∈ visited → s' ∈ steps workflow ∧ step_id s' ∉ cur :: before) →
            NoDup (map step_id (s :: visited)) ∧
            (∀ s', s' ∈ s :: visited → s' ∈ steps workflow ∧ step_id s' ∉ before))
    as Hvisit.
  { intros s visited Hfind Hnd Hin.
    apply findStep_Some in Hfind as [Hs Hid]. split.
    - simpl. constructor; [|done]. rewrite Hid.
      intros (s' & Heq & Hs')%list_elem_of_fmap.
      apply Hin in Hs' as [_ Hnot]. apply Hnot. rewrite <- Heq.
      apply elem_of_cons. by left.
    - intros s' [->|Hs']%elem_of_cons.
      + split; [done|]. by rewrite Hid.
      + apply Hin in Hs' as [Hsteps Hnot]. split; [done|].
        intros Hb. apply Hnot. apply elem_of_cons. by right. }
  destruct (loopBody_shape E workflow input o cur st Hcur)
    as [[Hfind Heq]|[(s & Hfind & Hskip & Heq)|[(s & e & tr2 & _ & _ & _ & Heq)
       |(s & key & agent & r & Hfind & _ & _ & _ & _ & Heq)]]];
    rewrite Heq; clear Heq.
  - intros [= <- <-]. apply Hstay.
  - rewrite Hfind. simpl. intros Hloop.
    apply (IH (cur :: before)) in Hloop
      as (ext & visited & ran & new & -> & Hcoll & Hlines & Hnd & Hin & Hsub & Hdisp & Hres).
    2:{ apply (Hreach' s); [done|]. by eexists. }
    destruct (Hvisit s visited Hfind Hnd Hin) as [Hnd' Hin'].
    exists ([startLine s; ConsoleLog ("Skipping step " +:+ step_name s
                                      +:+ " (condition not met)")] ++ ext),
      (s :: visited), ran, new.
    cbn [trace collected] in *. split; [by rewrite <- !app_assoc|]. split; [done|].
    rewrite List.filter_app, dispatched_app, Hlines, Hdisp.
    split; [reflexivity|]. split; [done|]. split; [done|].
    split; [by constructor|]. split; [reflexivity|done].
  - done.
  - rewrite Hfind. simpl.
    set (started := trace st ++ [ConsoleLog ("Executing step: " +:+ step_name s)]).
    set (called := started ++ [AgentCall key (stepTask s input)]).
    set (asked := called ++ [ApprovalAsked (approvalMessage s);
                             ConsoleLog (approvalMessage s)]).
    assert (∀ tr1 lines,
              tr1 = trace st ++ startLine s :: AgentCall key (stepTask s input) :: lines →
              List.filter isStartLine lines = [] → dispatched lines = [] →
              whileLoop E workflow input o fuel (afterStep s r st tr1) = Some (Ret st', tr') →
              ∃ ext visited ran new,
                tr' = trace st ++ ext ∧
                collected st' = collected st ++ new ∧
                List.filter isStartLine ext = map startLine visited ∧
                NoDup (map step_id visited) ∧
                (∀ s, s ∈ visited → s ∈ steps workflow ∧ step_id s ∉ before) ∧
                sublist ran visited ∧
                dispatched ext = map (λ s, stepTask s input) ran ∧
                Forall2 (λ x s, step x = step_name s) new ran) as Hgoes.
    { intros tr1 lines -> Hquiet Hnone Hloop.
      apply (IH (cur :: before)) in Hloop
        as (ext & visited & ran & new & -> & Hcoll & Hlines & Hnd & Hin & Hsub & Hdisp & Hres).
      2:{ apply (Hreach' s); [done|]. by eexists. }
      destruct (Hvisit s visited Hfind Hnd Hin) as [Hnd' Hin'].
      exists ((startLine s :: AgentCall key (stepTask s input) :: lines) ++ ext),
        (s :: visited), (s :: ran),
        ({| step := step_name s; result := r |} :: new).
      cbn [trace collected afterStep] in *. split; [by rewrite <- !app_assoc|].
      split; [by rewrite Hcoll, <- app_assoc|].
      rewrite List.filter_app, dispatched_app, Hlines, Hdisp.
      change (List.filter isStartLine
                (startLine s :: AgentCall key (stepTask s input) :: lines))
        with (startLine s :: List.filter isStartLine lines).
      change (dispatched (startLine s :: AgentCall key (stepTask s input) :: lines))
        with (stepTask s input :: dispatched lines).
      rewrite Hquiet, Hnone.
      split; [done|]. split; [done|]. split; [done|].
      split; [by constructor|]. split; [done|]. by constructor. }
    destruct (negb (success r) && requireApproval o).
    + destruct (userApproves E called (approvalMessage s)).
      * apply (Hgoes asked [ApprovalAsked (approvalMessage s);
                            ConsoleLog (approvalMessage s)]); [|done..].
        subst asked called started. by rewrite <- !app_assoc.
      * intros [= <- <-].
        destruct (Hvisit s [] Hfind) as [Hnd' Hin']; [constructor|by intros ? ?%elem_of_nil|].
        exists [startLine s; AgentCall key (stepTask s input);
                ApprovalAsked (approvalMessage s); ConsoleLog (approvalMessage s);
                ConsoleLog "Workflow execution stopped by user."],
          [s], [s], [{| step := step_name s; result := r |}].
        cbn [trace collected afterDenial]. subst asked called started.
        rewrite <- !app_assoc.
        split; [done|]. split; [done|]. split; [reflexivity|]. split; [done|].
        split; [done|]. split; [done|]. split; [reflexivity|].
        by repeat constructor.
    + apply (Hgoes called []); [|done..].
      subst called started. by rewrite <- !app_assoc.
Qed.

End Visits.

(** The commit step opens no pass and calls no agent. *)
Lemma commitChanges_starts_no_step E o tr :
  ∃ hook,
    commitChanges E o tr = tr ++ hook ∧
    List.filter isStartLine hook = [] ∧ dispatched hook = [].
Proof.
  unfold commitChanges. destruct (autoCommit o).
  - destruct (gitCommit E (commitMessage o)) as [[]|e]; [destruct (gitPush E)|];
      eexists; rewrite <- !app_assoc; (split; [done|]); by split.
  - exists []. rewrite app_nil_r. by split.
Qed.

(** X24: in a run of a workflow whose next references are acyclic, the loop
    passes over every step at most once: an id that was current in one pass
    is not current again in a later one; the lines "Executing step: ..." of
    the run are those of pairwise distinct steps of the workflow, the tasks
    handed to agents are those of some of these steps, in the same order,
    each handed out once, and the result list has one entry for each of
    them. So a run that returns has at most as many results as the workflow
    has steps. *)
Theorem X24_acyclic_run_passes_each_step_at_most_once (E : Env)
    (workflows : Store) (workflowId : string) (input : option (gmap string JValue))
    (options : option RunOptions) (fuel : nat) (tr : Trace)
    (res : list StepResult) (tr' : Trace) (workflow : Workflow) :
  acyclic workflow →
  workflows !! workflowId = Some workflow →
  runWorkflow E workflows workflowId input options fuel tr = Some (Ret res, tr') →
  (∀ m st1 st2 cur,
     passes E workflow input (setDefaultOptions E workflow options) (S m) st1 st2 →
     currentStepId st1 = Some cur → currentStepId st2 ≠ Some cur) ∧
  ∃ ext visited ran,
    tr' = tr ++ ext ∧
    List.filter isStartLine ext = map startLine visited ∧
    NoDup (map step_id visited) ∧
    (∀ s, s ∈ visited → s ∈ steps workflow) ∧
    sublist ran visited ∧
    dispatched ext = map (λ s, stepTask s input) ran ∧
    Forall2 (λ x s, step x = step_name s) res ran ∧
    length res ≤ length (steps workflow).
Proof.
  intros Hacyclic Hw Hrun. split.
  { intros m st1 st2 cur Hpasses Hcur Hagain.
    apply (Hacyclic cur). by eapply passes_nextRef. }
  unfold runWorkflow, getWorkflow in Hrun. rewrite Hw in Hrun.
  cbv beta iota zeta in Hrun.
  set (o := setDefaultOptions E workflow options) in *.
  destruct (analyzeCodebase E (codebaseDir o)) as [cb|e0]; [|done].
  destruct (steps workflow) as [|first rest] eqn:Hsteps; [done|].
  rewrite <- Hsteps.
  destruct (whileLoop E workflow input o fuel _) as [[[st|e1] tr2]|] eqn:Hloop;
    [|done|done].
  injection Hrun as <- <-.
  apply (whileLoop_acyclic_visits E workflow input o Hacyclic fuel []) in Hloop
    as (ext & visited & ran & new & -> & Hcoll & Hlines & Hnd & Hin & Hsub & Hdisp & Hres).
  2:{ intros v cur Hv. by apply elem_of_nil in Hv. }
  simpl in Hcoll. subst new. cbn [trace initialState].
  destruct (commitChanges_starts_no_step E o
              (((tr ++ [ConsoleLog ("Running workflow: " +:+ wf_name workflow)]) ++ ext)
               ++ [ConsoleLog ("Workflow " +:+ wf_name workflow +:+ " completed.")]))
    as (hook & -> & Hquiet & Hhook).
  exists ((ConsoleLog ("Running workflow: " +:+ wf_name workflow) :: ext)
          ++ ConsoleLog ("Workflow " +:+ wf_name workflow +:+ " completed.") :: hook),
    visited, ran.
  split; [by rewrite <- !app_assoc|].
  rewrite List.filter_app, dispatched_app. simpl.
  rewrite Hlines, Hquiet, Hdisp, Hhook, !app_nil_r.
  split; [done|]. split; [done|]. split; [intros s Hs; by apply Hin|].
  split; [done|]. split; [done|]. split; [done|].
  rewrite (Forall2_length _ _ _ Hres).
  etrans; [by apply sublist_length|].
  rewrite <- (length_map step_id visited), <- (length_map step_id (steps workflow)).
  apply submseteq_length, NoDup_submseteq; [done|].
  intros id (s & -> & Hs)%list_elem_of_fmap.
  apply list_elem_of_fmap_2. by apply Hin.
Qed.

(** X24 at a concrete input: the workflow with a gate in front of its first
    step, whose condition does not hold: the loop passes over both steps,
    hands out the task of the second one only, and returns one result. *)
Lemma X24_acyclic_run_passes_each_step_at_most_once_witness :
  ∃ res tr' visited ran,
    runWorkflow Fixtures.allOk {["gated" := Fixtures.gatedWorkflow]} "gated" None
      None 4 [] = Some (Ret res, tr') ∧
    List.filter isStartLine tr' = map startLine visited ∧
    NoDup (map step_id visited) ∧
    dispatched tr' = map (λ s, stepTask s None) ran ∧
    sublist ran visited ∧
    map step res = ["save"].
Proof.
  assert (runWorkflow Fixtures.allOk {["gated" := Fixtures.gatedWorkflow]} "gated" None
            None 4 [] = Some (Ret _, _)) as Hrun by (vm_compute; reflexivity).
  assert (({["gated" := Fixtures.gatedWorkflow]} : Store) !! "gated"
          = Some Fixtures.gatedWorkflow) as Hw by (vm_compute; reflexivity).
  destruct (X24_acyclic_run_passes_each_step_at_most_once _ _ _ _ _ _ _ _ _
              Fixtures.gatedWorkflow gatedWorkflow_acyclic Hw Hrun)
    as (_ & ext & visited & ran & Hext & Hlines & Hnd & _ & Hsub & Hdisp & _).
  eexists _, _, visited, ran. split; [exact Hrun|].
  rewrite Hext. split; [exact Hlines|]. split; [exact Hnd|].
  split; [exact Hdisp|]. split; [exact Hsub|]. reflexivity.
Defined.

(** * The remaining properties at concrete inputs *)

(** X2 on a work tree with one changed file: all three commands run, and the
    status was not empty. *)
Lemma X2_gitCommit_command_sequence_witness :
  GitUtils.commands (GitUtils.gitCommit Samples.dirtyShell "wip" []).2
  = [statusCommand; addCommand; GitUtils.commitCommand "wip"] ∧
  ∃ stdout,
    GitUtils.execAsync Samples.dirtyShell [] statusCommand = Ret stdout ∧
    GitUtils.trim Samples.dirtyShell stdout ≠ "".
Proof.
  split; [vm_compute; reflexivity|].
  apply (X2_gitCommit_command_sequence Samples.dirtyShell "wip" []).
  apply list_elem_of_In. vm_compute. auto.
Defined.

(** X3 on the branch [main]. *)
Lemma X3_gitPush_current_branch_witness :
  GitUtils.commands (GitUtils.gitPush Samples.dirtyShell []).2
  = [branchCommand; "git push origin main"] ∧
  (GitUtils.gitPush Samples.dirtyShell []).1 = Ret ().
Proof.
  destruct (proj1 (X3_gitPush_current_branch Samples.dirtyShell []) "main" eq_refl)
    as [Hcommands Hpushed].
  split; [exact Hcommands|].
  apply Hpushed. exists "". reflexivity.
Defined.

(** X4 with tests and LangGraph switched off: no testing agent, but a
    LangGraph agent all the same. *)
Lemma X4_setupAgents_only_adds_witness :
  AgentSetup.setupAgents Samples.noTesting Samples.stubs ∅ !! "testing" = None ∧
  AgentSetup.setupAgents Samples.noTesting Samples.stubs ∅ !! "langgraph"
  = Some (AgentSetup.LangGraphAgent Samples.stubs).
Proof.
  destruct (X4_setupAgents_only_adds Samples.noTesting Samples.stubs ∅ "testing")
    as (_ & Hoff & Hlanggraph & _).
  split; [|exact Hlanggraph].
  rewrite (Hoff eq_refl). reflexivity.
Defined.

(** X6 for three tasks, the second of which goes to an agent that throws:
    the third task is never handed out. *)
Lemma X6_orchestrateAgents_stops_at_first_exception_witness :
  let first := Fixtures.task "a" "code-generation" in
  let second := Fixtures.task "b" "code-review" in
  let third := Fixtures.task "c" "code-generation" in
  let context := initialContext Fixtures.emptyCodebase "/work" None in
  (AgentSetup.orchestrateAgents Samples.flaky [first; second; third] context []).1
  = (Throw "connect ECONNREFUSED", recordResult context "a" Fixtures.okResult) ∧
  dispatched (AgentSetup.orchestrateAgents Samples.flaky [first; second; third]
                context []).2
  = [first; second].
Proof.
  intros first second third context.
  destruct (proj1 (proj2 (X6_orchestrateAgents_stops_at_first_exception Samples.flaky
              [first; second; third] context []))
              [first] second [third] [Fixtures.okResult]
              (recordResult context "a" Fixtures.okResult)
              [AgentCall "codeGeneration" first] "connect ECONNREFUSED"
              eq_refl eq_refl eq_refl) as (Hthrown & _ & Hhanded).
  split; [by rewrite Hthrown|].
  destruct Hhanded as [Hwithout|Hwith]; [|exact Hwith].
  vm_compute in Hwithout. discriminate Hwithout.
Defined.

(** X17 on a store that holds a user definition under a built-in id and one
    under an id of its own. *)
Lemma X17_loadBuiltInWorkflows_overwrites_four_ids_witness :
  let workflows : Store :=
    <["review" := Fixtures.reviewOnly]> {["bug-fixing" := Samples.override]} in
  getWorkflow (loadBuiltInWorkflows workflows) "bug-fixing" = Ret bugFixingWorkflow ∧
  loadBuiltInWorkflows workflows !! "review" = Some Fixtures.reviewOnly.
Proof.
  intros workflows.
  destruct (X17_loadBuiltInWorkflows_overwrites_four_ids workflows)
    as (Hbuilt & Hother & _).
  split.
  - apply (Hbuilt bugFixingWorkflow). apply list_elem_of_In. simpl. auto.
  - rewrite (Hother "review").
    + vm_compute; reflexivity.
    + intros Hin%list_elem_of_In. simpl in Hin.
      repeat destruct Hin as [Hin|Hin]; try discriminate Hin. exact Hin.
Defined.

(** X19 on a directory whose third entry is a broken definition file: the
    definition before it is registered, the one after it is not, and the
    directory is made; and on a directory that does not exist: only the
    built-in workflows are registered, and the directory is made. *)
Lemma X19_initializeWorkflows_stops_at_first_bad_file_witness :
  WorkflowLoading.initializeWorkflows Fixtures.noAgents Samples.brokenFile ∅ []
  = (registerWorkflow Samples.override (loadBuiltInWorkflows ∅),
     [FsMkdir "/work/.codeforge/workflows"]) ∧
  (WorkflowLoading.initializeWorkflows Fixtures.noAgents Samples.brokenFile ∅ []).1
    !! "review" = None ∧
  WorkflowLoading.initializeWorkflows Fixtures.noAgents Samples.noDirectory ∅ []
  = (loadBuiltInWorkflows ∅, [FsMkdir "/work/.codeforge/workflows"]).
Proof.
  destruct (X19_initializeWorkflows_stops_at_first_bad_file Fixtures.noAgents
              Samples.brokenFile ∅ []) as (_ & _ & Hbad & _).
  destruct (X19_initializeWorkflows_stops_at_first_bad_file Fixtures.noAgents
              Samples.noDirectory ∅ []) as (_ & _ & _ & Hmissing).
  assert (Forall (loadable Fixtures.noAgents Samples.brokenFile)
            ["notes.txt"; "bug-fixing.json"]) as Hbefore.
  { constructor; [|constructor; [|constructor]].
    - intros Hjson. vm_compute in Hjson. discriminate Hjson.
    - intros _. vm_compute. reflexivity. }
  rewrite (Hbad ["notes.txt"; "bug-fixing.json"] "broken.json" ["review.json"]
             eq_refl Hbefore eq_refl eq_refl).
  rewrite (Hmissing "ENOENT: no such file or directory" eq_refl).
  split; [|split]; vm_compute; reflexivity.
Defined.

(** X21 for [codeforge workflow bug-fixing] with every agent enabled. *)
Lemma X21_cli_workflow_command_runs_no_step_witness :
  Callers.workflowAction Fixtures.allOk Samples.plain (Ret ()) (Ret ())
    Samples.allEnabled Samples.stubs "bug-fixing" 8 []
  = Some [ConsoleError "Error running workflow bug-fixing:"
            "Workflow bug-fixing not found";
          ConsoleError "Error running workflow:" "Workflow bug-fixing not found"].
Proof.
  destruct (X21_cli_workflow_command_runs_no_step Fixtures.allOk Samples.plain
              (Ret ()) (Ret ()) Samples.allEnabled Samples.stubs "bug-fixing" 8 []
              eq_refl)
    as (ext & Hrun & _ & _ & Hext).
  rewrite (Hext eq_refl eq_refl) in Hrun. exact Hrun.
Defined.
